(** * tapa-fast-cosim: the RTL extractors and the testbench assembler

    A shallow embedding of [tapa_fast_cosim/main.py]:
    [_check_s_axi_control_format], [parse_register_addr],
    [parse_m_axi_interfaces] and [get_cosim_tb], together with the parts
    of the Python runtime they rest on ([str] methods, the [re] patterns
    of the file, ordered [dict]s, exceptions, and an integer-arithmetic
    fragment of [eval]).

    Text is a list of characters; a character is a code point below 256
    ([ascii]), with the character classes Python gives these code points. *)

From Stdlib Require Import Ascii String List ZArith Bool Arith Lia.
Import ListNotations.

Open Scope list_scope.

(** ** Text *)

Definition str : Type := list ascii.

(** A literal of the source, e.g. [txt "0x00"]. *)
Definition txt (lit : string) : str := list_ascii_of_string lit.

Definition code (c : ascii) : nat := nat_of_ascii c.

Definition in_range (lo hi : nat) (c : ascii) : bool :=
  (lo <=? code c) && (code c <=? hi).

(** [str.isspace] on one character, which is also the class [\s] of [re]
    on [str] patterns: TAB..CR, FS..US, SPACE, NEL and NBSP. *)
Definition isspace (c : ascii) : bool :=
  in_range 9 13 c || in_range 28 32 c
  || (code c =? 133) || (code c =? 160).

(** ASCII decimal digit. *)
Definition isdigit (c : ascii) : bool := in_range 48 57 c.

(** The class [\w] of [re] on [str] patterns: alphanumeric or underscore. *)
Definition isword (c : ascii) : bool :=
  isdigit c || in_range 65 90 c || in_range 97 122 c || (code c =? 95)
  || (code c =? 170) || in_range 178 179 c || (code c =? 181)
  || in_range 185 186 c || in_range 188 190 c
  || in_range 192 214 c || in_range 216 246 c || in_range 248 255 c.

(** The class [\S]. *)
Definition notspace (c : ascii) : bool := negb (isspace c).

(** The class [.] (no DOTALL flag): anything but a newline. *)
Definition dot (c : ascii) : bool := negb (code c =? 10).

Definition str_eqb (a b : str) : bool :=
  if list_eq_dec ascii_dec a b then true else false.

(** [s.startswith(p)] *)
Fixpoint startswith (p t : str) : bool :=
  match p, t with
  | [], _ => true
  | _ :: _, [] => false
  | a :: p', b :: t' => Ascii.eqb a b && startswith p' t'
  end.

(** [sub in t] *)
Fixpoint contains (sub t : str) : bool :=
  startswith sub t ||
  match t with
  | [] => false
  | _ :: t' => contains sub t'
  end.

Fixpoint lstrip (t : str) : str :=
  match t with
  | c :: t' => if isspace c then lstrip t' else t
  | [] => []
  end.

(** [t.strip()] *)
Definition strip (t : str) : str := rev (lstrip (rev (lstrip t))).

(** [t.replace(old, new)] for a non-empty [old]: the occurrences of [old]
    are found left to right and do not overlap; [skip] counts the
    characters of the occurrence just replaced that are still to be
    dropped. *)
Fixpoint replace_from (old new t : str) (skip : nat) : str :=
  match t with
  | [] => []
  | c :: t' =>
      match skip with
      | S k => replace_from old new t' k
      | O =>
          if startswith old t
          then new ++ replace_from old new t' (length old - 1)
          else c :: replace_from old new t' 0
      end
  end.

(** [t.replace(old, new)]; an empty [old] matches before every character
    and at the end. *)
Definition replace (old new t : str) : str :=
  match old with
  | [] => new ++ flat_map (fun c => c :: new) t
  | _ :: _ => replace_from old new t 0
  end.

(** [f.readlines()]: the lines of a text, each with its newline. *)
Fixpoint readlines_from (cur : str) (t : str) : list str :=
  match t with
  | [] => match cur with [] => [] | _ :: _ => [rev cur] end
  | c :: t' =>
      if code c =? 10
      then rev (c :: cur) :: readlines_from [] t'
      else readlines_from (c :: cur) t'
  end.

Definition readlines (t : str) : list str := readlines_from [] t.

(** ** Exceptions

    The exceptions of Python the program can end in, and
    [OutsideArithmetic], which marks a text given to [eval] that the
    model of [eval] does not cover. *)

Inductive exn : Type :=
| IOError (path : str)
| AssertionError (msg : option str)
| IndexError
| AttributeError
| KeyError (key : str)
| OutsideArithmetic (expr : str).

Inductive result (A : Type) : Type :=
| Ok (a : A)
| Raise (e : exn).
Arguments Ok {A} a.
Arguments Raise {A} e.

Definition bind {A B} (m : result A) (f : A -> result B) : result B :=
  match m with
  | Ok a => f a
  | Raise e => Raise e
  end.

Notation "x <- m ;; k" := (bind m (fun x => k))
  (at level 61, m at next level, right associativity).
Notation "m ;;; k" := (bind m (fun _ => k))
  (at level 61, right associativity).

(** [assert b, msg] *)
Definition assert (b : bool) (msg : option str) : result unit :=
  if b then Ok tt else Raise (AssertionError msg).

(** [for x in xs: body x], stopping at the first exception. *)
Fixpoint for_each {A} (xs : list A) (body : A -> result unit) : result unit :=
  match xs with
  | [] => Ok tt
  | x :: xs' => body x ;;; for_each xs' body
  end.

(** [for x in xs: st = body x st], stopping at the first exception. *)
Fixpoint for_fold {A St} (xs : list A) (body : A -> St -> result St) (st : St)
  : result St :=
  match xs with
  | [] => Ok st
  | x :: xs' => st' <- body x st ;; for_fold xs' body st'
  end.

(** ** Ordered dictionaries

    A Python [dict] keeps its keys in insertion order; assigning to a key
    that is present keeps its position. *)

Definition dict (V : Type) : Type := list (str * V).

Fixpoint dict_get {V} (k : str) (d : dict V) : option V :=
  match d with
  | [] => None
  | (k', v) :: d' => if str_eqb k k' then Some v else dict_get k d'
  end.

(** [d[k] = v] *)
Fixpoint dict_set {V} (k : str) (v : V) (d : dict V) : dict V :=
  match d with
  | [] => [(k, v)]
  | (k', v') :: d' =>
      if str_eqb k k' then (k', v) :: d' else (k', v') :: dict_set k v d'
  end.

(** [{k: v for k, v in pairs}] *)
Definition dict_of {V} (pairs : list (str * V)) : dict V :=
  fold_left (fun d kv => dict_set (fst kv) (snd kv) d) pairs [].

(** [d[k]] *)
Definition dict_lookup {V} (k : str) (d : dict V) : result V :=
  match dict_get k d with
  | Some v => Ok v
  | None => Raise (KeyError k)
  end.

(** [d[k].append(v)] on a [defaultdict(list)]. *)
Definition dict_append {V} (k : str) (v : V) (d : dict (list V))
  : dict (list V) :=
  match dict_get k d with
  | Some vs => dict_set k (vs ++ [v]) d
  | None => dict_set k [v] d
  end.

(** ** Regular expressions

    The constructs the patterns of [main.py] use: literal characters,
    character classes, greedy repetition of a class, concatenation and
    numbered capture groups. Matching is the backtracking search of [re]:
    a repetition first takes as many characters as it can and gives them
    back one at a time. *)

Inductive regex : Type :=
| Eps
| Chr (c : ascii)
| Cls (p : ascii -> bool)
| Star (p : ascii -> bool)
| Cat (r1 r2 : regex)
| Group (i : nat) (r : regex).

(** [p+] *)
Definition Plus (p : ascii -> bool) : regex := Cat (Cls p) (Star p).

(** A run of literal characters. *)
Definition Str (t : string) : regex :=
  fold_right (fun c r => Cat (Chr c) r) Eps (txt t).

Definition Seq (rs : list regex) : regex := fold_right Cat Eps rs.

(** A bracketed set of characters such as [[;,]]. *)
Definition one_of (t : string) (c : ascii) : bool :=
  existsb (Ascii.eqb c) (txt t).

(** Captured groups, by number. *)
Definition groups : Type := nat -> str.

Definition set_group (i : nat) (t : str) (g : groups) : groups :=
  fun j => if Nat.eqb i j then t else g j.

Definition no_groups : groups := fun _ => [].

Fixpoint star {R} (p : ascii -> bool) (t : str) (k : str -> option R)
  : option R :=
  match t with
  | c :: t' =>
      if p c
      then match star p t' k with
           | Some r => Some r
           | None => k t
           end
      else k t
  | [] => k []
  end.

Fixpoint rmatch {R} (r : regex) (t : str) (g : groups)
         (k : str -> groups -> option R) : option R :=
  match r with
  | Eps => k t g
  | Chr c =>
      match t with
      | c' :: t' => if Ascii.eqb c c' then k t' g else None
      | [] => None
      end
  | Cls p =>
      match t with
      | c' :: t' => if p c' then k t' g else None
      | [] => None
      end
  | Star p => star p t (fun t' => k t' g)
  | Cat r1 r2 => rmatch r1 t g (fun t' g' => rmatch r2 t' g' k)
  | Group i r1 =>
      rmatch r1 t g
        (fun t' g' => k t' (set_group i (firstn (length t - length t') t) g'))
  end.

(** A match of [r] at the start of [t]: groups 1 and 2 and the number of
    characters matched. *)
Definition match_here (r : regex) (t : str) : option (str * str * nat) :=
  rmatch r t no_groups
    (fun t' g => Some (g 1, g 2, length t - length t')).

(** [re.search(r, t)]: the leftmost match; its groups 1 and 2. *)
Fixpoint re_search (r : regex) (t : str) : option (str * str) :=
  match match_here r t with
  | Some (g1, g2, _) => Some (g1, g2)
  | None =>
      match t with
      | [] => None
      | _ :: t' => re_search r t'
      end
  end.

(** [re.findall(r, t)] for a pattern with two groups: the matches do not
    overlap; [skip] counts the characters of the last match still to be
    passed over. *)
Fixpoint findall_from (r : regex) (t : str) (skip : nat) : list (str * str) :=
  match t with
  | [] =>
      match skip, match_here r [] with
      | O, Some (g1, g2, _) => [(g1, g2)]
      | _, _ => []
      end
  | _ :: t' =>
      match skip with
      | S k => findall_from r t' k
      | O =>
          match match_here r t with
          | Some (g1, g2, n) => (g1, g2) :: findall_from r t' (n - 1)
          | None => findall_from r t' 0
          end
      end
  end.

Definition findall (r : regex) (t : str) : list (str * str) :=
  findall_from r t 0.

(** The patterns of [main.py]. *)

(** The pattern of line 53: group 1 is [0x\w+], then the text
    [ : Data signal of ], then group 2, [\w+]. *)
Definition re_data_signal : regex :=
  Seq [Group 1 (Cat (Str "0x") (Plus isword));
       Str " : Data signal of ";
       Group 2 (Plus isword)].

(** The two bus patterns of lines 67 and 68: [output\s+\[], group 1 (any
    run of [.], greedy), [:\s*0\s*\]\s+m_axi_], group 2 ([\w+]), the
    suffix [_ARADDR] or [_WDATA], and [\s*[;,]]. *)
Definition re_m_axi (suffix : string) : regex :=
  Seq [Str "output"; Plus isspace; Str "[";
       Group 1 (Star dot);
       Str ":"; Star isspace; Str "0"; Star isspace; Str "]";
       Plus isspace; Str "m_axi_";
       Group 2 (Plus isword);
       Str suffix; Star isspace; Cls (one_of ";,")].

Definition re_araddr : regex := re_m_axi "_ARADDR".
Definition re_wdata : regex := re_m_axi "_WDATA".

(** The pattern of line 71: [parameter\s+], group 1 ([\S+]), [\s*=\s+],
    group 2 ([\S+]), [\s*;]. *)
Definition re_parameter : regex :=
  Seq [Str "parameter"; Plus isspace;
       Group 1 (Plus notspace);
       Star isspace; Str "="; Plus isspace;
       Group 2 (Plus notspace);
       Star isspace; Str ";"].

(** ** Files *)

(** The text files the program can read, by path; [None] where [open]
    fails. *)
Definition filesystem : Type := str -> option str.

(** [open(path, 'r').read()] *)
Definition read_file (fs : filesystem) (path : str) : result str :=
  match fs path with
  | Some t => Ok t
  | None => Raise (IOError path)
  end.

(** ** The control-register map *)

Definition keyword_groups : list (list str) :=
  [ [txt "0x00"; txt "Control signals"];
    [txt "0x04"; txt "Global Interrupt Enable Register"];
    [txt "0x08"; txt "IP Interrupt Enable Register"];
    [txt "0x0c"; txt "IP Interrupt Status Register"] ].

Definition fixed_addresses : list (str * str) :=
  [ (txt "- ap_start", txt "bit 0");
    (txt "- ap_done", txt "bit 1");
    (txt "- ap_idle", txt "bit 2");
    (txt "- ap_ready", txt "bit 3");
    (txt "- auto_restart", txt "bit 7") ].

(** [enumerate(xs)] *)
Definition enumerate {A} (xs : list A) : list (nat * A) :=
  combine (seq 0 (length xs)) xs.

(** [[i for i, elem in enumerate(xs) if k in elem]] *)
Definition indices_with (k : str) (xs : list str) : list nat :=
  map fst (filter (fun ie => contains k (snd ie)) (enumerate xs)).

(** [xs[0]] *)
Definition first_item {A} (xs : list A) : result A :=
  match xs with
  | x :: _ => Ok x
  | [] => Raise IndexError
  end.

(** [xs[b:e]] for indices that are not negative. *)
Definition slice {A} (xs : list A) (b e : nat) : list A :=
  firstn (e - b) (skipn b xs).

(** The assertion of line 27. *)
Definition keyword_group_ok (line : str) (kw_group : list str) : bool :=
  Bool.eqb (existsb (fun k => contains k line) kw_group)
           (forallb (fun k => contains k line) kw_group).

(** The assertion of line 39. *)
Definition fixed_addresses_ok (line : str) : bool :=
  forallb (fun ra => contains (snd ra) line)
          (filter (fun ra => contains (fst ra) line) fixed_addresses).

Definition _check_s_axi_control_format (s_axi_control_comments : list str)
  : result unit :=
  for_each s_axi_control_comments (fun line =>
    for_each keyword_groups (fun kw_group =>
      assert (keyword_group_ok line kw_group) (Some line))) ;;;
  ap_signal_beg <-
    first_item (indices_with (txt "0x00") s_axi_control_comments) ;;
  ap_signal_end <-
    first_item (indices_with (txt "0x04") s_axi_control_comments) ;;
  for_each (slice s_axi_control_comments ap_signal_beg ap_signal_end)
    (fun line => assert (fixed_addresses_ok line) None).

(** [Dict[str, List[str]]] *)
Definition RegisterMap : Type := dict (list str).

(** The lines kept at line 47. *)
Definition comment_lines (ctrl_unit : list str) : list str :=
  filter (fun line => startswith (txt "//") (strip line)) ctrl_unit.

(** The condition of line 52. *)
Definition is_data_signal_line (line : str) : bool :=
  contains (txt " 0x") line && contains (txt "Data signal") line.

(** The body of the loop of lines 51-56. *)
Definition record_line (line : str) (arg_to_reg_addrs : RegisterMap)
  : result RegisterMap :=
  if is_data_signal_line line
  then match re_search re_data_signal line with
       | None => Raise AttributeError
       | Some (addr, signal) =>
           Ok (dict_append signal (replace (txt "0x") (txt "'h") addr)
                           arg_to_reg_addrs)
       end
  else Ok arg_to_reg_addrs.

Definition parse_register_addr (fs : filesystem) (ctrl_unit_path : str)
  : result RegisterMap :=
  text <- read_file fs ctrl_unit_path ;;
  let ctrl_unit := readlines text in
  let comments := comment_lines ctrl_unit in
  _check_s_axi_control_format comments ;;;
  for_fold comments record_line [].

(** ** Integer arithmetic of [eval]

    [eval] is a builtin of Python, not code of this repository. What is
    modelled is its value on integer arithmetic: decimal literals, unary
    and binary [+] and [-], [*], parentheses, blanks and tabs, in a text of
    at most 64 characters; there [eval] returns that integer and does
    nothing else. On any other text the model stops with
    [OutsideArithmetic], which stands for no exception of Python: [eval]
    may return there (as it does on [2**5 - 1]), raise, or run code with
    effects of its own. No property of the program is stated on such
    texts: the properties that go through [eval] have hypotheses that
    keep its texts inside this fragment. *)

Local Open Scope Z_scope.

Inductive token : Type :=
| TNum (n : Z)
| TPlus
| TMinus
| TStar
| TLParen
| TRParen.

Definition digit_value (c : ascii) : Z := Z.of_nat (code c - 48).

Definition decimal_value (digits : str) : Z :=
  fold_left (fun acc c => 10 * acc + digit_value c) digits 0.

Definition is_zero_digit (c : ascii) : bool := (code c =? 48)%nat.

(** A decimal literal of Python has no leading zero, unless it is all
    zeros. *)
Definition decimal_ok (digits : str) : bool :=
  match digits with
  | c :: _ => negb (is_zero_digit c) || forallb is_zero_digit digits
  | [] => false
  end.

Definition operator (c : ascii) : option token :=
  if Ascii.eqb c "+" then Some TPlus
  else if Ascii.eqb c "-" then Some TMinus
  else if Ascii.eqb c "*" then Some TStar
  else if Ascii.eqb c "(" then Some TLParen
  else if Ascii.eqb c ")" then Some TRParen
  else None.

Definition is_blank (c : ascii) : bool :=
  (code c =? 32)%nat || (code c =? 9)%nat.

(** Ends the literal whose digits [num] holds in reverse, if any. *)
Definition flush (num : str) (rest : option (list token))
  : option (list token) :=
  match num, rest with
  | _, None => None
  | [], Some ts => Some ts
  | _ :: _, Some ts =>
      if decimal_ok (rev num)
      then Some (TNum (decimal_value (rev num)) :: ts)
      else None
  end.

Fixpoint tokenize (t : str) (num : str) : option (list token) :=
  match t with
  | [] => flush num (Some [])
  | c :: t' =>
      if isdigit c then tokenize t' (c :: num)
      else if is_blank c then flush num (tokenize t' [])
      else match operator c with
           | Some tok => flush num (option_map (cons tok) (tokenize t' []))
           | None => None
           end
  end.

(** Recursive descent, with the precedences of Python: a sum of
    products of signed atoms, the binary operators associating to the
    left. *)
Fixpoint parse_sum (fuel : nat) (ts : list token) : option (Z * list token) :=
  match fuel with
  | O => None
  | S f =>
      match parse_product f ts with
      | Some (v, ts') => sum_rest f v ts'
      | None => None
      end
  end
with sum_rest (fuel : nat) (acc : Z) (ts : list token)
  : option (Z * list token) :=
  match fuel with
  | O => None
  | S f =>
      match ts with
      | TPlus :: ts' =>
          match parse_product f ts' with
          | Some (v, ts'') => sum_rest f (acc + v) ts''
          | None => None
          end
      | TMinus :: ts' =>
          match parse_product f ts' with
          | Some (v, ts'') => sum_rest f (acc - v) ts''
          | None => None
          end
      | _ => Some (acc, ts)
      end
  end
with parse_product (fuel : nat) (ts : list token) : option (Z * list token) :=
  match fuel with
  | O => None
  | S f =>
      match parse_factor f ts with
      | Some (v, ts') => product_rest f v ts'
      | None => None
      end
  end
with product_rest (fuel : nat) (acc : Z) (ts : list token)
  : option (Z * list token) :=
  match fuel with
  | O => None
  | S f =>
      match ts with
      | TStar :: ts' =>
          match parse_factor f ts' with
          | Some (v, ts'') => product_rest f (acc * v) ts''
          | None => None
          end
      | _ => Some (acc, ts)
      end
  end
with parse_factor (fuel : nat) (ts : list token) : option (Z * list token) :=
  match fuel with
  | O => None
  | S f =>
      match ts with
      | TNum n :: ts' => Some (n, ts')
      | TPlus :: ts' => parse_factor f ts'
      | TMinus :: ts' =>
          match parse_factor f ts' with
          | Some (v, ts'') => Some (- v, ts'')
          | None => None
          end
      | TLParen :: ts' =>
          match parse_sum f ts' with
          | Some (v, TRParen :: ts'') => Some (v, ts'')
          | _ => None
          end
      | _ => None
      end
  end.

(** [eval(t)] on integer arithmetic. *)
Definition py_eval (t : str) : result Z :=
  if (64 <? length t)%nat then Raise (OutsideArithmetic t)
  else match tokenize t [] with
       | Some ts =>
           match parse_sum (4 * length ts + 8) ts with
           | Some (v, []) => Ok v
           | _ => Raise (OutsideArithmetic t)
           end
       | None => Raise (OutsideArithmetic t)
       end.

(** ** The AXI master interfaces *)

(** Modelled from the spec: the class [AXI] of [common.py], which is not
    among the sources; the spec gives it a name, a data width and an
    address width, and [main.py] builds it from these three, in this
    order. *)
Record AXI : Type := mkAXI {
  name : str;
  data_width : Z;
  addr_width : Z
}.

(** The loop of lines 80-82 on both width texts. *)
Definition substitute_both (param_to_value : dict str) (widths : str * str)
  : str * str :=
  fold_left
    (fun w nv => (replace (fst nv) (snd nv) (fst w),
                  replace (fst nv) (snd nv) (snd w)))
    param_to_value widths.

(** The body of the loop of lines 76-84. *)
Definition add_interface (name_to_addr_width param_to_value : dict str)
           (m : str * str) (axi_list : list AXI) : result (list AXI) :=
  let data_width := fst m in
  let m_axi := snd m in
  addr_width <- dict_lookup m_axi name_to_addr_width ;;
  let w := substitute_both param_to_value (data_width, addr_width) in
  d <- py_eval (fst w) ;;
  a <- py_eval (snd w) ;;
  Ok (axi_list ++ [mkAXI m_axi (d + 1) (a + 1)]).

(** The ParameterTable of a top-level RTL text (lines 71-72). *)
Definition param_to_value (top_rtl : str) : dict str :=
  dict_of (findall re_parameter top_rtl).

(** Line 75. *)
Definition name_to_addr_width (top_rtl : str) : dict str :=
  dict_of (map (fun m => (snd m, fst m)) (findall re_araddr top_rtl)).

Definition parse_m_axi_interfaces (fs : filesystem) (top_rtl_path : str)
  : result (list AXI) :=
  top_rtl <- read_file fs top_rtl_path ;;
  let match_data := findall re_wdata top_rtl in
  for_fold match_data
    (add_interface (name_to_addr_width top_rtl) (param_to_value top_rtl)) [].

(** ** The testbench *)

Section Testbench.

(** Modelled from the spec: the template helpers of [templates.py], which
    is not among the sources. The spec describes them as pure functions
    from their context to text; the stimulus block may fail on an
    argument absent from the configuration. *)
Variable get_begin : str.
Variable get_axi_ram_inst : AXI -> str.
Variable get_s_axi_control : str.
Variable get_dut : str -> list AXI -> str.
Variable get_test_signals : RegisterMap -> dict str -> list AXI -> result str.
Variable get_end : str.

Definition newline : str := [ascii_of_nat 10].

Definition get_cosim_tb (fs : filesystem) (top_name s_axi_control_path : str)
           (axi_list : list AXI) (scalar_to_val : dict str) : result str :=
  arg_to_reg_addrs <- parse_register_addr fs s_axi_control_path ;;
  let tb := [] in
  let tb := tb ++ get_begin ++ newline in
  let tb := fold_left (fun tb axi => tb ++ get_axi_ram_inst axi ++ newline)
                      axi_list tb in
  let tb := tb ++ get_s_axi_control ++ newline in
  let tb := tb ++ get_dut top_name axi_list ++ newline in
  signals <- get_test_signals arg_to_reg_addrs scalar_to_val axi_list ;;
  let tb := tb ++ signals in
  let tb := tb ++ get_end ++ newline in
  Ok tb.

End Testbench.

(** ** The script

    The block run when the file is the main program (lines 111-154),
    from line 122 on: the arguments are parsed and the configuration is
    loaded. What it does to the outside world is kept as a list of
    events. The extraction of the interfaces adds no event: this is so
    when the width texts lie in the arithmetic fragment of [eval]. *)

Inductive event : Type :=
| System (cmd : str)
| WriteFile (path content : str)
| Warning (msg : str).

(** The command-line arguments of lines 113-117. *)
Record Args : Type := mkArgs {
  config_path : str;
  tb_output_dir : str;
  launch_simulation : bool;
  print_debug_info : bool;
  save_waveform : bool
}.

(** Modelled from the spec: the configuration [preprocess_config]
    returns; [config_preprocess.py] is not among the sources. The spec
    gives it the top module name, the RTL directory, the values of the
    scalar arguments, and for each interface a data file and a size. *)
Record CosimConfig (Size : Type) : Type := mkConfig {
  cfg_top_name : str;
  cfg_verilog_path : str;
  cfg_scalar_to_val : dict str;
  cfg_axi_to_data_file : dict str;
  cfg_axi_to_c_array_size : dict Size
}.
Arguments cfg_top_name {Size} c.
Arguments cfg_verilog_path {Size} c.
Arguments cfg_scalar_to_val {Size} c.
Arguments cfg_axi_to_data_file {Size} c.
Arguments cfg_axi_to_c_array_size {Size} c.

(** Modelled from the spec: what the script calls and is not among the
    sources: the templates of [templates.py], [get_vivado_tcl] of
    [vivado.py], all taken as pure functions to text, and the operating
    system, which decides from what has happened so far whether a file
    opens for writing. *)
Record Collaborators (Size : Type) : Type := mkCollaborators {
  tpl_begin : str;
  tpl_axi_ram_inst : AXI -> str;
  tpl_s_axi_control : str;
  tpl_dut : str -> list AXI -> str;
  tpl_test_signals : RegisterMap -> dict str -> list AXI -> result str;
  tpl_end : str;
  tpl_axi_ram_module : AXI -> str -> Size -> str;
  vivado_tcl : CosimConfig Size -> str -> bool -> list str;
  opens : list event -> str -> bool
}.
Arguments tpl_begin {Size} c.
Arguments tpl_axi_ram_inst {Size} c.
Arguments tpl_s_axi_control {Size} c.
Arguments tpl_dut {Size} c.
Arguments tpl_test_signals {Size} c.
Arguments tpl_end {Size} c.
Arguments tpl_axi_ram_module {Size} c.
Arguments vivado_tcl {Size} c.
Arguments opens {Size} c.

(** A step of the script: from the events so far to the events after
    it, with a value or an exception. *)
Definition prog (A : Type) : Type := list event -> list event * result A.

Definition ret {A} (a : A) : prog A := fun tr => (tr, Ok a).

Definition lift {A} (r : result A) : prog A := fun tr => (tr, r).

Definition bind_prog {A B} (m : prog A) (f : A -> prog B) : prog B :=
  fun tr =>
    match m tr with
    | (tr', Ok a) => f a tr'
    | (tr', Raise e) => (tr', Raise e)
    end.

Notation "x <<- m ;; k" := (bind_prog m (fun x => k))
  (at level 61, m at next level, right associativity).
Notation "m >>> k" := (bind_prog m (fun _ => k))
  (at level 61, right associativity).

Definition emit (e : event) : prog unit := fun tr => (tr ++ [e], Ok tt).

(** [open(path, 'w').write(content)] *)
Definition write_file {Size} (w : Collaborators Size) (path content : str)
  : prog unit :=
  fun tr =>
    if opens w tr path then (tr ++ [WriteFile path content], Ok tt)
    else (tr, Raise (IOError path)).

Fixpoint for_each_prog {A} (xs : list A) (body : A -> prog unit) : prog unit :=
  match xs with
  | [] => ret tt
  | x :: xs' => body x >>> for_each_prog xs' body
  end.

(** [sep.join(parts)] *)
Fixpoint join (sep : str) (parts : list str) : str :=
  match parts with
  | [] => []
  | [x] => x
  | x :: parts' => x ++ sep ++ join sep parts'
  end.

(** The body of the loop of lines 134-138. *)
Definition write_ram_module {Size} (w : Collaborators Size) (args : Args)
           (config : CosimConfig Size) (axi : AXI) : prog unit :=
  source_data_path <<- lift (dict_lookup (name axi)
                                         (cfg_axi_to_data_file config)) ;;
  c_array_size <<- lift (dict_lookup (name axi)
                                     (cfg_axi_to_c_array_size config)) ;;
  let ram_module := tpl_axi_ram_module w axi source_data_path c_array_size in
  write_file w (tb_output_dir args ++ txt "/axi_ram_" ++ name axi ++ txt ".v")
             ram_module.

(** The warning of lines 142-145. *)
Definition waveform_warning (args : Args) : str :=
  if save_waveform args
  then txt "Waveform will be saved at " ++ tb_output_dir args
       ++ txt "/run/vivado/tapa-fast-cosim/tapa-fast-cosim.sim"
       ++ txt "/sim_1/behav/xsim/wave.wdb"
  else txt "Waveform is not saved. "
       ++ txt "Use --save_waveform to save the simulation waveform.".

(** The command of line 154. *)
Definition vivado_command (args : Args) : str :=
  let disable_debug :=
    if print_debug_info args then [] else txt " | grep -v DEBUG" in
  txt "cd " ++ tb_output_dir args
  ++ txt "/run/; vivado -mode batch -source run_cosim.tcl " ++ disable_debug.

Definition main {Size} (w : Collaborators Size) (args : Args)
           (config : CosimConfig Size) (fs : filesystem) : prog unit :=
  let top_name := cfg_top_name config in
  let verilog_path := cfg_verilog_path config in
  let top_path := verilog_path ++ txt "/" ++ top_name ++ txt ".v" in
  let ctrl_path :=
    verilog_path ++ txt "/" ++ top_name ++ txt "_control_s_axi.v" in
  axi_list <<- lift (parse_m_axi_interfaces fs top_path) ;;
  tb <<- lift (get_cosim_tb (tpl_begin w) (tpl_axi_ram_inst w)
                 (tpl_s_axi_control w) (tpl_dut w) (tpl_test_signals w)
                 (tpl_end w) fs top_name ctrl_path axi_list
                 (cfg_scalar_to_val config)) ;;
  emit (System (txt "mkdir -p " ++ tb_output_dir args)) >>>
  write_file w (tb_output_dir args ++ txt "/tb.v") tb >>>
  for_each_prog axi_list (write_ram_module w args config) >>>
  emit (System (txt "mkdir -p " ++ tb_output_dir args ++ txt "/run")) >>>
  emit (Warning (waveform_warning args)) >>>
  let vivado_script :=
    vivado_tcl w config (tb_output_dir args) (save_waveform args) in
  write_file w (tb_output_dir args ++ txt "/run/run_cosim.tcl")
             (join newline vivado_script) >>>
  if launch_simulation args
  then emit (System (vivado_command args))
  else ret tt.

(** * Vocabulary of the properties *)

Local Open Scope nat_scope.

(** ** The control file *)

(** Line [i] is the first line of [xs] in which [k] occurs. *)
Definition first_line_with (k : str) (xs : list str) (i : nat) : Prop :=
  (exists l, nth_error xs i = Some l /\ contains k l = true) /\
  (forall j l, j < i -> nth_error xs j = Some l -> contains k l = false).

(** Whether a line passes the assertion of line 27 for all four groups. *)
Definition line_keywords_ok (line : str) : bool :=
  forallb (keyword_group_ok line) keyword_groups.

(** The argument a data-signal line names. *)
Definition names_arg (arg line : str) : bool :=
  match re_search re_data_signal line with
  | Some (_, signal) => str_eqb signal arg
  | None => false
  end.

(** The address token a data-signal line adds to the map. *)
Definition address_token (line : str) : str :=
  match re_search re_data_signal line with
  | Some (addr, _) => replace (txt "0x") (txt "'h") addr
  | None => []
  end.

(** The lines that add an address to the list of [arg]. *)
Definition adds_to (arg line : str) : bool :=
  is_data_signal_line line && names_arg arg line.

(** Every line that passes the test of line 52 is matched by the pattern. *)
Definition data_lines_match (comments : list str) : bool :=
  forallb (fun line =>
             implb (is_data_signal_line line)
                   (match re_search re_data_signal line with
                    | Some _ => true
                    | None => false
                    end)) comments.

(** A list of a [defaultdict(list)] after more appends. *)
Definition extend (o : option (list str)) (l : list str)
  : option (list str) :=
  match o, l with
  | None, [] => None
  | None, _ :: _ => Some l
  | Some vs, _ => Some (vs ++ l)
  end.

Definition is_hex_digit (c : ascii) : bool :=
  isdigit c || in_range 97 102 c || in_range 65 70 c.

(** [b] does not go on with a character of the class [p]. *)
Definition stops (p : ascii -> bool) (b : str) : bool :=
  match b with
  | [] => true
  | c :: _ => negb (p c)
  end.

(** A comment line of the upstream form
    [<pre>0x<digits> : Data signal of <arg><rest>], given by what
    precedes the address, the digits of the address and what follows the
    argument name. *)
Record upstream_line : Type := mkLine {
  line_pre : str;
  line_digits : str;
  line_rest : str
}.

Definition line_of (arg : str) (l : upstream_line) : str :=
  line_pre l ++ txt "0x" ++ line_digits l
  ++ txt " : Data signal of " ++ arg ++ line_rest l.

(** No digit zero before the address, at least one hexadecimal digit in
    it, and no word character right after the argument name. *)
Definition well_formed (l : upstream_line) : bool :=
  forallb (fun c => negb (Ascii.eqb "0" c)) (line_pre l)
  && negb (length (line_digits l) =? 0)
  && forallb is_hex_digit (line_digits l)
  && stops isword (line_rest l).

(** The address of such a line in hardware-literal form. *)
Definition literal_of (l : upstream_line) : str :=
  txt "'h" ++ line_digits l.

(** [key] stands somewhere in [l] with no word character right after
    it. *)
Fixpoint occurs_as_word (key l : str) : bool :=
  (startswith key l && stops isword (skipn (length key) l))
  || match l with
     | [] => false
     | _ :: l' => occurs_as_word key l'
     end.

(** The line says [ : Data signal of <arg>], where the name [arg] does
    not go on. *)
Definition mentions (arg line : str) : bool :=
  occurs_as_word (txt " : Data signal of " ++ arg) line.

(** After its leading white space the line starts with [//]. *)
Definition starts_comment (line : str) : bool :=
  startswith (txt "//") (lstrip line).

(** The lines of a file that count for [arg]: the comment lines that
    mention it and hold a blank followed by [0x]. *)
Definition counts_for (arg line : str) : bool :=
  starts_comment line && mentions arg line && contains (txt " 0x") line.

(** ** The top-level file *)

(** The loop of lines 80-82 on one width text. *)
Definition substitute (param_to_value : dict str) (width : str) : str :=
  fold_left (fun w nv => replace (fst nv) (snd nv) w) param_to_value width.

(** A decimal literal of at most 64 digits. *)
Definition is_decimal_literal (d : str) : bool :=
  forallb isdigit d && decimal_ok d && (length d <=? 64).

(** The interface of a data bus with the bound [fst wn] and the name
    [snd wn], when both bounds are decimal literals. *)
Definition literal_interface (name_to_addr_width : dict str)
           (wn : str * str) : AXI :=
  mkAXI (snd wn) (decimal_value (fst wn) + 1)
        (match dict_get (snd wn) name_to_addr_width with
         | Some a => decimal_value a + 1
         | None => 0
         end)%Z.

(** The interfaces of a text all of whose bounds are decimal literals. *)
Definition literal_interfaces (top_rtl : str) : list AXI :=
  map (literal_interface (name_to_addr_width top_rtl))
      (findall re_wdata top_rtl).

(** The interface of the data-bus match [m] can be built: its name has an
    address bus, and both width texts, after the substitution of lines
    80-82, are integer arithmetic. *)
Definition builds (top_rtl : str) (m : str * str) : Prop :=
  exists a d v,
    dict_get (snd m) (name_to_addr_width top_rtl) = Some a /\
    py_eval (substitute (param_to_value top_rtl) (fst m)) = Ok d /\
    py_eval (substitute (param_to_value top_rtl) a) = Ok v.

(** ** The script *)

(** The paths the script reads. *)
Definition top_path_of {Size} (config : CosimConfig Size) : str :=
  cfg_verilog_path config ++ txt "/" ++ cfg_top_name config ++ txt ".v".

Definition ctrl_path_of {Size} (config : CosimConfig Size) : str :=
  cfg_verilog_path config ++ txt "/" ++ cfg_top_name config
  ++ txt "_control_s_axi.v".

(** The testbench the script asks for. *)
Definition testbench_of {Size} (w : Collaborators Size)
           (config : CosimConfig Size) (fs : filesystem)
           (axi_list : list AXI) : result str :=
  get_cosim_tb (tpl_begin w) (tpl_axi_ram_inst w) (tpl_s_axi_control w)
    (tpl_dut w) (tpl_test_signals w) (tpl_end w) fs (cfg_top_name config)
    (ctrl_path_of config) axi_list (cfg_scalar_to_val config).

(** The write of the memory model of an interface, when the
    configuration has a data file and a size for it. *)
Definition ram_write {Size} (w : Collaborators Size) (args : Args)
           (config : CosimConfig Size) (axi : AXI) : option event :=
  match dict_get (name axi) (cfg_axi_to_data_file config),
        dict_get (name axi) (cfg_axi_to_c_array_size config) with
  | Some source_data_path, Some c_array_size =>
      Some (WriteFile
              (tb_output_dir args ++ txt "/axi_ram_" ++ name axi ++ txt ".v")
              (tpl_axi_ram_module w axi source_data_path c_array_size))
  | _, _ => None
  end.

Definition ram_writes {Size} (w : Collaborators Size) (args : Args)
           (config : CosimConfig Size) (axi_list : list AXI) : list event :=
  flat_map (fun axi => match ram_write w args config axi with
                       | Some e => [e]
                       | None => []
                       end) axi_list.

(** The events of the script up to the testbench file. *)
Definition testbench_events (args : Args) (tb : str) : list event :=
  [ System (txt "mkdir -p " ++ tb_output_dir args);
    WriteFile (tb_output_dir args ++ txt "/tb.v") tb ].

(** The events of the script after the memory models. *)
Definition run_events {Size} (w : Collaborators Size) (args : Args)
           (config : CosimConfig Size) : list event :=
  [ System (txt "mkdir -p " ++ tb_output_dir args ++ txt "/run");
    Warning (waveform_warning args);
    WriteFile (tb_output_dir args ++ txt "/run/run_cosim.tcl")
              (join newline (vivado_tcl w config (tb_output_dir args)
                                        (save_waveform args))) ]
  ++ (if launch_simulation args then [System (vivado_command args)] else []).

(** ** Matching *)

(** [r] matches [a] in front of [b] on its first attempt: whatever the
    rest of the pattern accepts after [a], the search settles there,
    with the groups [g'] when it started with [g]. *)
Definition first_match (r : regex) (a b : str) (g g' : groups) : Prop :=
  forall (R : Type) (k : str -> groups -> option R) (res : R),
    k b g' = Some res -> rmatch r (a ++ b) g k = Some res.

(** What a pattern matches: [matches r a g g'] when [r] can match the
    text [a], turning the groups [g] into [g']. *)
Inductive matches : regex -> str -> groups -> groups -> Prop :=
| M_Eps (g : groups) : matches Eps [] g g
| M_Chr (c : ascii) (g : groups) : matches (Chr c) [c] g g
| M_Cls (p : ascii -> bool) (c : ascii) (g : groups) :
    p c = true -> matches (Cls p) [c] g g
| M_Star (p : ascii -> bool) (a : str) (g : groups) :
    forallb p a = true -> matches (Star p) a g g
| M_Cat (r1 r2 : regex) (a1 a2 : str) (g g1 g2 : groups) :
    matches r1 a1 g g1 -> matches r2 a2 g1 g2 ->
    matches (Cat r1 r2) (a1 ++ a2) g g2
| M_Group (i : nat) (r : regex) (a : str) (g g1 : groups) :
    matches r a g g1 -> matches (Group i r) a g (set_group i a g1).

(** [r] is found in [t] with the groups [g1] and [g2]: some part of [t]
    is matched by [r], which captures [g1] and [g2]. *)
Definition found (r : regex) (t g1 g2 : str) : Prop :=
  exists pre a post g',
    t = pre ++ a ++ post /\ matches r a no_groups g' /\
    g1 = g' 1 /\ g2 = g' 2.

(** A text of one or more characters of the class [p]. *)
Definition run_of (p : ascii -> bool) (a : str) : Prop :=
  a <> [] /\ forallb p a = true.

(** ** Results *)

(** The elements of a list, each at its first occurrence. *)
Fixpoint first_occurrences (seen xs : list str) : list str :=
  match xs with
  | [] => []
  | x :: xs' =>
      if existsb (str_eqb x) seen then first_occurrences seen xs'
      else x :: first_occurrences (x :: seen) xs'
  end.

(** The argument names of the data-signal lines, in the order of the
    lines. *)
Definition signals_of (comments : list str) : list str :=
  flat_map (fun line =>
              if is_data_signal_line line
              then match re_search re_data_signal line with
                   | Some (_, signal) => [signal]
                   | None => []
                   end
              else []) comments.

(** The address tokens of the data-signal lines that name [arg], in the
    order of the lines. *)
Definition addresses_of (arg : str) (comments : list str) : list str :=
  map address_token (filter (adds_to arg) comments).

(** The text of a file whose lines are [ls], each ended by a newline. *)
Definition text_of_lines (ls : list str) : str :=
  flat_map (fun l => l ++ newline) ls.

(** The test of line 47 on a line of such a file. *)
Definition is_comment (l : str) : bool :=
  startswith (txt "//") (strip (l ++ newline)).

(** A line holds no newline. *)
Definition one_line (l : str) : bool :=
  forallb (fun c => negb (code c =? 10)) l.

(** The exceptions [parse_register_addr] can end in. *)
Definition register_addr_error (path : str) (e : exn) : Prop :=
  e = IOError path \/ (exists msg, e = AssertionError msg) \/
  e = IndexError \/ e = AttributeError.

(** ** Bus declarations, one to a line *)

Inductive bus : Type :=
| ARADDR
| WDATA.

Definition bus_suffix (b : bus) : string :=
  match b with
  | ARADDR => "_ARADDR"
  | WDATA => "_WDATA"
  end.

Definition bus_eqb (b b' : bus) : bool :=
  match b, b' with
  | ARADDR, ARADDR | WDATA, WDATA => true
  | _, _ => false
  end.

(** The declaration [output [<bound>:0] m_axi_<name><suffix>;]. *)
Definition declaration (b : bus) (bound name : str) : str :=
  txt "output [" ++ bound ++ txt ":0] m_axi_" ++ name
  ++ txt (bus_suffix b) ++ txt ";".

(** A line of a top-level file: the declaration of a bus, alone on its
    line, or some other line. *)
Inductive rtl_line : Type :=
| Decl (b : bus) (bound name : str)
| Other (l : str).

Definition render (x : rtl_line) : str :=
  match x with
  | Decl b bound name => declaration b bound name
  | Other l => l
  end.

(** The text of a file with these lines, each ended by a newline. *)
Definition rtl_text (ls : list rtl_line) : str :=
  flat_map (fun x => render x ++ newline) ls.

(** The bound of a declaration is a decimal literal and its name a
    word; another line holds no newline, and neither [output] nor
    [parameter]. *)
Definition rtl_line_ok (x : rtl_line) : bool :=
  match x with
  | Decl _ bound name =>
      is_decimal_literal bound && negb (length name =? 0)
      && forallb isword name
  | Other l =>
      one_line l && negb (contains (txt "output") l)
      && negb (contains (txt "parameter") l)
  end.

(** The declarations of the bus [b], each with its bound and its name,
    in the order of the lines. *)
Definition declared (b : bus) (ls : list rtl_line) : list (str * str) :=
  flat_map (fun x => match x with
                     | Decl b' bound name =>
                         if bus_eqb b b' then [(bound, name)] else []
                     | Other _ => []
                     end) ls.

(** The bound of the last declaration of the name [n]. *)
Fixpoint last_bound (n : str) (decls : list (str * str)) : option str :=
  match decls with
  | [] => None
  | (bound, n') :: decls' =>
      match last_bound n decls' with
      | Some later => Some later
      | None => if str_eqb n n' then Some bound else None
      end
  end.


(** * Fixtures *)

(** The file system that holds one file. *)
Definition one_file (path content : str) : filesystem :=
  fun p => if str_eqb p path then Some content else None.

(** A text file given by its lines. *)
Definition file_of_lines (ls : list string) : str :=
  flat_map (fun l => txt l ++ newline) ls.

(** ** Control files *)

(** The head of the comment block of a control file as the upstream
    generator writes it. *)
Definition ctrl_header : list string :=
  [ "// 0x00 : Control signals";
    "//        bit 0  - ap_start (Read/Write/COH)";
    "//        bit 1  - ap_done (Read/COR)";
    "//        bit 2  - ap_idle (Read)";
    "//        bit 3  - ap_ready (Read)";
    "//        bit 7  - auto_restart (Read/Write)";
    "//        others - reserved";
    "// 0x04 : Global Interrupt Enable Register";
    "//        bit 0  - Global Interrupt Enable (Read/Write)";
    "// 0x08 : IP Interrupt Enable Register (Read/Write)";
    "// 0x0c : IP Interrupt Status Register (Read/TOW)" ]%string.

(** A control file for two arguments: [a] in two registers, [n] in one. *)
Definition ctrl_ok : str :=
  file_of_lines
    (ctrl_header ++
     [ "// 0x10 : Data signal of a";
       "//        bit 31~0 - a[31:0] (Read/Write)";
       "// 0x14 : Data signal of a";
       "//        bit 31~0 - a[63:32] (Read/Write)";
       "// 0x1c : Data signal of n";
       "//        bit 31~0 - n[31:0] (Read/Write)";
       "module top_control_s_axi ();";
       "endmodule" ]%string).

(** A header with [ap_start] moved to bit 5. *)
Definition ctrl_moved_bit : str :=
  file_of_lines
    [ "// 0x00 : Control signals";
      "//        bit 5  - ap_start (Read/Write/COH)";
      "//        bit 1  - ap_done (Read/COR)";
      "// 0x04 : Global Interrupt Enable Register";
      "// 0x10 : Data signal of a" ]%string.

(** A header in which [ap_done] is annotated with bit 10, and the line
    that says so. *)
Definition line_bit_10 : str :=
  txt "//        bit 10 - ap_done (Read/COR)" ++ newline.

Definition ctrl_bit_10 : str :=
  file_of_lines
    [ "// 0x00 : Control signals";
      "//        bit 0  - ap_start (Read/Write/COH)";
      "//        bit 10 - ap_done (Read/COR)";
      "//        bit 2  - ap_idle (Read)";
      "//        bit 3  - ap_ready (Read)";
      "//        bit 7  - auto_restart (Read/Write)";
      "//        others - reserved";
      "// 0x04 : Global Interrupt Enable Register";
      "//        bit 0  - Global Interrupt Enable (Read/Write)";
      "// 0x08 : IP Interrupt Enable Register (Read/Write)";
      "// 0x0c : IP Interrupt Status Register (Read/TOW)";
      "// 0x10 : Data signal of a" ]%string.

(** A comment block with a failing line after a passing one and before
    another failing one, and no [0x00] line. *)
Definition ctrl_two_failing : str :=
  file_of_lines
    [ "// 0x10 : Data signal of a";
      "// 0x08 : Data signal of b";
      "// 0x0c : Data signal of c" ]%string.

(** A comment block with no control-register line. *)
Definition ctrl_no_header : str :=
  file_of_lines [ "// 0x10 : Data signal of a" ]%string.

(** A comment block with no control-register line, and a line where
    [0x08] comes without its phrase. *)
Definition line_0x08 : str := txt "// 0x08 : Data signal of a" ++ newline.

Definition ctrl_0x08_no_header : str :=
  file_of_lines [ "// 0x08 : Data signal of a" ]%string.

(** A line that has an address and the words [Data signal] but not the
    shape of the pattern. *)
Definition odd_line : str := txt "// 0x10 Data signal of a" ++ newline.

(** That line alone, and after a full header. *)
Definition ctrl_odd_line_no_header : str :=
  file_of_lines [ "// 0x10 Data signal of a" ]%string.

Definition ctrl_odd_line : str :=
  file_of_lines (ctrl_header ++ [ "// 0x10 Data signal of a" ]%string).

(** A data-signal line at address [0x040], and a control file with it. *)
Definition line_0x040 : str := txt "// 0x040 : Data signal of b" ++ newline.

Definition ctrl_0x040 : str :=
  file_of_lines (ctrl_header ++ [ "// 0x040 : Data signal of b" ]%string).

(** Two lines for [a], the first with its address right after the
    comment mark. *)
Definition line_no_blank : str := txt "//0x10 : Data signal of a" ++ newline.

Definition ctrl_no_blank : str :=
  file_of_lines
    (ctrl_header ++
     [ "//0x10 : Data signal of a";
       "// 0x14 : Data signal of a" ]%string).

(** Lines for [a] among which one is code with a comment at its end, one
    has its address right after the comment mark, and one names [ab]. *)
Definition ctrl_mixed : str :=
  file_of_lines
    (ctrl_header ++
     [ "// 0x10 : Data signal of a";
       "assign x = 1; // 0x18 : Data signal of a";
       "//0x1c : Data signal of a";
       "// 0x20 : Data signal of ab";
       "   // 0x14 : Data signal of a" ]%string).

(** A comment block in which the [0x04] line comes before the [0x00]
    line, and [ap_start] is at bit 5. *)
Definition ctrl_reversed : str :=
  file_of_lines
    [ "// 0x04 : Global Interrupt Enable Register";
      "// 0x00 : Control signals";
      "//        bit 5  - ap_start (Read/Write/COH)";
      "// 0x10 : Data signal of a" ]%string.

(** ** Top-level files *)


Definition top_araddr_only : str :=
  file_of_lines [ "output [31:0] m_axi_foo_ARADDR;" ]%string.

(** A complete interface [bar], then a data bus [foo] with no address
    bus, and an address bus [baz] with no data bus. *)
Definition top_bar_foo_baz : str :=
  file_of_lines
    [ "output [63:0] m_axi_bar_ARADDR;";
      "output [31:0] m_axi_bar_WDATA;";
      "output [63:0] m_axi_foo_WDATA;";
      "output [31:0] m_axi_baz_ARADDR;" ]%string.

(** A complete interface [bar] and an address bus [baz] with no data
    bus. *)
Definition top_bar_baz : str :=
  file_of_lines
    [ "output [31:0] m_axi_baz_ARADDR;";
      "output [63:0] m_axi_bar_ARADDR;";
      "output [31:0] m_axi_bar_WDATA;" ]%string.

Definition top_w_bar : str :=
  file_of_lines
    [ "parameter W = 31;";
      "output [63:0] m_axi_bar_ARADDR;";
      "output [W:0] m_axi_bar_WDATA;" ]%string.

(** A parameter whose name contains the name of an earlier one. *)
Definition top_w_ww : str :=
  file_of_lines
    [ "parameter W = 3;";
      "parameter WW = 31;";
      "output [63:0] m_axi_bar_ARADDR;";
      "output [WW:0] m_axi_bar_WDATA;" ]%string.

(** The same declarations, the longer name first. *)
Definition top_ww_w : str :=
  file_of_lines
    [ "parameter WW = 31;";
      "parameter W = 3;";
      "output [63:0] m_axi_bar_ARADDR;";
      "output [WW:0] m_axi_bar_WDATA;" ]%string.

Definition top_w_twice : str :=
  file_of_lines
    [ "parameter W = 15;";
      "parameter W = 31;";
      "output [31:0] m_axi_bar_ARADDR;";
      "output [W:0] m_axi_bar_WDATA;" ]%string.

(** Two interfaces, the address bus of the first declared twice, and a
    parameter that occurs in no bound. *)
Definition top_two : str :=
  file_of_lines
    [ "parameter ap_ST_fsm_state1 = 2'd1;";
      "output [63:0] m_axi_a_ARADDR;";
      "output [31:0] m_axi_a_ARADDR;";
      "output [511:0] m_axi_a_WDATA;";
      "output [63:0] m_axi_b_ARADDR;";
      "output [255:0] m_axi_b_WDATA;" ]%string.

Definition fs_top_two : filesystem := one_file (txt "top.v") top_two.

(** ** Top-level files given by their lines *)


(** Two interfaces: the address bus of [a] is declared twice, that of
    [b] after its data bus. *)
Definition lines_two : list rtl_line :=
  [ Decl ARADDR (txt "63") (txt "a");
    Decl ARADDR (txt "31") (txt "a");
    Decl WDATA (txt "511") (txt "a");
    Other [];
    Decl WDATA (txt "255") (txt "b");
    Decl ARADDR (txt "63") (txt "b") ].

(** The file [top_bar_foo_baz], line by line. *)
Definition lines_bar_foo_baz : list rtl_line :=
  [ Decl ARADDR (txt "63") (txt "bar");
    Decl WDATA (txt "31") (txt "bar");
    Decl WDATA (txt "63") (txt "foo");
    Decl ARADDR (txt "31") (txt "baz") ].


(** ** The assembler *)

(** Stand-ins for the templates. *)
Definition demo_ram (axi : AXI) : str := txt "ram " ++ name axi.

Definition demo_dut (top_name : str) (axi_list : list AXI) : str :=
  txt "dut " ++ top_name.

Definition demo_signals (m : RegisterMap) (scalar_to_val : dict str)
           (axi_list : list AXI) : result str :=
  Ok (flat_map (fun kv => fst kv ++ flat_map (fun a => txt " " ++ a) (snd kv)
                          ++ newline) m).

(** Two file systems that agree on the control file. *)
Definition fs_ctrl_only : filesystem := one_file (txt "ctrl.v") ctrl_ok.

Definition fs_ctrl_and_more : filesystem :=
  fun p => if str_eqb p (txt "ctrl.v") then Some ctrl_ok else Some [].

(** ** The script *)

(** A project directory with a top-level file and its control file. *)
Definition fs_project : filesystem :=
  fun p =>
    if str_eqb p (txt "rtl/top.v") then Some top_two
    else if str_eqb p (txt "rtl/top_control_s_axi.v") then Some ctrl_ok
    else None.

Definition demo_world : Collaborators nat :=
  mkCollaborators nat (txt "begin") demo_ram (txt "control") demo_dut
    demo_signals (txt "end")
    (fun axi source_data_path size => txt "ram " ++ name axi ++ txt " "
                                      ++ source_data_path)
    (fun config dir save => [txt "open"; txt "run"])
    (fun tr path => true).

Definition demo_args : Args :=
  mkArgs (txt "cfg.json") (txt "out") false false false.

Definition demo_config : CosimConfig nat :=
  mkConfig nat (txt "top") (txt "rtl") [(txt "n", txt "7")]
           [(txt "a", txt "a.bin"); (txt "b", txt "b.bin")]
           [(txt "a", 16); (txt "b", 32)].

(** The same configuration without a data file for [b]. *)
Definition demo_config_no_b : CosimConfig nat :=
  mkConfig nat (txt "top") (txt "rtl") [(txt "n", txt "7")]
           [(txt "a", txt "a.bin")]
           [(txt "a", 16); (txt "b", 32)].

(** * Properties *)

Local Open Scope Z_scope.

(** ** The runtime model on small inputs *)

Example py_eval_examples :
  py_eval (txt "31") = Ok 31 /\
  py_eval (txt "64 - 1") = Ok 63 /\
  py_eval (txt "2*(3+4) - -1") = Ok 15 /\
  py_eval (txt "031") = Raise (OutsideArithmetic (txt "031")) /\
  py_eval (txt "W") = Raise (OutsideArithmetic (txt "W")).
Proof. repeat (split; [vm_compute; reflexivity|]). vm_compute. reflexivity. Qed.

Example replace_examples :
  replace (txt "0x") (txt "'h") (txt "0x1c") = txt "'h1c" /\
  replace (txt "aa") (txt "b") (txt "aaaaa") = txt "bba" /\
  replace (txt "W") (txt "31") (txt "W-1+W") = txt "31-1+31".
Proof. repeat (split; [vm_compute; reflexivity|]). vm_compute. reflexivity. Qed.

Example strip_and_readlines :
  strip (txt "   // 0x10 ") = txt "// 0x10" /\
  readlines (txt "a" ++ newline ++ txt "b") = [txt "a" ++ newline; txt "b"].
Proof. split; vm_compute; reflexivity. Qed.

(** The bound of a bus is the widest text the pattern can take up to a
    [:0]] on the same line, and the name of the bus is to be followed by
    [;] or [,]. *)
Example re_wdata_examples :
  findall re_wdata (txt "output  [ 63 : 0 ]  m_axi_gmem_0_WDATA ;")
  = [(txt " 63 ", txt "gmem_0")] /\
  findall re_wdata
    (txt "output [31:0] m_axi_foo_ARADDR, output [63:0] m_axi_foo_WDATA;")
  = [(txt "31:0] m_axi_foo_ARADDR, output [63", txt "foo")] /\
  findall re_wdata (txt "output [63:0] m_axi_foo_WDATA)") = [].
Proof. repeat (split; [vm_compute; reflexivity|]). vm_compute. reflexivity. Qed.

Example re_parameter_examples :
  findall re_parameter (txt "parameter    C_M_AXI_DATA_WIDTH = 32;")
  = [(txt "C_M_AXI_DATA_WIDTH", txt "32")] /\
  findall re_parameter (txt "parameter W=32;") = [].
Proof. split; vm_compute; reflexivity. Qed.

(** ** Text *)

Lemma str_eqb_eq (a b : str) : str_eqb a b = true <-> a = b.
Proof.
  unfold str_eqb. destruct (list_eq_dec ascii_dec a b); split; congruence.
Qed.

Lemma str_eqb_refl (a : str) : str_eqb a a = true.
Proof. now apply str_eqb_eq. Qed.

Lemma str_eqb_neq (a b : str) : str_eqb a b = false <-> a <> b.
Proof.
  unfold str_eqb. destruct (list_eq_dec ascii_dec a b); split; congruence.
Qed.

Lemma startswith_app (p t : str) : startswith p (p ++ t) = true.
Proof.
  induction p as [|c p IH]; simpl; [reflexivity|].
  now rewrite Ascii.eqb_refl, IH.
Qed.

Lemma contains_here (sub t : str) :
  startswith sub t = true -> contains sub t = true.
Proof. intros H. destruct t; simpl in *; now rewrite H. Qed.

Lemma contains_app (pre sub post : str) :
  contains sub (pre ++ sub ++ post) = true.
Proof.
  induction pre as [|c pre IH]; simpl.
  - apply contains_here, startswith_app.
  - rewrite IH. apply orb_true_r.
Qed.

Lemma contains_false_inv (sub : str) (c : ascii) (t : str) :
  contains sub (c :: t) = false ->
  startswith sub (c :: t) = false /\ contains sub t = false.
Proof. simpl contains. intros H. now apply orb_false_elim in H. Qed.

(** A text in which [old] does not occur is left as it is. *)
Lemma replace_absent (old new t : str) :
  contains old t = false -> replace old new t = t.
Proof.
  destruct old as [|o old].
  - destruct t; discriminate.
  - unfold replace. induction t as [|c t IH]; intros H; [reflexivity|].
    apply contains_false_inv in H. destruct H as [H1 H2].
    cbn [replace_from]. rewrite H1. f_equal. now apply IH.
Qed.

(** ** Dictionaries *)

Section Dict.
Context {V : Type}.

Lemma dict_get_set_same (k : str) (v : V) (d : dict V) :
  dict_get k (dict_set k v d) = Some v.
Proof.
  induction d as [|[k' v'] d IH]; simpl.
  - now rewrite str_eqb_refl.
  - destruct (str_eqb k k') eqn:E; simpl; rewrite E; auto.
Qed.

Lemma dict_get_set_other (k k0 : str) (v : V) (d : dict V) :
  k <> k0 -> dict_get k (dict_set k0 v d) = dict_get k d.
Proof.
  intros N. induction d as [|[k' v'] d IH]; simpl.
  - apply str_eqb_neq in N. now rewrite N.
  - destruct (str_eqb k0 k') eqn:E; simpl.
    + apply str_eqb_eq in E. subst k'.
      apply str_eqb_neq in N. now rewrite N.
    + now rewrite IH.
Qed.

(** Building a dictionary from pairs: a key bound by a later pair keeps
    that binding. *)
Lemma dict_fold_get_last (k : str) (v : V) (before after : list (str * V))
      (d : dict V) :
  ~ In k (map fst after) ->
  dict_get k (fold_left (fun d kv => dict_set (fst kv) (snd kv) d)
                        (before ++ (k, v) :: after) d) = Some v.
Proof.
  intros N. rewrite fold_left_app. cbn [fold_left fst snd].
  generalize (fold_left (fun d kv => dict_set (fst kv) (snd kv) d) before d).
  intros d0.
  assert (G : dict_get k (dict_set k v d0) = Some v)
    by apply dict_get_set_same.
  revert G. generalize (dict_set k v d0). clear d0.
  induction after as [|[k' v'] after IH]; intros d0 G; [exact G|].
  cbn [fold_left fst snd]. apply IH.
  - intros I. apply N. now right.
  - rewrite dict_get_set_other; [exact G|].
    intros E. apply N. left. now rewrite E.
Qed.

Lemma dict_fold_get_absent (k : str) (pairs : list (str * V)) (d : dict V) :
  ~ In k (map fst pairs) ->
  dict_get k (fold_left (fun d kv => dict_set (fst kv) (snd kv) d) pairs d)
  = dict_get k d.
Proof.
  revert d. induction pairs as [|[k' v'] pairs IH]; intros d N; [reflexivity|].
  cbn [fold_left fst snd]. rewrite IH.
  - apply dict_get_set_other. intros E. apply N. left. now rewrite E.
  - intros I. apply N. now right.
Qed.

Lemma dict_of_last (k : str) (v : V) (before after : list (str * V)) :
  ~ In k (map fst after) ->
  dict_get k (dict_of (before ++ (k, v) :: after)) = Some v.
Proof. apply dict_fold_get_last. Qed.

Lemma dict_of_absent (k : str) (pairs : list (str * V)) :
  ~ In k (map fst pairs) -> dict_get k (dict_of pairs) = None.
Proof. intros N. unfold dict_of. now rewrite dict_fold_get_absent. Qed.

Lemma dict_of_present (k : str) (pairs : list (str * V)) :
  In k (map fst pairs) -> exists v, dict_get k (dict_of pairs) = Some v.
Proof.
  intros I.
  assert (S : exists before v after,
             pairs = before ++ (k, v) :: after /\ ~ In k (map fst after)).
  { induction pairs as [|[k' v'] pairs IH]; [contradiction|].
    destruct (in_dec (list_eq_dec ascii_dec) k (map fst pairs)) as [I'|N'].
    - destruct (IH I') as (b & v & a & E & N).
      exists ((k', v') :: b), v, a. split; [now rewrite E | exact N].
    - destruct I as [E|I]; [|contradiction]. simpl in E. subst k'.
      exists [], v', pairs. split; [reflexivity | exact N']. }
  destruct S as (b & v & a & E & N). exists v. rewrite E.
  now apply dict_of_last.
Qed.

End Dict.

(** ** Loops *)

Lemma for_each_assert_raise {A} (xs : list A) (ok : A -> bool)
      (msg : A -> option str) (x : A) :
  In x xs -> ok x = false ->
  exists y, In y xs /\ ok y = false /\
            for_each xs (fun a => assert (ok a) (msg a))
            = Raise (AssertionError (msg y)).
Proof.
  induction xs as [|a xs IH]; intros I F; [contradiction|].
  cbn [for_each]. destruct (ok a) eqn:E.
  - destruct I as [->|I]; [congruence|].
    destruct (IH I F) as (y & Iy & Fy & R).
    exists y. split; [|split]; [now right | exact Fy | exact R].
  - exists a. split; [|split]; [now left | exact E | reflexivity].
Qed.

Lemma for_each_assert_ok {A} (xs : list A) (ok : A -> bool)
      (msg : A -> option str) :
  for_each xs (fun a => assert (ok a) (msg a)) = Ok tt <->
  forallb ok xs = true.
Proof.
  induction xs as [|a xs IH]; cbn [for_each forallb]; [tauto|].
  unfold assert at 1. destruct (ok a); cbn [bind andb]; [exact IH|].
  split; discriminate.
Qed.

(** ** The parameter table *)



(** ** Pairing of address and data buses *)

Lemma py_eval_raise (t : str) (e : exn) :
  py_eval t = Raise e -> e = OutsideArithmetic t.
Proof.
  unfold py_eval. destruct (64 <? length t)%nat; [congruence|].
  destruct (tokenize t []) as [ts|]; [|congruence].
  destruct (parse_sum _ ts) as [[v [|? ?]]|]; congruence.
Qed.

Lemma add_interface_ok (n2a p2v : dict str) (m : str * str)
      (axi_list l : list AXI) :
  add_interface n2a p2v m axi_list = Ok l ->
  exists a addr d, dict_get (snd m) n2a = Some addr /\
    py_eval (fst (substitute_both p2v (fst m, addr))) = Ok d /\
    py_eval (snd (substitute_both p2v (fst m, addr))) = Ok a /\
    l = axi_list ++ [mkAXI (snd m) (d + 1) (a + 1)].
Proof.
  unfold add_interface, dict_lookup.
  destruct (dict_get (snd m) n2a) as [addr|]; cbn [bind]; [|discriminate].
  destruct (py_eval (fst _)) as [d|] eqn:Ed; cbn [bind]; [|discriminate].
  destruct (py_eval (snd _)) as [a|] eqn:Ea; cbn [bind]; [|discriminate].
  intros H. injection H as <-. now exists a, addr, d.
Qed.

Lemma add_interface_raise (n2a p2v : dict str) (m : str * str)
      (axi_list : list AXI) (e : exn) :
  add_interface n2a p2v m axi_list = Raise e ->
  (e = KeyError (snd m) /\ dict_get (snd m) n2a = None) \/
  (exists t, e = OutsideArithmetic t).
Proof.
  unfold add_interface, dict_lookup.
  destruct (dict_get (snd m) n2a) as [addr|]; cbn [bind].
  - destruct (py_eval (fst _)) as [d|] eqn:Ed; cbn [bind].
    + destruct (py_eval (snd _)) as [a|] eqn:Ea; cbn [bind]; [discriminate|].
      intros H. injection H as <-. right. eexists.
      exact (py_eval_raise _ _ Ea).
    + intros H. injection H as <-. right. eexists.
      exact (py_eval_raise _ _ Ed).
  - intros H. injection H as <-. now left.
Qed.

Lemma add_interface_missing (n2a p2v : dict str) (m : str * str)
      (axi_list : list AXI) :
  dict_get (snd m) n2a = None ->
  add_interface n2a p2v m axi_list = Raise (KeyError (snd m)).
Proof. intros H. unfold add_interface, dict_lookup. now rewrite H. Qed.

(** The interfaces returned are those of the data-bus matches, in their
    order. *)
Lemma interfaces_names (n2a p2v : dict str) (data : list (str * str))
      (acc l : list AXI) :
  for_fold data (add_interface n2a p2v) acc = Ok l ->
  map name l = map name acc ++ map snd data.
Proof.
  revert acc. induction data as [|m data IH]; intros acc H.
  - cbn in H. injection H as <-. now rewrite app_nil_r.
  - cbn [for_fold] in H.
    destruct (add_interface n2a p2v m acc) as [acc'|e] eqn:E;
      cbn [bind] in H; [|discriminate].
    apply IH in H. rewrite H.
    apply add_interface_ok in E. destruct E as (a & addr & d & _ & _ & _ & ->).
    rewrite map_app, <- app_assoc. reflexivity.
Qed.

(** A data bus whose name has no address bus stops the loop. *)
Lemma interfaces_missing (n2a p2v : dict str) (data : list (str * str))
      (acc : list AXI) (m : str * str) :
  In m data -> dict_get (snd m) n2a = None ->
  (exists n, In n (map snd data) /\ dict_get n n2a = None /\
             for_fold data (add_interface n2a p2v) acc = Raise (KeyError n)) \/
  (exists t, for_fold data (add_interface n2a p2v) acc
             = Raise (OutsideArithmetic t)).
Proof.
  revert acc. induction data as [|m0 data IH]; intros acc I G; [contradiction|].
  cbn [for_fold].
  destruct (add_interface n2a p2v m0 acc) as [acc'|e] eqn:E; cbn [bind].
  - destruct I as [->|I].
    + rewrite add_interface_missing in E by exact G. discriminate.
    + destruct (IH acc' I G) as [(n & In_n & Gn & R)|[t R]].
      * left. exists n. split; [|split]; [now right | exact Gn | exact R].
      * right. now exists t.
  - apply add_interface_raise in E. destruct E as [[-> G0]|[t ->]].
    + left. exists (snd m0).
      split; [|split]; [now left | exact G0 | reflexivity].
    + right. now exists t.
Qed.

Lemma name_to_addr_width_none (top_rtl n : str) :
  dict_get n (name_to_addr_width top_rtl) = None <->
  ~ In n (map snd (findall re_araddr top_rtl)).
Proof.
  unfold name_to_addr_width.
  assert (M : map fst (map (fun m : str * str => (snd m, fst m))
                           (findall re_araddr top_rtl))
              = map snd (findall re_araddr top_rtl)).
  { rewrite map_map. reflexivity. }
  split.
  - intros G I. rewrite <- M in I. apply dict_of_present in I.
    destruct I as [v I]. congruence.
  - intros N. apply dict_of_absent. now rewrite M.
Qed.

Lemma add_interface_builds (n2a p2v : dict str) (m : str * str)
      (axi_list : list AXI) (a : str) (d v : Z) :
  dict_get (snd m) n2a = Some a ->
  py_eval (substitute p2v (fst m)) = Ok d ->
  py_eval (substitute p2v a) = Ok v ->
  add_interface n2a p2v m axi_list
  = Ok (axi_list ++ [mkAXI (snd m) (d + 1) (v + 1)]).
Proof.
  intros G Ed Ev. unfold add_interface, dict_lookup. rewrite G. cbn [bind].
  assert (S : forall w a',
             substitute_both p2v (w, a') = (substitute p2v w, substitute p2v a')).
  { clear. induction p2v as [|nv p2v IH]; intros w a'; [reflexivity|].
    unfold substitute_both, substitute in *. cbn [fold_left fst snd].
    apply IH. }
  rewrite S. cbn [fst snd]. now rewrite Ed, Ev.
Qed.

(** While every data bus can be built, the loop goes on, with one
    interface for each. *)
Lemma interfaces_built (n2a p2v : dict str) (data : list (str * str))
      (acc : list AXI) :
  (forall m, In m data ->
     exists a d v, dict_get (snd m) n2a = Some a /\
                   py_eval (substitute p2v (fst m)) = Ok d /\
                   py_eval (substitute p2v a) = Ok v) ->
  exists l, for_fold data (add_interface n2a p2v) acc = Ok (acc ++ l) /\
            map name l = map snd data.
Proof.
  revert acc. induction data as [|m data IH]; intros acc H.
  - exists []. cbn. now rewrite app_nil_r.
  - destruct (H m (or_introl eq_refl)) as (a & d & v & G & Ed & Ev).
    cbn [for_fold]. rewrite (add_interface_builds _ _ _ _ a d v G Ed Ev).
    cbn [bind].
    destruct (IH (acc ++ [mkAXI (snd m) (d + 1) (v + 1)])) as (l & R & N).
    { intros m' I. apply H. now right. }
    exists (mkAXI (snd m) (d + 1) (v + 1) :: l). split.
    + rewrite R, <- app_assoc. reflexivity.
    + cbn [map name]. now rewrite N.
Qed.

(** The first data bus without an address bus stops the loop, with the
    lookup failure for its name. *)
Lemma interfaces_first_missing (n2a p2v : dict str)
      (before after : list (str * str)) (m : str * str) (acc : list AXI) :
  (forall m', In m' before ->
     exists a d v, dict_get (snd m') n2a = Some a /\
                   py_eval (substitute p2v (fst m')) = Ok d /\
                   py_eval (substitute p2v a) = Ok v) ->
  dict_get (snd m) n2a = None ->
  for_fold (before ++ m :: after) (add_interface n2a p2v) acc
  = Raise (KeyError (snd m)).
Proof.
  revert acc. induction before as [|m0 before IH]; intros acc H G.
  - cbn [app for_fold]. now rewrite add_interface_missing.
  - destruct (H m0 (or_introl eq_refl)) as (a & d & v & G0 & Ed & Ev).
    cbn [app for_fold]. rewrite (add_interface_builds _ _ _ _ a d v G0 Ed Ev).
    cbn [bind]. apply IH; [|exact G]. intros m' I. apply H. now right.
Qed.

(** C1, refuted as stated: an ARADDR declaration with no WDATA
    declaration raises nothing; the extraction returns, with no
    interface. *)
Lemma araddr_without_wdata_returns :
  In (txt "foo") (map snd (findall re_araddr top_araddr_only)) /\
  ~ In (txt "foo") (map snd (findall re_wdata top_araddr_only)) /\
  parse_m_axi_interfaces (one_file (txt "top.v") top_araddr_only) (txt "top.v")
  = Ok [].
Proof.
  split; [vm_compute; tauto|]. split; [vm_compute; tauto|].
  vm_compute. reflexivity.
Qed.

(** ** The format check of the control file *)

Local Open Scope nat_scope.

Lemma indices_from_first (k : str) (xs : list str) (a i : nat) :
  first_line_with k xs i ->
  first_item (map fst (filter (fun ie => contains k (snd ie))
                              (combine (seq a (length xs)) xs)))
  = Ok (a + i).
Proof.
  revert a i. induction xs as [|x xs IH]; intros a i [(l & E & C) M].
  - destruct i; discriminate.
  - cbn [length seq combine filter snd]. destruct i as [|i].
    + cbn in E. injection E as ->. rewrite C. cbn. now rewrite Nat.add_0_r.
    + rewrite (M 0 x) by (cbn; auto; lia).
      rewrite (IH (S a) i).
      * f_equal. lia.
      * split; [now exists l|].
        intros j l' Lt N. apply (M (S j) l'); [lia | exact N].
Qed.

Lemma first_item_indices (k : str) (xs : list str) (i : nat) :
  first_line_with k xs i -> first_item (indices_with k xs) = Ok i.
Proof.
  intros H. unfold indices_with, enumerate.
  now rewrite (indices_from_first k xs 0 i).
Qed.

Lemma indices_from_none (k : str) (xs : list str) (a : nat) :
  (forall l, In l xs -> contains k l = false) ->
  filter (fun ie : nat * str => contains k (snd ie))
         (combine (seq a (length xs)) xs) = [].
Proof.
  revert a. induction xs as [|x xs IH]; intros a H; [reflexivity|].
  cbn [length seq combine filter snd]. rewrite (H x) by now left.
  apply IH. intros l I. apply H. now right.
Qed.

Lemma first_item_no_index (k : str) (xs : list str) :
  (forall l, In l xs -> contains k l = false) ->
  first_item (indices_with k xs) = Raise IndexError.
Proof.
  intros H. unfold indices_with, enumerate. now rewrite indices_from_none.
Qed.

Lemma first_item_result (k : str) (xs : list str) :
  first_item (indices_with k xs) = Raise IndexError \/
  exists i, first_item (indices_with k xs) = Ok i.
Proof.
  destruct (indices_with k xs) as [|i ?]; [now left | right; now exists i].
Qed.

Lemma slice_In {A} (xs : list A) (b e i : nat) (x : A) :
  nth_error xs i = Some x -> b <= i < e -> In x (slice xs b e).
Proof.
  intros N [Hb He]. unfold slice. apply (nth_error_In _ (i - b)).
  rewrite nth_error_firstn.
  destruct (Nat.ltb_spec (i - b) (e - b)) as [_|G]; [|lia].
  rewrite nth_error_skipn. now replace (b + (i - b)) with i by lia.
Qed.

Lemma forallb_false_ex {A} (f : A -> bool) (xs : list A) :
  forallb f xs = false -> exists x, In x xs /\ f x = false.
Proof.
  induction xs as [|c cs IH]; [discriminate|].
  cbn [forallb]. destruct (f c) eqn:Ec; cbn [andb]; intros E.
  - destruct (IH E) as (x & I & F). exists x. split; [now right | exact F].
  - exists c. split; [now left | exact Ec].
Qed.

Lemma for_each_ext {A} (xs : list A) (f g : A -> result unit) :
  (forall x, f x = g x) -> for_each xs f = for_each xs g.
Proof.
  intros E. induction xs as [|x xs IH]; [reflexivity|].
  cbn [for_each]. now rewrite E, IH.
Qed.

Lemma for_each_assert_all {A} (xs : list A) (ok : A -> bool)
      (msg : option str) :
  for_each xs (fun a => assert (ok a) msg) = assert (forallb ok xs) msg.
Proof.
  induction xs as [|a xs IH]; [reflexivity|].
  cbn [for_each forallb]. destruct (ok a); [exact IH | reflexivity].
Qed.

(** The first loop of the check, line by line. *)
Lemma keyword_loop (comments : list str) :
  for_each comments (fun line =>
    for_each keyword_groups (fun kw_group =>
      assert (keyword_group_ok line kw_group) (Some line)))
  = for_each comments (fun line => assert (line_keywords_ok line) (Some line)).
Proof. apply for_each_ext. intros line. apply for_each_assert_all. Qed.

Lemma keyword_loop_result (comments : list str) :
  (forallb line_keywords_ok comments = true /\
   for_each comments (fun line => assert (line_keywords_ok line) (Some line))
   = Ok tt) \/
  (exists line, In line comments /\ line_keywords_ok line = false /\
   for_each comments (fun line => assert (line_keywords_ok line) (Some line))
   = Raise (AssertionError (Some line))).
Proof.
  destruct (forallb line_keywords_ok comments) eqn:E.
  - left. split; [reflexivity|]. now apply for_each_assert_ok.
  - right.
    destruct (forallb_false_ex _ _ E) as (x & I & F).
    exact (for_each_assert_raise comments line_keywords_ok
             (fun line => Some line) x I F).
Qed.

(** The check, with its first loop summarised. *)
Lemma check_unfold (comments : list str) :
  _check_s_axi_control_format comments =
  (for_each comments
     (fun line => assert (line_keywords_ok line) (Some line)) ;;;
   ap_signal_beg <- first_item (indices_with (txt "0x00") comments) ;;
   ap_signal_end <- first_item (indices_with (txt "0x04") comments) ;;
   for_each (slice comments ap_signal_beg ap_signal_end)
     (fun line => assert (fixed_addresses_ok line) None)).
Proof. unfold _check_s_axi_control_format. now rewrite keyword_loop. Qed.

Lemma check_ok_keywords (comments : list str) :
  _check_s_axi_control_format comments = Ok tt ->
  forallb line_keywords_ok comments = true.
Proof.
  rewrite check_unfold.
  destruct (keyword_loop_result comments) as [[E _]|(line & _ & _ & R)];
    [trivial|].
  rewrite R. discriminate.
Qed.

Lemma fixed_addresses_violated (line reg bit : str) :
  In (reg, bit) fixed_addresses ->
  contains reg line = true -> contains bit line = false ->
  fixed_addresses_ok line = false.
Proof.
  intros I R B. unfold fixed_addresses_ok.
  destruct (forallb _ _) eqn:E; [|reflexivity].
  rewrite forallb_forall in E.
  specialize (E (reg, bit)). cbn [snd] in E. rewrite B in E.
  symmetry. apply E. apply filter_In. split; [exact I | exact R].
Qed.

(** A file whose check fails does not reach the extraction loop. *)
Lemma parse_register_addr_check_raise (fs : filesystem) (path text : str)
      (e : exn) :
  fs path = Some text ->
  _check_s_axi_control_format (comment_lines (readlines text)) = Raise e ->
  parse_register_addr fs path = Raise e.
Proof.
  intros F C. unfold parse_register_addr, read_file. rewrite F. cbn [bind].
  now rewrite C.
Qed.

Lemma parse_register_addr_check_ok (fs : filesystem) (path text : str) :
  fs path = Some text ->
  _check_s_axi_control_format (comment_lines (readlines text)) = Ok tt ->
  parse_register_addr fs path
  = for_fold (comment_lines (readlines text)) record_line [].
Proof.
  intros F C. unfold parse_register_addr, read_file. rewrite F. cbn [bind].
  now rewrite C.
Qed.

(** A line of the control-register range, from the first line with
    [0x00] up to the first line with [0x04], that names one of the five
    fixed signals and in which the text of its bit ([bit 0], [bit 1],
    [bit 2], [bit 3], [bit 7]) does not occur makes the extraction fail
    with an assertion error. *)
Lemma bit_text_absent_fails (fs : filesystem) (path text : str)
      (beg fin i : nat) (line reg bit : str) :
  fs path = Some text ->
  first_line_with (txt "0x00") (comment_lines (readlines text)) beg ->
  first_line_with (txt "0x04") (comment_lines (readlines text)) fin ->
  beg <= i < fin ->
  nth_error (comment_lines (readlines text)) i = Some line ->
  In (reg, bit) fixed_addresses ->
  contains reg line = true ->
  contains bit line = false ->
  exists msg, parse_register_addr fs path = Raise (AssertionError msg).
Proof.
  intros F B E R N I Creg Cbit.
  set (comments := comment_lines (readlines text)) in *.
  assert (G : exists msg,
             _check_s_axi_control_format comments = Raise (AssertionError msg)).
  { rewrite check_unfold.
    destruct (keyword_loop_result comments) as [[_ K]|(l & _ & _ & K)];
      rewrite K; cbn [bind]; [|now eexists].
    rewrite (first_item_indices _ _ _ B), (first_item_indices _ _ _ E).
    cbn [bind].
    destruct (for_each_assert_raise (slice comments beg fin)
                fixed_addresses_ok (fun _ => None) line) as (y & _ & _ & Y).
    - now apply (slice_In comments beg fin i).
    - now apply (fixed_addresses_violated line reg bit).
    - rewrite Y. now eexists. }
  destruct G as [msg G]. exists msg.
  now apply (parse_register_addr_check_raise fs path text _ F).
Qed.

(** C2, the code at a failing input: in [ctrl_bit_10] the line of
    [ap_done], line 2 of the control-register range that goes from
    line 0 up to line 7, gives bit 10 where bit 1 is expected. The
    assertion of line 39 asks that the text [bit 1] occurs in the line;
    it does, inside [bit 10], so the check passes and the extraction
    returns a register map. A header with [ap_start] at bit 5 is
    refused, as the claim has it. *)
Theorem bit_10_passes_for_bit_1 :
  first_item (indices_with (txt "0x00") (comment_lines (readlines ctrl_bit_10)))
  = Ok 0 /\
  first_item (indices_with (txt "0x04") (comment_lines (readlines ctrl_bit_10)))
  = Ok 7 /\
  nth_error (comment_lines (readlines ctrl_bit_10)) 2 = Some line_bit_10 /\
  contains (txt "- ap_done") line_bit_10 = true /\
  contains (txt "bit 1") line_bit_10 = true /\
  fixed_addresses_ok line_bit_10 = true /\
  parse_register_addr (one_file (txt "ctrl.v") ctrl_bit_10) (txt "ctrl.v")
  = Ok [(txt "a", [txt "'h10"])] /\
  parse_register_addr (one_file (txt "ctrl.v") ctrl_moved_bit) (txt "ctrl.v")
  = Raise (AssertionError None).
Proof. repeat (split; [vm_compute; reflexivity|]). vm_compute. reflexivity. Qed.

(** The first element that fails a test. *)
Lemma forallb_first_false {A} (f : A -> bool) (xs : list A) :
  forallb f xs = false ->
  exists before x after,
    xs = before ++ x :: after /\ forallb f before = true /\ f x = false.
Proof.
  induction xs as [|c cs IH]; [discriminate|].
  cbn [forallb]. destruct (f c) eqn:Ec; cbn [andb]; intros E.
  - destruct (IH E) as (before & x & after & -> & B & F).
    exists (c :: before), x, after. cbn [forallb app]. now rewrite Ec, B.
  - now exists [], c, cs.
Qed.

(** A loop of assertions stops at the first element that fails. *)
Lemma for_each_assert_first {A} (before after : list A) (x : A)
      (ok : A -> bool) (msg : A -> option str) :
  forallb ok before = true -> ok x = false ->
  for_each (before ++ x :: after) (fun a => assert (ok a) (msg a))
  = Raise (AssertionError (msg x)).
Proof.
  induction before as [|b before IH]; intros B F.
  - cbn [app for_each]. unfold assert. now rewrite F.
  - cbn [forallb] in B. apply andb_prop in B. destruct B as [Hb B].
    cbn [app for_each]. unfold assert at 1. rewrite Hb. cbn [bind].
    now apply IH.
Qed.

(** C7, as the code has it: when no retained comment line contains
    [0x00], or none contains [0x04], the extraction of the register map
    returns no map: it fails with the index lookup failure [IndexError]
    when every line passes the keyword assertion, and otherwise with the
    assertion error of the first retained line that does not pass it. *)
Theorem missing_anchor_line_fails (fs : filesystem) (path text : str) :
  fs path = Some text ->
  (forall l, In l (comment_lines (readlines text)) ->
             contains (txt "0x00") l = false) \/
  (forall l, In l (comment_lines (readlines text)) ->
             contains (txt "0x04") l = false) ->
  (forallb line_keywords_ok (comment_lines (readlines text)) = true /\
   parse_register_addr fs path = Raise IndexError) \/
  (exists before line after,
      comment_lines (readlines text) = before ++ line :: after /\
      forallb line_keywords_ok before = true /\
      line_keywords_ok line = false /\
      parse_register_addr fs path = Raise (AssertionError (Some line))).
Proof.
  intros F H. set (comments := comment_lines (readlines text)) in *.
  destruct (forallb line_keywords_ok comments) eqn:A.
  - left. split; [reflexivity|].
    apply (parse_register_addr_check_raise fs path text _ F).
    fold comments. rewrite check_unfold.
    rewrite (proj2 (for_each_assert_ok comments line_keywords_ok
                      (fun line => Some line)) A).
    cbn [bind]. destruct H as [H|H].
    + now rewrite (first_item_no_index _ _ H).
    + rewrite (first_item_no_index _ _ H).
      destruct (first_item_result (txt "0x00") comments) as [->|[b ->]];
        reflexivity.
  - right. destruct (forallb_first_false _ _ A) as (before & l & after & E & B & L).
    exists before, l, after. split; [exact E|]. split; [exact B|].
    split; [exact L|].
    apply (parse_register_addr_check_raise fs path text _ F).
    fold comments. rewrite check_unfold, E.
    now rewrite (for_each_assert_first before after l line_keywords_ok
                   (fun line => Some line) B L).
Qed.

Lemma missing_anchor_line_fails_witness :
  exists before line after,
    comment_lines (readlines ctrl_two_failing) = before ++ line :: after /\
    forallb line_keywords_ok before = true /\
    line_keywords_ok line = false /\
    parse_register_addr (one_file (txt "ctrl.v") ctrl_two_failing)
                        (txt "ctrl.v")
    = Raise (AssertionError (Some line)).
Proof.
  destruct (missing_anchor_line_fails
              (one_file (txt "ctrl.v") ctrl_two_failing) (txt "ctrl.v")
              ctrl_two_failing eq_refl) as [[A _]|R].
  - left. intros l I. vm_compute in I.
    destruct I as [<-|[<-|[<-|[]]]]; vm_compute; reflexivity.
  - vm_compute in A. discriminate A.
  - exact R.
Defined.

(** C7, refuted as stated: with no [0x00] line the failure need not be
    the index lookup failure; a line that fails the keyword assertion
    is reported first. *)
Lemma missing_anchor_line_assertion_first :
  (forall l, In l (comment_lines (readlines ctrl_0x08_no_header)) ->
             contains (txt "0x00") l = false) /\
  parse_register_addr (one_file (txt "ctrl.v") ctrl_0x08_no_header)
                      (txt "ctrl.v")
  = Raise (AssertionError (Some line_0x08)) /\
  parse_register_addr (one_file (txt "ctrl.v") ctrl_0x08_no_header)
                      (txt "ctrl.v")
  <> Raise IndexError.
Proof.
  split; [|split].
  - intros l I. vm_compute in I. destruct I as [<-|[]]. vm_compute.
    reflexivity.
  - vm_compute. reflexivity.
  - vm_compute. discriminate.
Qed.

(** ** The extraction loop *)

Lemma record_line_raise (line : str) (m : RegisterMap) (e : exn) :
  record_line line m = Raise e -> e = AttributeError.
Proof.
  unfold record_line. destruct (is_data_signal_line line); [|discriminate].
  destruct (re_search re_data_signal line) as [[addr signal]|]; congruence.
Qed.

Lemma record_line_unmatched (line : str) (m : RegisterMap) :
  is_data_signal_line line = true ->
  re_search re_data_signal line = None ->
  record_line line m = Raise AttributeError.
Proof. intros D N. unfold record_line. now rewrite D, N. Qed.

Lemma record_loop_unmatched (comments : list str) (line : str)
      (m : RegisterMap) :
  In line comments ->
  is_data_signal_line line = true ->
  re_search re_data_signal line = None ->
  for_fold comments record_line m = Raise AttributeError.
Proof.
  revert m. induction comments as [|c cs IH]; intros m I D N; [contradiction|].
  cbn [for_fold]. destruct (record_line c m) as [m'|e] eqn:E; cbn [bind].
  - destruct I as [->|I].
    + rewrite record_line_unmatched in E by assumption. discriminate.
    + now apply IH.
  - apply record_line_raise in E. now subst e.
Qed.

(** C9, as the code has it: in a control file whose comment lines pass
    the format check, a comment line that contains [ 0x] and
    [Data signal] and that the pattern does not match makes the
    extraction abort with [AttributeError]; the line is not skipped. *)
Theorem unmatched_data_signal_line_aborts (fs : filesystem)
        (path text line : str) :
  fs path = Some text ->
  _check_s_axi_control_format (comment_lines (readlines text)) = Ok tt ->
  In line (comment_lines (readlines text)) ->
  is_data_signal_line line = true ->
  re_search re_data_signal line = None ->
  parse_register_addr fs path = Raise AttributeError.
Proof.
  intros F C I D N.
  rewrite (parse_register_addr_check_ok fs path text F C).
  now apply (record_loop_unmatched _ line).
Qed.

Lemma unmatched_data_signal_line_aborts_witness :
  parse_register_addr (one_file (txt "ctrl.v") ctrl_odd_line) (txt "ctrl.v")
  = Raise AttributeError.
Proof.
  apply (unmatched_data_signal_line_aborts
           (one_file (txt "ctrl.v") ctrl_odd_line) (txt "ctrl.v")
           ctrl_odd_line odd_line).
  - reflexivity.
  - vm_compute. reflexivity.
  - vm_compute. tauto.
  - vm_compute. reflexivity.
  - vm_compute. reflexivity.
Defined.

(** C9, refuted as stated: such a line in a file with no control-register
    line does not reach the pattern match; the format check fails first,
    with [IndexError]. *)
Lemma unmatched_line_without_header :
  In odd_line (comment_lines (readlines ctrl_odd_line_no_header)) /\
  contains (txt " 0x") odd_line = true /\
  contains (txt "Data signal") odd_line = true /\
  re_search re_data_signal odd_line = None /\
  parse_register_addr (one_file (txt "ctrl.v") ctrl_odd_line_no_header)
                      (txt "ctrl.v")
  = Raise IndexError /\
  parse_register_addr (one_file (txt "ctrl.v") ctrl_odd_line_no_header)
                      (txt "ctrl.v")
  <> Raise AttributeError.
Proof.
  split; [vm_compute; tauto|].
  repeat (split; [vm_compute; reflexivity|]). vm_compute. discriminate.
Qed.

(** ** The keyword assertion on every line *)

Lemma keyword_group_pair (line tok phrase : str) :
  keyword_group_ok line [tok; phrase] = true <->
  contains tok line = contains phrase line.
Proof.
  unfold keyword_group_ok. cbn [existsb forallb].
  destruct (contains tok line), (contains phrase line); cbn; split;
    congruence.
Qed.

Lemma line_keywords_pair (line tok phrase : str) :
  In [tok; phrase] keyword_groups ->
  line_keywords_ok line = true ->
  contains tok line = contains phrase line.
Proof.
  intros I L. apply keyword_group_pair.
  unfold line_keywords_ok in L. rewrite forallb_forall in L. now apply L.
Qed.

Lemma line_keywords_violated (line tok phrase : str) :
  In [tok; phrase] keyword_groups ->
  contains tok line <> contains phrase line ->
  line_keywords_ok line = false.
Proof.
  intros I N. destruct (line_keywords_ok line) eqn:L; [|reflexivity].
  exfalso. apply N. now apply line_keywords_pair.
Qed.

(** C10: the keyword assertion is made on every retained comment line:
    when the extraction returns, each line contains the address token of
    a keyword group exactly when it contains the paired phrase, and a
    line on which the two differ makes the extraction fail with the
    assertion error of such a line. So a data-signal line that the
    pattern matches, at address [0x040], fails the extraction, because
    [0x04] occurs in its address. *)
Theorem keyword_assertion_on_every_line :
  (forall fs path text m line tok phrase,
      fs path = Some text ->
      parse_register_addr fs path = Ok m ->
      In line (comment_lines (readlines text)) ->
      In [tok; phrase] keyword_groups ->
      contains tok line = contains phrase line) /\
  (forall fs path text line tok phrase,
      fs path = Some text ->
      In line (comment_lines (readlines text)) ->
      In [tok; phrase] keyword_groups ->
      contains tok line <> contains phrase line ->
      exists l, In l (comment_lines (readlines text)) /\
                line_keywords_ok l = false /\
                parse_register_addr fs path
                = Raise (AssertionError (Some l))) /\
  (In line_0x040 (comment_lines (readlines ctrl_0x040)) /\
   is_data_signal_line line_0x040 = true /\
   re_search re_data_signal line_0x040 = Some (txt "0x040", txt "b") /\
   parse_register_addr (one_file (txt "ctrl.v") ctrl_0x040) (txt "ctrl.v")
   = Raise (AssertionError (Some line_0x040))).
Proof.
  split; [|split].
  - intros fs path text m line tok phrase F R I G.
    apply line_keywords_pair; [exact G|].
    assert (C : _check_s_axi_control_format (comment_lines (readlines text))
                = Ok tt).
    { unfold parse_register_addr, read_file in R. rewrite F in R.
      cbn [bind] in R.
      destruct (_check_s_axi_control_format _) as [[]|e];
        [reflexivity | discriminate]. }
    apply check_ok_keywords in C. rewrite forallb_forall in C. now apply C.
  - intros fs path text line tok phrase F I G N.
    set (comments := comment_lines (readlines text)) in *.
    destruct (keyword_loop_result comments) as [[A _]|(l & Il & L & K)].
    + rewrite forallb_forall in A. specialize (A line I).
      rewrite (line_keywords_violated line tok phrase G N) in A.
      discriminate.
    + exists l. split; [exact Il|]. split; [exact L|].
      apply (parse_register_addr_check_raise fs path text _ F).
      fold comments. now rewrite check_unfold, K.
  - split; [vm_compute; tauto|].
    repeat (split; [vm_compute; reflexivity|]). vm_compute. reflexivity.
Qed.

Lemma keyword_assertion_on_every_line_witness :
  (exists m, parse_register_addr (one_file (txt "ctrl.v") ctrl_ok)
                                 (txt "ctrl.v") = Ok m) /\
  contains (txt "0x04") (txt "// 0x10 : Data signal of a" ++ newline)
  = contains (txt "Global Interrupt Enable Register")
             (txt "// 0x10 : Data signal of a" ++ newline).
Proof.
  split; [eexists; vm_compute; reflexivity|].
  destruct keyword_assertion_on_every_line as [A _].
  apply (A (one_file (txt "ctrl.v") ctrl_ok) (txt "ctrl.v") ctrl_ok
           [(txt "a", [txt "'h10"; txt "'h14"]); (txt "n", [txt "'h1c"])]).
  - reflexivity.
  - vm_compute. reflexivity.
  - vm_compute. tauto.
  - vm_compute. tauto.
Defined.

(** ** Widths *)

Local Open Scope Z_scope.

Lemma substitute_both_split (p2v : dict str) (d a : str) :
  substitute_both p2v (d, a) = (substitute p2v d, substitute p2v a).
Proof.
  revert d a. induction p2v as [|nv p2v IH]; intros d a; [reflexivity|].
  unfold substitute_both, substitute in *. cbn [fold_left fst snd].
  apply IH.
Qed.

Lemma substitute_absent (p2v : dict str) (w : str) :
  (forall p v, In (p, v) p2v -> contains p w = false) ->
  substitute p2v w = w.
Proof.
  induction p2v as [|[p v] p2v IH]; intros H; [reflexivity|].
  unfold substitute in *. cbn [fold_left fst snd].
  rewrite replace_absent by (apply (H p v); now left).
  apply IH. intros p' v' I. apply (H p' v'). now right.
Qed.

Lemma tokenize_digits (d num : str) :
  forallb isdigit d = true ->
  tokenize d num = flush (rev d ++ num) (Some []).
Proof.
  revert num. induction d as [|c d IH]; intros num H; [reflexivity|].
  cbn [forallb] in H. apply andb_prop in H. destruct H as [Hc Hd].
  cbn [tokenize]. rewrite Hc, (IH _ Hd). cbn [rev].
  now rewrite <- app_assoc.
Qed.

(** [eval] of a decimal literal is its value. *)
Lemma py_eval_decimal (d : str) :
  is_decimal_literal d = true -> py_eval d = Ok (decimal_value d).
Proof.
  unfold is_decimal_literal. intros H.
  apply andb_prop in H. destruct H as [H L].
  apply andb_prop in H. destruct H as [D K].
  unfold py_eval.
  replace (64 <? length d)%nat with false
    by (symmetry; apply Nat.ltb_ge; now apply Nat.leb_le).
  rewrite (tokenize_digits d [] D), app_nil_r.
  unfold flush. destruct (rev d) as [|c r] eqn:E.
  - apply (f_equal (@rev ascii)) in E. rewrite rev_involutive in E.
    subst d. discriminate.
  - rewrite <- E, rev_involutive, K. reflexivity.
Qed.

(** ** Parameters in width expressions *)

(** C5, the code at a failing input: in [top_w_ww] the name [WW],
    declared with the value 31, is the width expression of the data
    bus. The loop of lines 80-82 replaces the text [W] by 3 wherever it
    stands, also inside [WW], before it comes to [WW]: the expression
    becomes [33] and the data width 34, where the declared value gives
    32. With the two declarations in the other order the data width is
    32, as it is for the single parameter [W = 31] of the claim. *)
Theorem name_inside_name_not_substituted :
  findall re_parameter top_w_ww
  = [(txt "W", txt "3"); (txt "WW", txt "31")] /\
  findall re_wdata top_w_ww = [(txt "WW", txt "bar")] /\
  dict_get (txt "WW") (param_to_value top_w_ww) = Some (txt "31") /\
  substitute (param_to_value top_w_ww) (txt "WW") = txt "33" /\
  parse_m_axi_interfaces (one_file (txt "top.v") top_w_ww) (txt "top.v")
  = Ok [mkAXI (txt "bar") 34 64] /\
  parse_m_axi_interfaces (one_file (txt "top.v") top_ww_w) (txt "top.v")
  = Ok [mkAXI (txt "bar") 32 64] /\
  parse_m_axi_interfaces (one_file (txt "top.v") top_w_bar) (txt "top.v")
  = Ok [mkAXI (txt "bar") 32 64].
Proof. repeat (split; [vm_compute; reflexivity|]). vm_compute. reflexivity. Qed.

(** ** Matching *)

Local Open Scope nat_scope.

Lemma star_greedy {R} (p : ascii -> bool) (a b : str)
      (k : str -> option R) (res : R) :
  forallb p a = true -> stops p b = true -> k b = Some res ->
  star p (a ++ b) k = Some res.
Proof.
  intros A B K. induction a as [|c a IH].
  - destruct b as [|c b]; [exact K|].
    cbn in *. apply negb_true_iff in B. now rewrite B.
  - cbn [forallb] in A. apply andb_prop in A. destruct A as [Hc Ha].
    cbn [app star]. now rewrite Hc, (IH Ha).
Qed.

Lemma fm_Eps (b : str) (g : groups) : first_match Eps [] b g g.
Proof. intros R k res K. exact K. Qed.

Lemma fm_Cls (p : ascii -> bool) (c : ascii) (b : str) (g : groups) :
  p c = true -> first_match (Cls p) [c] b g g.
Proof. intros P R k res K. cbn. now rewrite P. Qed.

Lemma fm_Star (p : ascii -> bool) (a b : str) (g : groups) :
  forallb p a = true -> stops p b = true -> first_match (Star p) a b g g.
Proof. intros A B R k res K. cbn [rmatch]. now apply star_greedy. Qed.

Lemma fm_Cat (r1 r2 : regex) (a1 a2 b : str) (g g1 g2 : groups) :
  first_match r1 a1 (a2 ++ b) g g1 -> first_match r2 a2 b g1 g2 ->
  first_match (Cat r1 r2) (a1 ++ a2) b g g2.
Proof.
  intros H1 H2 R k res K. rewrite <- app_assoc. cbn [rmatch].
  apply H1. now apply H2.
Qed.

Lemma firstn_matched {A} (a b : list A) :
  firstn (length (a ++ b) - length b) (a ++ b) = a.
Proof.
  rewrite length_app, Nat.add_sub, firstn_app, firstn_all, Nat.sub_diag.
  cbn. apply app_nil_r.
Qed.

Lemma fm_Group (i : nat) (r : regex) (a b : str) (g g1 : groups) :
  first_match r a b g g1 ->
  first_match (Group i r) a b g (set_group i a g1).
Proof.
  intros H R k res K. cbn [rmatch]. apply H. now rewrite firstn_matched.
Qed.

Lemma fm_chars (l b : str) (g : groups) :
  first_match (fold_right (fun c r => Cat (Chr c) r) Eps l) l b g g.
Proof.
  induction l as [|c l IH]; intros R k res K; [exact K|].
  cbn [fold_right rmatch app]. rewrite Ascii.eqb_refl. now apply IH.
Qed.

Lemma fm_Str (lit : string) (b : str) (g : groups) :
  first_match (Str lit) (txt lit) b g g.
Proof. apply fm_chars. Qed.

Lemma fm_Plus (p : ascii -> bool) (a b : str) (g : groups) :
  a <> [] -> forallb p a = true -> stops p b = true ->
  first_match (Plus p) a b g g.
Proof.
  intros N A B. destruct a as [|c a]; [congruence|].
  cbn [forallb] in A. apply andb_prop in A. destruct A as [Hc Ha].
  change (c :: a) with ([c] ++ a). apply (fm_Cat _ _ _ _ _ _ g).
  - now apply fm_Cls.
  - now apply fm_Star.
Qed.

Lemma match_here_first (r : regex) (a b : str) (g' : groups) :
  first_match r a b no_groups g' ->
  match_here r (a ++ b) = Some (g' 1, g' 2, length (a ++ b) - length b).
Proof. intros H. unfold match_here. now apply H. Qed.

Lemma re_search_here (r : regex) (t g1 g2 : str) (n : nat) :
  match_here r t = Some (g1, g2, n) -> re_search r t = Some (g1, g2).
Proof. intros H. destruct t; cbn [re_search]; now rewrite H. Qed.

(** ** Data-signal lines *)

Lemma hex_digit_word (c : ascii) : is_hex_digit c = true -> isword c = true.
Proof.
  destruct c as [[] [] [] [] [] [] [] []]; vm_compute; intros H;
    first [reflexivity | discriminate H].
Qed.

Lemma hex_digit_not_x (c : ascii) :
  is_hex_digit c = true -> Ascii.eqb "x" c = false.
Proof.
  intros H. destruct (Ascii.eqb_spec "x" c) as [<-|]; [|reflexivity].
  discriminate H.
Qed.

Lemma hex_digits_word (h : str) :
  forallb is_hex_digit h = true -> forallb isword h = true.
Proof.
  intros H. rewrite forallb_forall in *. intros c I.
  now apply hex_digit_word, H.
Qed.

Lemma hex_digits_without_0x (h : str) :
  forallb is_hex_digit h = true -> contains (txt "0x") h = false.
Proof.
  induction h as [|c h IH]; intros H; [reflexivity|].
  cbn [forallb] in H. apply andb_prop in H. destruct H as [Hc Hh].
  cbn [contains]. rewrite (IH Hh), orb_false_r.
  change (startswith (txt "0x") (c :: h))
    with (Ascii.eqb "0" c && startswith (txt "x") h).
  destruct h as [|c' h]; [apply andb_false_r|].
  cbn [forallb] in Hh. apply andb_prop in Hh. destruct Hh as [Hc' _].
  change (startswith (txt "x") (c' :: h)) with (Ascii.eqb "x" c' && true).
  rewrite (hex_digit_not_x c' Hc'). apply andb_false_r.
Qed.

(** The rewriting of line 56 turns the prefix of a hexadecimal address
    into the hardware-literal prefix. *)
Lemma rewrite_address (h : str) :
  forallb is_hex_digit h = true ->
  replace (txt "0x") (txt "'h") (txt "0x" ++ h) = txt "'h" ++ h.
Proof.
  intros H.
  change (replace (txt "0x") (txt "'h") (txt "0x" ++ h))
    with (txt "'h" ++ replace_from (txt "0x") (txt "'h") h 0).
  f_equal. apply (replace_absent (txt "0x") (txt "'h") h).
  now apply hex_digits_without_0x.
Qed.

Lemma match_here_not_zero (c : ascii) (t : str) :
  Ascii.eqb "0" c = false -> match_here re_data_signal (c :: t) = None.
Proof.
  intros H. unfold match_here, re_data_signal.
  cbn [Seq fold_right rmatch Str txt list_ascii_of_string].
  now rewrite H.
Qed.

Lemma re_search_skip (pre t : str) :
  forallb (fun c => negb (Ascii.eqb "0" c)) pre = true ->
  re_search re_data_signal (pre ++ t) = re_search re_data_signal t.
Proof.
  induction pre as [|c pre IH]; intros H; [reflexivity|].
  cbn [forallb] in H. apply andb_prop in H. destruct H as [Hc Hp].
  apply negb_true_iff in Hc.
  cbn [app re_search]. rewrite (match_here_not_zero c _ Hc). now apply IH.
Qed.

(** What the pattern of line 53 finds in a line of the upstream form. *)
Lemma re_search_line_of (arg : str) (l : upstream_line) :
  well_formed l = true ->
  arg <> [] -> forallb isword arg = true ->
  re_search re_data_signal (line_of arg l)
  = Some (txt "0x" ++ line_digits l, arg).
Proof.
  destruct l as [pre digits rest].
  unfold well_formed, line_of. cbn [line_pre line_digits line_rest].
  intros W N A.
  apply andb_prop in W. destruct W as [W Wr].
  apply andb_prop in W. destruct W as [W Wh].
  apply andb_prop in W. destruct W as [Wp Wn].
  rewrite (re_search_skip _ _ Wp).
  assert (Nd : digits <> []).
  { destruct digits; [discriminate Wn | discriminate]. }
  pose (g1 := set_group 1 (txt "0x" ++ digits) no_groups).
  assert (F : first_match re_data_signal
                ((txt "0x" ++ digits)
                 ++ txt " : Data signal of " ++ arg ++ [])
                rest no_groups (set_group 2 arg g1)).
  { unfold re_data_signal, Seq. cbn [fold_right].
    apply (fm_Cat _ _ _ _ _ _ g1).
    - apply fm_Group. apply (fm_Cat _ _ _ _ _ _ no_groups).
      + apply fm_Str.
      + apply fm_Plus; [exact Nd | now apply hex_digits_word | reflexivity].
    - apply (fm_Cat _ _ _ _ _ _ g1); [apply fm_Str|].
      apply (fm_Cat _ _ _ _ _ _ (set_group 2 arg g1)); [|apply fm_Eps].
      apply fm_Group. apply fm_Plus; [exact N | exact A | exact Wr]. }
  apply match_here_first in F.
  rewrite app_nil_r, <- !app_assoc in F.
  exact (re_search_here _ _ _ _ _ F).
Qed.

(** ** The register map *)

Lemma dict_get_append_same {V} (k : str) (v : V) (d : dict (list V)) :
  dict_get k (dict_append k v d)
  = Some (match dict_get k d with Some vs => vs ++ [v] | None => [v] end).
Proof.
  unfold dict_append. destruct (dict_get k d); apply dict_get_set_same.
Qed.

Lemma dict_get_append_other {V} (k k0 : str) (v : V) (d : dict (list V)) :
  k <> k0 -> dict_get k (dict_append k0 v d) = dict_get k d.
Proof.
  intros N. unfold dict_append.
  destruct (dict_get k0 d); now apply dict_get_set_other.
Qed.

Lemma extend_app (o : option (list str)) (l1 l2 : list str) :
  extend (extend o l1) l2 = extend o (l1 ++ l2).
Proof.
  destruct o as [vs|], l1 as [|x l1]; cbn; try reflexivity.
  - now rewrite app_nil_r.
  - now rewrite <- app_assoc.
Qed.

Lemma record_loop_get (comments : list str) (m : RegisterMap) :
  data_lines_match comments = true ->
  exists m', for_fold comments record_line m = Ok m' /\
    forall arg, dict_get arg m'
                = extend (dict_get arg m)
                         (map address_token (filter (adds_to arg) comments)).
Proof.
  revert m. induction comments as [|line cs IH]; intros m H.
  - exists m. split; [reflexivity|]. intros arg. cbn.
    destruct (dict_get arg m); cbn; [now rewrite app_nil_r | reflexivity].
  - unfold data_lines_match in H. cbn [forallb] in H.
    apply andb_prop in H. destruct H as [Hl Hcs].
    cbn [for_fold]. unfold record_line at 1.
    destruct (is_data_signal_line line) eqn:D.
    + destruct (re_search re_data_signal line) as [[addr signal]|] eqn:S;
        [|discriminate Hl].
      cbn [bind]. destruct (IH (dict_append signal
                                  (replace (txt "0x") (txt "'h") addr) m) Hcs)
        as (m' & R & G).
      exists m'. split; [exact R|]. intros arg. rewrite G.
      cbn [filter]. unfold adds_to at 2, names_arg. rewrite D, S. cbn [andb].
      destruct (str_eqb signal arg) eqn:E.
      * apply str_eqb_eq in E. subst signal.
        rewrite dict_get_append_same. cbn [map].
        unfold address_token at 2. rewrite S.
        destruct (dict_get arg m); cbn [extend];
          [now rewrite <- app_assoc | reflexivity].
      * apply str_eqb_neq in E.
        rewrite dict_get_append_other by congruence. reflexivity.
    + cbn [bind]. destruct (IH m Hcs) as (m' & R & G).
      exists m'. split; [exact R|]. intros arg. rewrite G.
      cbn [filter]. unfold adds_to at 2. rewrite D. reflexivity.
Qed.

Lemma address_token_line_of (arg : str) (l : upstream_line) :
  well_formed l = true -> arg <> [] -> forallb isword arg = true ->
  address_token (line_of arg l) = literal_of l.
Proof.
  intros W N A. unfold address_token, literal_of.
  rewrite (re_search_line_of arg l W N A).
  apply rewrite_address. unfold well_formed in W.
  apply andb_prop in W. destruct W as [W _].
  apply andb_prop in W. now destruct W.
Qed.

(** ** The assembler *)

Section Assembler.

Variable get_begin : str.
Variable get_axi_ram_inst : AXI -> str.
Variable get_s_axi_control : str.
Variable get_dut : str -> list AXI -> str.
Variable get_test_signals : RegisterMap -> dict str -> list AXI -> result str.
Variable get_end : str.

Lemma ram_blocks (axi_list : list AXI) (tb : str) :
  fold_left (fun tb axi => tb ++ get_axi_ram_inst axi ++ newline) axi_list tb
  = tb ++ flat_map (fun axi => get_axi_ram_inst axi ++ newline) axi_list.
Proof.
  revert tb. induction axi_list as [|axi l IH]; intros tb; cbn.
  - now rewrite app_nil_r.
  - rewrite IH. now rewrite <- !app_assoc.
Qed.

(** The blocks of the testbench, in their order. *)
Lemma get_cosim_tb_layout (fs : filesystem) (top_name path : str)
      (axi_list : list AXI) (scalar_to_val : dict str)
      (m : RegisterMap) (signals : str) :
  parse_register_addr fs path = Ok m ->
  get_test_signals m scalar_to_val axi_list = Ok signals ->
  get_cosim_tb get_begin get_axi_ram_inst get_s_axi_control get_dut
    get_test_signals get_end fs top_name path axi_list scalar_to_val
  = Ok (get_begin ++ newline
        ++ flat_map (fun axi => get_axi_ram_inst axi ++ newline) axi_list
        ++ get_s_axi_control ++ newline
        ++ get_dut top_name axi_list ++ newline
        ++ signals
        ++ get_end ++ newline).
Proof.
  intros P S. unfold get_cosim_tb. rewrite P. cbn [bind].
  rewrite S. cbn [bind]. rewrite ram_blocks. cbn [app].
  now rewrite <- !app_assoc.
Qed.

(** C8: two calls of the assembler with the same top module name, the
    same content of the control file, the same interfaces and the same
    scalar values give the same result: the same testbench text, or the
    same failure. *)
Theorem get_cosim_tb_deterministic (fs1 fs2 : filesystem)
        (top_name path : str) (axi_list : list AXI)
        (scalar_to_val : dict str) :
  fs1 path = fs2 path ->
  get_cosim_tb get_begin get_axi_ram_inst get_s_axi_control get_dut
    get_test_signals get_end fs1 top_name path axi_list scalar_to_val
  = get_cosim_tb get_begin get_axi_ram_inst get_s_axi_control get_dut
    get_test_signals get_end fs2 top_name path axi_list scalar_to_val.
Proof.
  intros E. unfold get_cosim_tb, parse_register_addr, read_file.
  now rewrite E.
Qed.

End Assembler.

Lemma get_cosim_tb_deterministic_witness :
  get_cosim_tb (txt "begin") demo_ram (txt "control") demo_dut demo_signals
               (txt "end") fs_ctrl_only (txt "top") (txt "ctrl.v")
               [mkAXI (txt "foo") 64 32] [(txt "n", txt "7")]
  = get_cosim_tb (txt "begin") demo_ram (txt "control") demo_dut demo_signals
                 (txt "end") fs_ctrl_and_more (txt "top") (txt "ctrl.v")
                 [mkAXI (txt "foo") 64 32] [(txt "n", txt "7")].
Proof.
  apply (get_cosim_tb_deterministic (txt "begin") demo_ram (txt "control")
           demo_dut demo_signals (txt "end") fs_ctrl_only fs_ctrl_and_more).
  reflexivity.
Defined.

(** * Further properties *)

(** ** What the matcher finds *)

Lemma star_sound {R} (p : ascii -> bool) (t : str) (k : str -> option R)
      (res : R) :
  star p t k = Some res ->
  exists a b, t = a ++ b /\ forallb p a = true /\ k b = Some res.
Proof.
  induction t as [|c t IH]; cbn [star]; intros H.
  - exists [], []. now split.
  - destruct (p c) eqn:P.
    + destruct (star p t k) as [r|] eqn:S.
      * injection H as ->. destruct (IH eq_refl) as (a & b & -> & A & K).
        exists (c :: a), b. cbn [forallb app]. rewrite P, A. now split.
      * exists [], (c :: t). now split.
    + exists [], (c :: t). now split.
Qed.

(** A successful search went through a match in the sense of [matches]. *)
Lemma rmatch_sound {R} (r : regex) :
  forall (t : str) (g : groups) (k : str -> groups -> option R) (res : R),
    rmatch r t g k = Some res ->
    exists a b g', t = a ++ b /\ matches r a g g' /\ k b g' = Some res.
Proof.
  induction r as [|c|p|p|r1 IH1 r2 IH2|i r IH]; intros t g k res H;
    cbn [rmatch] in H.
  - exists [], t, g. split; [reflexivity|]. split; [constructor | exact H].
  - destruct t as [|c' t]; [discriminate|].
    destruct (Ascii.eqb_spec c c') as [<-|]; [|discriminate].
    exists [c], t, g. split; [reflexivity|]. split; [constructor | exact H].
  - destruct t as [|c' t]; [discriminate|].
    destruct (p c') eqn:P; [|discriminate].
    exists [c'], t, g. split; [reflexivity|].
    split; [now constructor | exact H].
  - apply star_sound in H. destruct H as (a & b & -> & A & K).
    exists a, b, g. split; [reflexivity|]. split; [now constructor | exact K].
  - apply IH1 in H. destruct H as (a1 & b1 & g1 & -> & M1 & H).
    apply IH2 in H. destruct H as (a2 & b & g2 & -> & M2 & K).
    exists (a1 ++ a2), b, g2. split; [now rewrite app_assoc|].
    split; [now apply (M_Cat _ _ _ _ _ g1) | exact K].
  - apply IH in H. destruct H as (a & b & g1 & -> & M & K).
    rewrite firstn_matched in K.
    exists a, b, (set_group i a g1). split; [reflexivity|].
    split; [now constructor | exact K].
Qed.

Lemma match_here_sound (r : regex) (t g1 g2 : str) (n : nat) :
  match_here r t = Some (g1, g2, n) ->
  exists a b g', t = a ++ b /\ matches r a no_groups g' /\
                 g1 = g' 1 /\ g2 = g' 2.
Proof.
  unfold match_here. intros H. apply rmatch_sound in H.
  destruct H as (a & b & g' & -> & M & K). injection K as <- <- _.
  now exists a, b, g'.
Qed.

Lemma found_later (r : regex) (c : ascii) (t g1 g2 : str) :
  found r t g1 g2 -> found r (c :: t) g1 g2.
Proof.
  intros (pre & a & post & g' & -> & M & E1 & E2).
  now exists (c :: pre), a, post, g'.
Qed.

Lemma match_here_found (r : regex) (t g1 g2 : str) (n : nat) :
  match_here r t = Some (g1, g2, n) -> found r t g1 g2.
Proof.
  intros H. apply match_here_sound in H.
  destruct H as (a & b & g' & -> & M & E1 & E2). now exists [], a, b, g'.
Qed.

(** What [re.search] returns is found in the text. *)
Lemma re_search_sound (r : regex) (t g1 g2 : str) :
  re_search r t = Some (g1, g2) -> found r t g1 g2.
Proof.
  induction t as [|c t IH]; cbn [re_search];
    destruct (match_here r _) as [[[h1 h2] n]|] eqn:M; intros H;
    try discriminate.
  - injection H as <- <-. now apply (match_here_found r [] h1 h2 n).
  - injection H as <- <-. now apply (match_here_found r (c :: t) h1 h2 n).
  - now apply found_later, IH.
Qed.

(** Every pair [re.findall] returns is found in the text. *)
Lemma findall_sound (r : regex) (t g1 g2 : str) :
  In (g1, g2) (findall r t) -> found r t g1 g2.
Proof.
  unfold findall. generalize 0 as skip.
  induction t as [|c t IH]; intros skip; cbn [findall_from].
  - destruct skip; [|contradiction].
    destruct (match_here r []) as [[[h1 h2] n]|] eqn:M; [|contradiction].
    intros [E|[]]. injection E as <- <-.
    now apply (match_here_found r [] h1 h2 n).
  - destruct skip as [|skip].
    + destruct (match_here r (c :: t)) as [[[h1 h2] n]|] eqn:M.
      * intros [E|I].
        -- injection E as <- <-. now apply (match_here_found r _ h1 h2 n).
        -- now apply found_later, (IH (n - 1)).
      * intros I. now apply found_later, (IH 0).
    + intros I. now apply found_later, (IH skip).
Qed.

(** Inversion of [matches] on the constructs of the patterns. *)

Lemma matches_Cat_inv (r1 r2 : regex) (a : str) (g g' : groups) :
  matches (Cat r1 r2) a g g' ->
  exists a1 a2 g1, a = a1 ++ a2 /\ matches r1 a1 g g1 /\ matches r2 a2 g1 g'.
Proof. intros H. inversion H; subst. now exists a1, a2, g1. Qed.

Lemma matches_Eps_inv (a : str) (g g' : groups) :
  matches Eps a g g' -> a = [] /\ g' = g.
Proof. intros H. inversion H; subst. now split. Qed.

Lemma matches_Star_inv (p : ascii -> bool) (a : str) (g g' : groups) :
  matches (Star p) a g g' -> forallb p a = true /\ g' = g.
Proof. intros H. inversion H; subst. now split. Qed.

Lemma matches_Cls_inv (p : ascii -> bool) (a : str) (g g' : groups) :
  matches (Cls p) a g g' -> exists c, a = [c] /\ p c = true /\ g' = g.
Proof. intros H. inversion H; subst. now exists c. Qed.

Lemma matches_Group_inv (i : nat) (r : regex) (a : str) (g g' : groups) :
  matches (Group i r) a g g' ->
  exists g1, matches r a g g1 /\ g' = set_group i a g1.
Proof. intros H. inversion H; subst. now exists g1. Qed.

Lemma matches_chars_inv (l a : str) (g g' : groups) :
  matches (fold_right (fun c r => Cat (Chr c) r) Eps l) a g g' ->
  a = l /\ g' = g.
Proof.
  revert a g. induction l as [|c l IH]; intros a g H; cbn [fold_right] in H.
  - now apply matches_Eps_inv.
  - apply matches_Cat_inv in H. destruct H as (a1 & a2 & g1 & -> & H1 & H2).
    inversion H1; subst. apply IH in H2. destruct H2 as [-> ->]. now split.
Qed.

Lemma matches_Str_inv (lit : string) (a : str) (g g' : groups) :
  matches (Str lit) a g g' -> a = txt lit /\ g' = g.
Proof. apply matches_chars_inv. Qed.

Lemma matches_Plus_inv (p : ascii -> bool) (a : str) (g g' : groups) :
  matches (Plus p) a g g' -> run_of p a /\ g' = g.
Proof.
  intros H. apply matches_Cat_inv in H.
  destruct H as (a1 & a2 & g1 & -> & H1 & H2).
  apply matches_Cls_inv in H1. destruct H1 as (c & -> & P & ->).
  apply matches_Star_inv in H2. destruct H2 as [A ->].
  split; [|reflexivity]. split; [discriminate|].
  cbn [app forallb]. now rewrite P, A.
Qed.

Ltac invert_matches :=
  repeat match goal with
    | H : matches (Str _) _ _ _ |- _ =>
        apply matches_Str_inv in H; destruct H as [? ?]; subst
    | H : matches (Plus _) _ _ _ |- _ =>
        apply matches_Plus_inv in H; destruct H as [? ?]; subst
    | H : matches (Star _) _ _ _ |- _ =>
        apply matches_Star_inv in H; destruct H as [? ?]; subst
    | H : matches (Cls _) _ _ _ |- _ =>
        apply matches_Cls_inv in H; destruct H as (? & ? & ? & ?); subst
    | H : matches Eps _ _ _ |- _ =>
        apply matches_Eps_inv in H; destruct H as [? ?]; subst
    | H : matches (Group _ _) _ _ _ |- _ =>
        apply matches_Group_inv in H; destruct H as (? & ? & ?); subst
    | H : matches (Cat _ _) _ _ _ |- _ =>
        apply matches_Cat_inv in H; destruct H as (? & ? & ? & ? & ? & ?);
        subst
    end.

(** What the pattern of line 53 captures: an address that is [0x] and
    a word, and a name that is a word, both as they stand in the text. *)
Lemma found_data_signal (t addr signal : str) :
  found re_data_signal t addr signal ->
  (exists w, addr = txt "0x" ++ w /\ run_of isword w) /\
  run_of isword signal /\
  contains (addr ++ txt " : Data signal of " ++ signal) t = true.
Proof.
  intros (pre & a & post & g' & -> & M & -> & ->).
  unfold re_data_signal, Seq in M. cbn [fold_right] in M.
  invert_matches.
  match goal with
  | H : run_of isword ?w, H' : run_of isword ?s |- _ =>
      change ((exists w0, txt "0x" ++ w = txt "0x" ++ w0 /\ run_of isword w0)
              /\ run_of isword s /\
              contains ((txt "0x" ++ w) ++ txt " : Data signal of " ++ s)
                       (pre ++ ((txt "0x" ++ w)
                                ++ txt " : Data signal of " ++ s ++ [])
                            ++ post) = true)
  end.
  split; [eexists; split; [reflexivity | eassumption]|].
  split; [assumption|].
  rewrite app_nil_r.
  rewrite <- (app_assoc (txt "0x" ++ _) (txt " : Data signal of " ++ _) post).
  rewrite <- (app_assoc (txt " : Data signal of ") _ post).
  rewrite (app_assoc (txt "0x" ++ _) (txt " : Data signal of ") (_ ++ post)).
  rewrite (app_assoc _ _ post).
  rewrite <- (app_assoc (txt "0x" ++ _) (txt " : Data signal of ") _).
  apply contains_app.
Qed.

Lemma contains_app_l (sub a t : str) :
  contains sub t = true -> contains sub (a ++ t) = true.
Proof.
  intros H. induction a as [|c a IH]; [exact H|].
  cbn [app contains]. rewrite IH. apply orb_true_r.
Qed.

Lemma contains_prefix (sub rest : str) : contains sub (sub ++ rest) = true.
Proof. apply contains_here, startswith_app. Qed.

(** What the bus patterns of lines 67 and 68 capture: a bound without a
    newline, and a name that is a word and stands in the text between
    [m_axi_] and the suffix. *)
Lemma found_m_axi (suffix : string) (t bound bus : str) :
  found (re_m_axi suffix) t bound bus ->
  forallb dot bound = true /\ run_of isword bus /\
  contains (txt "m_axi_" ++ bus ++ txt suffix) t = true.
Proof.
  intros (pre & a & post & g' & -> & M & -> & ->).
  unfold re_m_axi, Seq in M. cbn [fold_right] in M.
  invert_matches.
  match goal with
  | B : forallb dot ?b = true, N : run_of isword ?n |- _ =>
      change (set_group 2 n (set_group 1 b no_groups) 1) with b;
      change (set_group 2 n (set_group 1 b no_groups) 2) with n
  end.
  split; [assumption|]. split; [assumption|].
  rewrite <- !app_assoc.
  do 11 apply contains_app_l.
  rewrite !app_assoc. rewrite <- !app_assoc.
  match goal with
  | |- contains (?a ++ ?b ++ ?c) (?a ++ ?b ++ ?c ++ ?r) = true =>
      rewrite (app_assoc b c r), (app_assoc a (b ++ c) r)
  end.
  apply contains_prefix.
Qed.

(** What the pattern of line 71 captures: a name and a value without
    white space, neither of them empty. *)
Lemma found_parameter (t pname value : str) :
  found re_parameter t pname value ->
  run_of notspace pname /\ run_of notspace value.
Proof.
  intros (pre & a & post & g' & -> & M & -> & ->).
  unfold re_parameter, Seq in M. cbn [fold_right] in M.
  invert_matches.
  match goal with
  | B : run_of notspace ?b, N : run_of notspace ?n |- run_of _ (_ 1) /\ _ =>
      change (run_of notspace b /\ run_of notspace n)
  | B : run_of notspace ?b, N : run_of notspace ?n |- _ =>
      change (run_of notspace n /\ run_of notspace b)
  end.
  now split.
Qed.

(** ** Keys and entries of dictionaries *)

Lemma dict_get_In {V} (k : str) (v : V) (d : dict V) :
  dict_get k d = Some v -> In (k, v) d.
Proof.
  induction d as [|[k' v'] d IH]; cbn [dict_get]; [discriminate|].
  destruct (str_eqb k k') eqn:E.
  - apply str_eqb_eq in E. subst k'. intros H. injection H as ->. now left.
  - intros H. right. now apply IH.
Qed.

Lemma dict_get_present {V} (k : str) (d : dict V) :
  existsb (str_eqb k) (map fst d) = true <-> exists v, dict_get k d = Some v.
Proof.
  induction d as [|[k' v'] d IH]; cbn [map fst existsb dict_get].
  - split; [discriminate | intros [v H]; discriminate].
  - destruct (str_eqb k k'); cbn [orb]; [|exact IH].
    split; [now exists v' | reflexivity].
Qed.

Lemma dict_get_absent {V} (k : str) (d : dict V) :
  existsb (str_eqb k) (map fst d) = false <-> dict_get k d = None.
Proof.
  induction d as [|[k' v'] d IH]; cbn [map fst existsb dict_get].
  - split; reflexivity.
  - destruct (str_eqb k k'); cbn [orb]; [|exact IH]. split; discriminate.
Qed.

Lemma dict_get_NoDup {V} (k : str) (v : V) (d : dict V) :
  NoDup (map fst d) -> In (k, v) d -> dict_get k d = Some v.
Proof.
  induction d as [|[k' v'] d IH]; intros N I; [contradiction|].
  cbn [map fst] in N. inversion N as [|? ? Nk Nd]; subst.
  cbn [dict_get]. destruct I as [E|I].
  - injection E as -> ->. now rewrite str_eqb_refl.
  - destruct (str_eqb k k') eqn:E; [|now apply IH].
    apply str_eqb_eq in E. subst k'. exfalso. apply Nk.
    now apply (in_map fst d (k, v)).
Qed.

Lemma dict_set_keys {V} (k : str) (v : V) (d : dict V) :
  map fst (dict_set k v d)
  = if existsb (str_eqb k) (map fst d) then map fst d else map fst d ++ [k].
Proof.
  induction d as [|[k' v'] d IH]; cbn [dict_set map fst existsb];
    [reflexivity|].
  destruct (str_eqb k k'); cbn [orb map fst]; [reflexivity|].
  rewrite IH. now destruct (existsb (str_eqb k) (map fst d)).
Qed.

Lemma dict_append_keys {V} (k : str) (v : V) (d : dict (list V)) :
  map fst (dict_append k v d)
  = if existsb (str_eqb k) (map fst d) then map fst d else map fst d ++ [k].
Proof.
  unfold dict_append. destruct (dict_get k d); apply dict_set_keys.
Qed.

Lemma dict_set_In {V} (k k' : str) (v v' : V) (d : dict V) :
  In (k', v') (dict_set k v d) -> (k' = k /\ v' = v) \/ In (k', v') d.
Proof.
  induction d as [|[k0 v0] d IH]; cbn [dict_set].
  - intros [E|[]]. injection E as <- <-. now left.
  - destruct (str_eqb k k0) eqn:E.
    + apply str_eqb_eq in E. subst k0. intros [H|H].
      * injection H as <- <-. now left.
      * right. now right.
    + intros [H|H]; [right; now left|].
      destruct (IH H) as [L|R]; [now left | right; now right].
Qed.

(** The entries of a dictionary built from pairs are among the pairs. *)
Lemma dict_of_In {V} (k : str) (v : V) (pairs : list (str * V)) :
  In (k, v) (dict_of pairs) -> In (k, v) pairs.
Proof.
  unfold dict_of.
  assert (G : forall d,
             In (k, v) (fold_left (fun d kv => dict_set (fst kv) (snd kv) d)
                                  pairs d) ->
             In (k, v) d \/ In (k, v) pairs).
  { induction pairs as [|[k0 v0] pairs IH]; intros d H; [now left|].
    cbn [fold_left fst snd] in H. destruct (IH _ H) as [I|I].
    - apply dict_set_In in I. destruct I as [[-> ->]|I];
        [right; now left | now left].
    - right. now right. }
  intros H. destruct (G [] H) as [[]|I]. exact I.
Qed.

Lemma dict_of_NoDup {V} (pairs : list (str * V)) :
  NoDup (map fst (dict_of pairs)).
Proof.
  unfold dict_of.
  assert (G : forall d, NoDup (map fst d) ->
             NoDup (map fst (fold_left
                               (fun d kv => dict_set (fst kv) (snd kv) d)
                               pairs d))).
  { induction pairs as [|[k0 v0] pairs IH]; intros d N; [exact N|].
    cbn [fold_left fst snd]. apply IH. rewrite dict_set_keys.
    destruct (existsb (str_eqb k0) (map fst d)) eqn:E; [exact N|].
    apply NoDup_app; [exact N | repeat constructor; intros [] |].
    intros x I [<-|[]].
    assert (X : existsb (str_eqb k0) (map fst d) = true).
    { apply existsb_exists. exists k0. split; [exact I | apply str_eqb_refl]. }
    congruence. }
  apply G. constructor.
Qed.

(** ** First occurrences *)

Lemma first_occurrences_seen (seen seen' xs : list str) :
  (forall x, existsb (str_eqb x) seen = existsb (str_eqb x) seen') ->
  first_occurrences seen xs = first_occurrences seen' xs.
Proof.
  revert seen seen'. induction xs as [|x xs IH]; intros seen seen' H;
    [reflexivity|].
  cbn [first_occurrences]. rewrite <- (H x).
  destruct (existsb (str_eqb x) seen); [now apply IH|].
  f_equal. apply IH. intros y. cbn [existsb]. now rewrite H.
Qed.

Lemma existsb_snoc (x k : str) (seen : list str) :
  existsb (str_eqb x) (seen ++ [k]) = existsb (str_eqb x) (k :: seen).
Proof.
  rewrite existsb_app. cbn [existsb]. rewrite orb_false_r. apply orb_comm.
Qed.

Lemma first_occurrences_fresh (seen xs : list str) (x : str) :
  In x (first_occurrences seen xs) ->
  existsb (str_eqb x) seen = false /\ In x xs.
Proof.
  revert seen. induction xs as [|y xs IH]; intros seen I; [contradiction|].
  cbn [first_occurrences] in I.
  destruct (existsb (str_eqb y) seen) eqn:E.
  - destruct (IH _ I) as [F J]. split; [exact F | now right].
  - destruct I as [<-|I]; [split; [exact E | now left]|].
    destruct (IH _ I) as [F J]. cbn [existsb] in F.
    apply orb_false_elim in F. split; [apply F | now right].
Qed.

Lemma first_occurrences_NoDup (seen xs : list str) :
  NoDup (first_occurrences seen xs).
Proof.
  revert seen. induction xs as [|y xs IH]; intros seen; [constructor|].
  cbn [first_occurrences].
  destruct (existsb (str_eqb y) seen); [apply IH|].
  constructor; [|apply IH]. intros I.
  apply first_occurrences_fresh in I. destruct I as [F _].
  cbn [existsb] in F. now rewrite str_eqb_refl in F.
Qed.

(** ** What the extraction of the register map returns *)

Lemma parse_register_addr_ok_inv (fs : filesystem) (path : str)
      (m : RegisterMap) :
  parse_register_addr fs path = Ok m ->
  exists text,
    fs path = Some text /\
    _check_s_axi_control_format (comment_lines (readlines text)) = Ok tt /\
    for_fold (comment_lines (readlines text)) record_line [] = Ok m.
Proof.
  unfold parse_register_addr, read_file.
  destruct (fs path) as [text|]; cbn [bind]; [|discriminate].
  destruct (_check_s_axi_control_format _) as [[]|e] eqn:C; cbn [bind];
    [|discriminate].
  intros H. now exists text.
Qed.

Lemma record_loop_ok_match (comments : list str) (m0 m : RegisterMap) :
  for_fold comments record_line m0 = Ok m ->
  data_lines_match comments = true.
Proof.
  intros H. unfold data_lines_match.
  destruct (forallb _ comments) eqn:E; [reflexivity|].
  apply forallb_false_ex in E. destruct E as (line & I & F).
  destruct (is_data_signal_line line) eqn:D; [|discriminate F].
  destruct (re_search re_data_signal line) eqn:S; [discriminate F|].
  rewrite (record_loop_unmatched comments line m0 I D S) in H. discriminate.
Qed.

Lemma record_loop_keys (comments : list str) (m0 m : RegisterMap) :
  for_fold comments record_line m0 = Ok m ->
  map fst m
  = map fst m0 ++ first_occurrences (map fst m0) (signals_of comments).
Proof.
  revert m0. induction comments as [|line cs IH]; intros m0 H.
  - cbn in H. injection H as <-. cbn. now rewrite app_nil_r.
  - cbn [for_fold] in H. unfold signals_of. cbn [flat_map].
    fold (signals_of cs). unfold record_line in H.
    destruct (is_data_signal_line line).
    + destruct (re_search re_data_signal line) as [[addr signal]|];
        cbn [bind] in H; [|discriminate].
      apply IH in H. rewrite H, dict_append_keys. cbn [app first_occurrences].
      destruct (existsb (str_eqb signal) (map fst m0)); [reflexivity|].
      rewrite <- app_assoc. cbn [app]. do 2 f_equal.
      apply first_occurrences_seen. intros x. apply existsb_snoc.
    + cbn [bind] in H. now apply IH.
Qed.

(** X1: in the map the extraction returns, an argument is bound to the
    address tokens of the data-signal lines that name it, in the order of
    the file; an argument no such line names is not a key. *)
Theorem register_map_lookup (fs : filesystem) (path text arg : str)
        (m : RegisterMap) :
  fs path = Some text ->
  parse_register_addr fs path = Ok m ->
  dict_get arg m
  = match addresses_of arg (comment_lines (readlines text)) with
    | [] => None
    | _ :: _ => Some (addresses_of arg (comment_lines (readlines text)))
    end.
Proof.
  intros F H. apply parse_register_addr_ok_inv in H.
  destruct H as (text' & F' & _ & L). rewrite F in F'. injection F' as <-.
  destruct (record_loop_get _ [] (record_loop_ok_match _ _ _ L))
    as (m' & L' & G).
  rewrite L in L'. injection L' as <-. rewrite G. reflexivity.
Qed.

Lemma register_map_lookup_witness :
  dict_get (txt "n") [(txt "a", [txt "'h10"; txt "'h14"]);
                      (txt "n", [txt "'h1c"])]
  = Some [txt "'h1c"] /\
  dict_get (txt "b") [(txt "a", [txt "'h10"; txt "'h14"]);
                      (txt "n", [txt "'h1c"])]
  = None.
Proof.
  split.
  - rewrite (register_map_lookup fs_ctrl_only (txt "ctrl.v") ctrl_ok (txt "n"));
      vm_compute; reflexivity.
  - rewrite (register_map_lookup fs_ctrl_only (txt "ctrl.v") ctrl_ok (txt "b"));
      vm_compute; reflexivity.
Defined.

(** X2: the keys of the returned map are the argument names of the
    data-signal lines, each once, in the order in which the file first
    names them. *)
Theorem register_map_keys_in_file_order (fs : filesystem) (path text : str)
        (m : RegisterMap) :
  fs path = Some text ->
  parse_register_addr fs path = Ok m ->
  map fst m
  = first_occurrences [] (signals_of (comment_lines (readlines text))) /\
  NoDup (map fst m).
Proof.
  intros F H. apply parse_register_addr_ok_inv in H.
  destruct H as (text' & F' & _ & L). rewrite F in F'. injection F' as <-.
  apply record_loop_keys in L. cbn [map app] in L. rewrite L.
  split; [reflexivity | apply first_occurrences_NoDup].
Qed.

Lemma register_map_keys_in_file_order_witness :
  map fst [(txt "a", [txt "'h10"; txt "'h14"]); (txt "n", [txt "'h1c"])]
  = first_occurrences [] (signals_of (comment_lines (readlines ctrl_ok))) /\
  NoDup (map fst [(txt "a", [txt "'h10"; txt "'h14"]);
                  (txt "n", [txt "'h1c"])]).
Proof.
  apply (register_map_keys_in_file_order fs_ctrl_only (txt "ctrl.v") ctrl_ok);
    vm_compute; reflexivity.
Defined.

Lemma address_token_prefix (line addr signal : str) :
  re_search re_data_signal line = Some (addr, signal) ->
  startswith (txt "'h") (address_token line) = true /\ run_of isword signal.
Proof.
  intros S. unfold address_token. rewrite S.
  apply re_search_sound, found_data_signal in S.
  destruct S as ((w & -> & _) & R & _). split; [|exact R].
  change (replace (txt "0x") (txt "'h") (txt "0x" ++ w))
    with (txt "'h" ++ replace_from (txt "0x") (txt "'h") w 0).
  apply startswith_app.
Qed.

(** X3: every entry of the returned map has a key that is a non-empty
    word and a list of addresses that is not empty, each address
    starting with the hardware-literal prefix ['h]. *)
Theorem register_map_entries (fs : filesystem) (path : str) (m : RegisterMap)
        (arg : str) (addrs : list str) :
  parse_register_addr fs path = Ok m ->
  In (arg, addrs) m ->
  run_of isword arg /\ addrs <> [] /\
  forall a, In a addrs -> startswith (txt "'h") a = true.
Proof.
  intros H I.
  destruct (parse_register_addr_ok_inv _ _ _ H) as (text & F & _ & _).
  destruct (register_map_keys_in_file_order fs path text m F H) as [_ N].
  pose proof (register_map_lookup fs path text arg m F H) as G.
  rewrite (dict_get_NoDup arg addrs m N I) in G.
  unfold addresses_of in G.
  destruct (filter (adds_to arg) (comment_lines (readlines text)))
    as [|l ls] eqn:E; [discriminate|].
  cbn [map] in G. injection G as ->.
  assert (A : forall line, In line (l :: ls) ->
              startswith (txt "'h") (address_token line) = true /\
              run_of isword arg).
  { intros line J. rewrite <- E in J. apply filter_In in J.
    destruct J as [_ J]. unfold adds_to, names_arg in J.
    apply andb_prop in J. destruct J as [_ J].
    destruct (re_search re_data_signal line) as [[addr signal]|] eqn:S;
      [|discriminate].
    apply str_eqb_eq in J. subst signal.
    exact (address_token_prefix line addr arg S). }
  split; [apply (A l); now left|]. split; [discriminate|].
  intros a J. change (In a (map address_token (l :: ls))) in J.
  apply in_map_iff in J. destruct J as (line & <- & J). now apply A.
Qed.

Lemma register_map_entries_witness :
  run_of isword (txt "a") /\ [txt "'h10"; txt "'h14"] <> [] /\
  forall x, In x [txt "'h10"; txt "'h14"] -> startswith (txt "'h") x = true.
Proof.
  apply (register_map_entries fs_ctrl_only (txt "ctrl.v")
           [(txt "a", [txt "'h10"; txt "'h14"]); (txt "n", [txt "'h1c"])]).
  - vm_compute. reflexivity.
  - now left.
Defined.

(** X4: the extraction returns a map exactly when the file can be read,
    its comment lines pass the format check, and the pattern matches
    every line that passes the test of line 52. *)
Theorem parse_register_addr_returns_iff (fs : filesystem) (path : str) :
  (exists m, parse_register_addr fs path = Ok m) <->
  (exists text,
      fs path = Some text /\
      _check_s_axi_control_format (comment_lines (readlines text)) = Ok tt /\
      data_lines_match (comment_lines (readlines text)) = true).
Proof.
  split.
  - intros [m H]. apply parse_register_addr_ok_inv in H.
    destruct H as (text & F & C & L). exists text.
    split; [exact F|]. split; [exact C|].
    exact (record_loop_ok_match _ _ _ L).
  - intros (text & F & C & M).
    destruct (record_loop_get _ [] M) as (m & L & _). exists m.
    now rewrite (parse_register_addr_check_ok fs path text F C).
Qed.

Lemma parse_register_addr_returns_iff_witness :
  exists m, parse_register_addr fs_ctrl_only (txt "ctrl.v") = Ok m.
Proof.
  apply (proj2 (parse_register_addr_returns_iff fs_ctrl_only (txt "ctrl.v"))).
  exists ctrl_ok. repeat split; vm_compute; reflexivity.
Defined.

Lemma check_raise (comments : list str) (e : exn) :
  _check_s_axi_control_format comments = Raise e ->
  (exists msg, e = AssertionError msg) \/ e = IndexError.
Proof.
  rewrite check_unfold.
  destruct (keyword_loop_result comments) as [[_ K]|(l & _ & _ & K)];
    rewrite K; cbn [bind].
  - destruct (first_item_result (txt "0x00") comments) as [->|[b ->]];
      cbn [bind]; [intros H; injection H as <-; now right|].
    destruct (first_item_result (txt "0x04") comments) as [->|[f ->]];
      cbn [bind]; [intros H; injection H as <-; now right|].
    rewrite for_each_assert_all. unfold assert.
    destruct (forallb _ _); [discriminate|].
    intros H. injection H as <-. left. now eexists.
  - intros H. injection H as <-. left. now eexists.
Qed.

(** X5: the extraction ends in no other exception than the failure to
    read the file, an assertion error, the index lookup failure and the
    attribute error of an unmatched line; it fails to read exactly when
    the file system has no such file. *)
Theorem parse_register_addr_errors (fs : filesystem) (path : str) (e : exn) :
  parse_register_addr fs path = Raise e ->
  register_addr_error path e /\ (e = IOError path <-> fs path = None).
Proof.
  unfold parse_register_addr, read_file, register_addr_error.
  destruct (fs path) as [text|]; cbn [bind].
  - destruct (_check_s_axi_control_format _) as [[]|e'] eqn:C; cbn [bind].
    + intros H.
      assert (E : e = AttributeError).
      { clear C. revert H. generalize (@nil (str * list str)).
        induction (comment_lines (readlines text)) as [|c cs IH];
          intros m0; cbn [for_fold]; [discriminate|].
        destruct (record_line c m0) as [m1|e1] eqn:R; cbn [bind].
        - apply IH.
        - intros H. injection H as <-. now apply record_line_raise in R. }
      subst e. split; [tauto|]. split; discriminate.
    + intros H. injection H as <-. apply check_raise in C.
      destruct C as [[msg ->]| ->]; (split; [eauto | split; discriminate]).
  - intros H. injection H as <-. split; [now left | tauto].
Qed.

Lemma parse_register_addr_errors_witness :
  register_addr_error (txt "ctrl.v") IndexError /\
  (IndexError = IOError (txt "ctrl.v") <->
   one_file (txt "ctrl.v") ctrl_no_header (txt "ctrl.v") = None).
Proof.
  apply (parse_register_addr_errors
           (one_file (txt "ctrl.v") ctrl_no_header) (txt "ctrl.v")).
  vm_compute. reflexivity.
Defined.

(** ** When the format check passes *)

Lemma indices_from_first_inv (k : str) (xs : list str) (a j : nat) :
  first_item (map fst (filter (fun ie => contains k (snd ie))
                              (combine (seq a (length xs)) xs)))
  = Ok j ->
  exists i, j = a + i /\ first_line_with k xs i.
Proof.
  revert a. induction xs as [|x xs IH]; intros a; [discriminate|].
  cbn [length seq combine filter snd]. destruct (contains k x) eqn:C.
  - cbn. intros H. injection H as <-. exists 0. split; [lia|]. split.
    + now exists x.
    + intros j l Lt. lia.
  - intros H. apply IH in H. destruct H as (i & -> & (l & N & Cl) & M).
    exists (S i). split; [lia|]. split.
    + now exists l.
    + intros j l' Lt N'. destruct j as [|j].
      * cbn in N'. injection N' as <-. exact C.
      * apply (M j l'); [lia | exact N'].
Qed.

Lemma first_item_indices_inv (k : str) (xs : list str) (i : nat) :
  first_item (indices_with k xs) = Ok i -> first_line_with k xs i.
Proof.
  unfold indices_with, enumerate. intros H.
  apply indices_from_first_inv in H. destruct H as (i' & -> & H). exact H.
Qed.

(** X6: the format check passes exactly when every line passes the
    keyword assertion, some line contains [0x00] and some line contains
    [0x04], and every line from the first of the former up to the first
    of the latter passes the fixed-bit assertion; lines outside this
    range are not looked at for their bits. *)
Theorem check_passes_iff (comments : list str) :
  _check_s_axi_control_format comments = Ok tt <->
  forallb line_keywords_ok comments = true /\
  (exists beg fin,
      first_line_with (txt "0x00") comments beg /\
      first_line_with (txt "0x04") comments fin /\
      forallb fixed_addresses_ok (slice comments beg fin) = true).
Proof.
  rewrite check_unfold. split.
  - destruct (keyword_loop_result comments) as [[A K]|(l & _ & _ & K)];
      rewrite K; cbn [bind]; [|discriminate].
    destruct (first_item (indices_with (txt "0x00") comments)) as [beg|]
      eqn:B; cbn [bind]; [|discriminate].
    destruct (first_item (indices_with (txt "0x04") comments)) as [fin|]
      eqn:E; cbn [bind]; [|discriminate].
    intros H. split; [exact A|]. exists beg, fin.
    split; [now apply first_item_indices_inv|].
    split; [now apply first_item_indices_inv|].
    now apply (for_each_assert_ok _ _ (fun _ => None)).
  - intros (A & beg & fin & B & E & S).
    rewrite (proj2 (for_each_assert_ok comments line_keywords_ok
                      (fun line => Some line)) A).
    cbn [bind].
    rewrite (first_item_indices _ _ _ B), (first_item_indices _ _ _ E).
    cbn [bind]. now apply (for_each_assert_ok _ _ (fun _ => None)).
Qed.

Lemma check_passes_iff_witness :
  _check_s_axi_control_format (comment_lines (readlines ctrl_ok)) = Ok tt.
Proof.
  apply (proj2 (check_passes_iff (comment_lines (readlines ctrl_ok)))).
  split; [vm_compute; reflexivity|]. exists 0, 7.
  split; [apply first_item_indices_inv; vm_compute; reflexivity|].
  split; [apply first_item_indices_inv; vm_compute; reflexivity|].
  vm_compute. reflexivity.
Defined.

(** X7: when the first [0x04] line is not after the first [0x00] line,
    the range of the fixed-bit assertion is empty: the check passes as
    soon as every line passes the keyword assertion, whatever the bits
    of the signal lines. *)
Theorem check_with_empty_range (comments : list str) (beg fin : nat) :
  forallb line_keywords_ok comments = true ->
  first_line_with (txt "0x00") comments beg ->
  first_line_with (txt "0x04") comments fin ->
  fin <= beg ->
  _check_s_axi_control_format comments = Ok tt.
Proof.
  intros A B E L. apply check_passes_iff. split; [exact A|].
  exists beg, fin. split; [exact B|]. split; [exact E|].
  unfold slice. now replace (fin - beg) with 0 by lia.
Qed.

Lemma check_with_empty_range_witness :
  fixed_addresses_ok (txt "//        bit 5  - ap_start (Read/Write/COH)"
                      ++ newline) = false /\
  _check_s_axi_control_format (comment_lines (readlines ctrl_reversed))
  = Ok tt.
Proof.
  split; [vm_compute; reflexivity|].
  apply (check_with_empty_range _ 1 0).
  - vm_compute. reflexivity.
  - split.
    + eexists. split; vm_compute; reflexivity.
    + intros j l Lt N. destruct j as [|j]; [|lia].
      vm_compute in N. injection N as <-. vm_compute. reflexivity.
  - split.
    + eexists. split; vm_compute; reflexivity.
    + intros j l Lt. lia.
  - lia.
Defined.

(** ** What the extraction of the interfaces returns *)

Local Open Scope Z_scope.

Lemma parse_m_axi_interfaces_unfold (fs : filesystem) (path text : str) :
  fs path = Some text ->
  parse_m_axi_interfaces fs path
  = for_fold (findall re_wdata text)
      (add_interface (name_to_addr_width text) (param_to_value text)) [].
Proof.
  intros F. unfold parse_m_axi_interfaces, read_file. now rewrite F.
Qed.

(** X8: the interfaces returned are those of the data-bus declarations,
    one for each, in the order of the text; a name declared twice is
    returned twice. *)
Theorem interfaces_follow_data_buses (fs : filesystem) (path text : str)
        (l : list AXI) :
  fs path = Some text ->
  parse_m_axi_interfaces fs path = Ok l ->
  map name l = map snd (findall re_wdata text).
Proof.
  intros F H. rewrite (parse_m_axi_interfaces_unfold fs path text F) in H.
  now apply interfaces_names in H.
Qed.

Lemma interfaces_follow_data_buses_witness :
  map name [mkAXI (txt "a") 512 32; mkAXI (txt "b") 256 64]
  = map snd (findall re_wdata top_two).
Proof.
  apply (interfaces_follow_data_buses fs_top_two (txt "top.v") top_two);
    vm_compute; reflexivity.
Defined.

Lemma interfaces_ok_lookup (n2a p2v : dict str) (data : list (str * str))
      (acc l : list AXI) (m : str * str) :
  for_fold data (add_interface n2a p2v) acc = Ok l ->
  In m data -> dict_get (snd m) n2a <> None.
Proof.
  intros H I G.
  destruct (interfaces_missing n2a p2v data acc m I G)
    as [(n & _ & _ & R)|[t R]]; rewrite R in H; discriminate.
Qed.

(** X9: the name of every returned interface is a non-empty word that
    stands in the text both as [m_axi_<name>_WDATA] and as
    [m_axi_<name>_ARADDR]. *)
Theorem interface_names_are_declared (fs : filesystem) (path text : str)
        (l : list AXI) (axi : AXI) :
  fs path = Some text ->
  parse_m_axi_interfaces fs path = Ok l ->
  In axi l ->
  run_of isword (name axi) /\
  contains (txt "m_axi_" ++ name axi ++ txt "_WDATA") text = true /\
  contains (txt "m_axi_" ++ name axi ++ txt "_ARADDR") text = true.
Proof.
  intros F H I.
  pose proof (interfaces_follow_data_buses fs path text l F H) as N.
  rewrite (parse_m_axi_interfaces_unfold fs path text F) in H.
  assert (J : In (name axi) (map snd (findall re_wdata text))).
  { rewrite <- N. now apply in_map. }
  apply in_map_iff in J. destruct J as ([w n] & E & J). cbn [snd] in E.
  subst n.
  pose proof (interfaces_ok_lookup _ _ _ _ _ _ H J) as G. cbn [snd] in G.
  apply findall_sound, found_m_axi in J. destruct J as (_ & R & C).
  split; [exact R|]. split; [exact C|].
  destruct (in_dec (list_eq_dec ascii_dec) (name axi)
                   (map snd (findall re_araddr text))) as [A|A].
  - apply in_map_iff in A. destruct A as ([a n] & E & A). cbn [snd] in E.
    subst n. apply findall_sound, found_m_axi in A. apply A.
  - apply name_to_addr_width_none in A. contradiction.
Qed.

Lemma interface_names_are_declared_witness :
  run_of isword (txt "b") /\
  contains (txt "m_axi_" ++ txt "b" ++ txt "_WDATA") top_two = true /\
  contains (txt "m_axi_" ++ txt "b" ++ txt "_ARADDR") top_two = true.
Proof.
  apply (interface_names_are_declared fs_top_two (txt "top.v") top_two
           [mkAXI (txt "a") 512 32; mkAXI (txt "b") 256 64]
           (mkAXI (txt "b") 256 64)).
  - reflexivity.
  - vm_compute. reflexivity.
  - right. now left.
Defined.

(** X10: in the parameter table no name is bound twice, and every name
    and every value is a non-empty text without white space; so the
    replacement of lines 80-82 never looks for an empty name. *)
Theorem parameter_table_entries (top_rtl pname value : str) :
  In (pname, value) (param_to_value top_rtl) ->
  run_of notspace pname /\ run_of notspace value /\
  NoDup (map fst (param_to_value top_rtl)).
Proof.
  intros I. unfold param_to_value in *.
  apply dict_of_In, findall_sound, found_parameter in I.
  destruct I as [P V]. split; [exact P|]. split; [exact V|].
  apply dict_of_NoDup.
Qed.

Lemma parameter_table_entries_witness :
  run_of notspace (txt "W") /\ run_of notspace (txt "31") /\
  NoDup (map fst (param_to_value top_w_twice)).
Proof.
  apply (parameter_table_entries top_w_twice (txt "W") (txt "31")).
  vm_compute. now left.
Defined.

(** X12: when an interface name is declared in several ARADDR buses, the
    bound looked up for it is that of the last declaration in the text. *)
Theorem address_bound_of_last_declaration (top_rtl n a : str)
        (before after : list (str * str)) :
  findall re_araddr top_rtl = before ++ (a, n) :: after ->
  ~ In n (map snd after) ->
  dict_get n (name_to_addr_width top_rtl) = Some a.
Proof.
  intros E N. unfold name_to_addr_width. rewrite E, map_app. cbn [map fst snd].
  apply dict_of_last. now rewrite map_map.
Qed.

Lemma address_bound_of_last_declaration_witness :
  dict_get (txt "a") (name_to_addr_width top_two) = Some (txt "31") /\
  parse_m_axi_interfaces fs_top_two (txt "top.v")
  = Ok [mkAXI (txt "a") 512 32; mkAXI (txt "b") 256 64].
Proof.
  split; [|vm_compute; reflexivity].
  apply (address_bound_of_last_declaration top_two (txt "a") (txt "31")
           [(txt "63", txt "a")] [(txt "63", txt "b")]).
  - vm_compute. reflexivity.
  - vm_compute. intros [E|[]]. discriminate E.
Defined.

Lemma decimal_value_nonneg (d : str) : 0 <= decimal_value d.
Proof.
  unfold decimal_value.
  assert (G : forall acc, 0 <= acc ->
             0 <= fold_left (fun acc c => 10 * acc + digit_value c) d acc).
  { induction d as [|c d IH]; intros acc A; [exact A|].
    cbn [fold_left]. apply IH. unfold digit_value. lia. }
  apply G. lia.
Qed.

Lemma interfaces_literal (n2a p2v : dict str) (data : list (str * str))
      (acc : list AXI) :
  (forall w n, In (w, n) data ->
     is_decimal_literal w = true /\
     exists a, dict_get n n2a = Some a /\ is_decimal_literal a = true /\
               forall p v, In (p, v) p2v ->
                           contains p w = false /\ contains p a = false) ->
  for_fold data (add_interface n2a p2v) acc
  = Ok (acc ++ map (literal_interface n2a) data).
Proof.
  revert acc. induction data as [|[w n] data IH]; intros acc H.
  - cbn. now rewrite app_nil_r.
  - destruct (H w n (or_introl eq_refl)) as (Lw & a & G & La & P).
    cbn [for_fold]. unfold add_interface at 1, dict_lookup. cbn [fst snd].
    rewrite G. cbn [bind]. rewrite substitute_both_split. cbn [fst snd].
    rewrite !substitute_absent by (intros p v I; now apply (P p v)).
    rewrite (py_eval_decimal w Lw), (py_eval_decimal a La). cbn [bind].
    rewrite IH by (intros w' n' I; apply H; now right).
    rewrite <- app_assoc. cbn [app map]. unfold literal_interface at 2.
    cbn [fst snd]. now rewrite G.
Qed.

(** X13: when every data bus has an address bus of its name, all bounds
    are decimal literals and no parameter name occurs in them, the
    extraction returns, with one interface for each data bus, its widths
    the bounds plus one, so at least one. *)
Theorem literal_bounds_give_widths (fs : filesystem) (path text : str) :
  fs path = Some text ->
  (forall w n, In (w, n) (findall re_wdata text) ->
     is_decimal_literal w = true /\
     exists a, dict_get n (name_to_addr_width text) = Some a /\
               is_decimal_literal a = true /\
               forall p v, In (p, v) (param_to_value text) ->
                           contains p w = false /\ contains p a = false) ->
  parse_m_axi_interfaces fs path
  = Ok (map (literal_interface (name_to_addr_width text))
            (findall re_wdata text)) /\
  forall axi,
    In axi (map (literal_interface (name_to_addr_width text))
                (findall re_wdata text)) ->
    1 <= data_width axi /\ 1 <= addr_width axi.
Proof.
  intros F H. split.
  - rewrite (parse_m_axi_interfaces_unfold fs path text F).
    now rewrite (interfaces_literal _ _ _ [] H).
  - intros axi I. apply in_map_iff in I. destruct I as ([w n] & <- & I).
    destruct (H w n I) as (_ & a & G & _ & _).
    unfold literal_interface. cbn [fst snd data_width addr_width].
    rewrite G. pose proof (decimal_value_nonneg w).
    pose proof (decimal_value_nonneg a). lia.
Qed.

Lemma literal_bounds_give_widths_witness :
  parse_m_axi_interfaces fs_top_two (txt "top.v")
  = Ok (map (literal_interface (name_to_addr_width top_two))
            (findall re_wdata top_two)) /\
  forall axi,
    In axi (map (literal_interface (name_to_addr_width top_two))
                (findall re_wdata top_two)) ->
    1 <= data_width axi /\ 1 <= addr_width axi.
Proof.
  apply (literal_bounds_give_widths fs_top_two (txt "top.v") top_two eq_refl).
  intros w n I. vm_compute in I.
  destruct I as [E|[E|[]]]; injection E as <- <-;
    (split; [vm_compute; reflexivity|]); eexists;
    (split; [vm_compute; reflexivity|]);
    (split; [vm_compute; reflexivity|]);
    intros p v J; vm_compute in J; destruct J as [J|[]];
    injection J as <- <-; split; vm_compute; reflexivity.
Defined.

(** ** The testbench text *)

Section AssemblerResult.

Variable get_begin : str.
Variable get_axi_ram_inst : AXI -> str.
Variable get_s_axi_control : str.
Variable get_dut : str -> list AXI -> str.
Variable get_test_signals : RegisterMap -> dict str -> list AXI -> result str.
Variable get_end : str.

(** X14: the assembler returns a text exactly when the register map is
    extracted and the stimulus block is produced, and the text is then
    the header, one memory block for each interface in the order of the
    list, the control block, the block of the design under test, the
    stimulus block and the closing block, each but the stimulus block
    followed by a newline. *)
Theorem get_cosim_tb_result (fs : filesystem) (top_name path : str)
        (axi_list : list AXI) (scalar_to_val : dict str) (tb : str) :
  get_cosim_tb get_begin get_axi_ram_inst get_s_axi_control get_dut
    get_test_signals get_end fs top_name path axi_list scalar_to_val
  = Ok tb <->
  exists m signals,
    parse_register_addr fs path = Ok m /\
    get_test_signals m scalar_to_val axi_list = Ok signals /\
    tb = get_begin ++ newline
         ++ flat_map (fun axi => get_axi_ram_inst axi ++ newline) axi_list
         ++ get_s_axi_control ++ newline
         ++ get_dut top_name axi_list ++ newline
         ++ signals
         ++ get_end ++ newline.
Proof.
  unfold get_cosim_tb. split.
  - destruct (parse_register_addr fs path) as [m|e]; cbn [bind];
      [|discriminate].
    destruct (get_test_signals m scalar_to_val axi_list) as [signals|e]
      eqn:S; cbn [bind]; [|discriminate].
    intros H. injection H as <-. exists m, signals.
    split; [reflexivity|]. split; [exact S|].
    rewrite ram_blocks. cbn [app]. now rewrite <- !app_assoc.
  - intros (m & signals & -> & S & ->). cbn [bind]. rewrite S. cbn [bind].
    rewrite ram_blocks. cbn [app]. now rewrite <- !app_assoc.
Qed.

End AssemblerResult.

Lemma get_cosim_tb_result_witness :
  get_cosim_tb (txt "begin") demo_ram (txt "control") demo_dut demo_signals
    (txt "end") fs_ctrl_only (txt "top") (txt "ctrl.v")
    [mkAXI (txt "foo") 64 32] []
  = Ok (file_of_lines
          [ "begin"; "ram foo"; "control"; "dut top";
            "a 'h10 'h14"; "n 'h1c"; "end" ]%string).
Proof.
  apply (proj2 (get_cosim_tb_result (txt "begin") demo_ram (txt "control")
                  demo_dut demo_signals (txt "end") fs_ctrl_only (txt "top")
                  (txt "ctrl.v") [mkAXI (txt "foo") 64 32] [] _)).
  exists [(txt "a", [txt "'h10"; txt "'h14"]); (txt "n", [txt "'h1c"])].
  exists (file_of_lines [ "a 'h10 'h14"; "n 'h1c" ]%string).
  repeat split; vm_compute; reflexivity.
Defined.

(** ** The script *)

Section ScriptProperties.

Context {Size : Type}.
Variable w : Collaborators Size.
Variable args : Args.
Variable config : CosimConfig Size.
Variable fs : filesystem.

Lemma main_unfold :
  main w args config fs
  = (axi_list <<- lift (parse_m_axi_interfaces fs (top_path_of config)) ;;
     tb <<- lift (testbench_of w config fs axi_list) ;;
     emit (System (txt "mkdir -p " ++ tb_output_dir args)) >>>
     write_file w (tb_output_dir args ++ txt "/tb.v") tb >>>
     for_each_prog axi_list (write_ram_module w args config) >>>
     emit (System (txt "mkdir -p " ++ tb_output_dir args ++ txt "/run")) >>>
     emit (Warning (waveform_warning args)) >>>
     write_file w (tb_output_dir args ++ txt "/run/run_cosim.tcl")
       (join newline (vivado_tcl w config (tb_output_dir args)
                                 (save_waveform args))) >>>
     if launch_simulation args
     then emit (System (vivado_command args))
     else ret tt).
Proof. reflexivity. Qed.

Lemma write_ram_module_ok (axi : AXI) (e : event) (tr : list event) :
  (forall tr p, opens w tr p = true) ->
  ram_write w args config axi = Some e ->
  write_ram_module w args config axi tr = (tr ++ [e], Ok tt).
Proof.
  intros O. unfold ram_write, write_ram_module, bind_prog, lift, dict_lookup.
  destruct (dict_get (name axi) (cfg_axi_to_data_file config)) as [d|];
    [|discriminate].
  destruct (dict_get (name axi) (cfg_axi_to_c_array_size config)) as [s|];
    [|discriminate].
  intros H. injection H as <-. unfold write_file. now rewrite O.
Qed.

Lemma write_ram_module_missing (axi : AXI) (tr : list event) :
  ram_write w args config axi = None ->
  write_ram_module w args config axi tr = (tr, Raise (KeyError (name axi))).
Proof.
  unfold ram_write, write_ram_module, bind_prog, lift, dict_lookup.
  destruct (dict_get (name axi) (cfg_axi_to_data_file config)) as [d|];
    [|reflexivity].
  destruct (dict_get (name axi) (cfg_axi_to_c_array_size config)) as [s|];
    [discriminate | reflexivity].
Qed.

Lemma ram_loop_ok (axi_list : list AXI) (tr : list event) :
  (forall tr p, opens w tr p = true) ->
  (forall axi, In axi axi_list -> ram_write w args config axi <> None) ->
  for_each_prog axi_list (write_ram_module w args config) tr
  = (tr ++ ram_writes w args config axi_list, Ok tt).
Proof.
  intros O. revert tr. induction axi_list as [|axi l IH]; intros tr H.
  - cbn. now rewrite app_nil_r.
  - cbn [for_each_prog]. unfold bind_prog at 1.
    destruct (ram_write w args config axi) as [e|] eqn:E;
      [|exfalso; apply (H axi); [now left | exact E]].
    rewrite (write_ram_module_ok axi e tr O E).
    rewrite IH by (intros x I; apply H; now right).
    unfold ram_writes. cbn [flat_map]. rewrite E.
    now rewrite <- app_assoc.
Qed.

Lemma ram_loop_missing (before after : list AXI) (axi : AXI)
      (tr : list event) :
  (forall tr p, opens w tr p = true) ->
  (forall x, In x before -> ram_write w args config x <> None) ->
  ram_write w args config axi = None ->
  for_each_prog (before ++ axi :: after) (write_ram_module w args config) tr
  = (tr ++ ram_writes w args config before, Raise (KeyError (name axi))).
Proof.
  intros O. revert tr. induction before as [|x l IH]; intros tr H N.
  - cbn [app for_each_prog]. unfold bind_prog.
    rewrite (write_ram_module_missing axi tr N). cbn.
    now rewrite app_nil_r.
  - cbn [app for_each_prog]. unfold bind_prog at 1.
    destruct (ram_write w args config x) as [e|] eqn:E;
      [|exfalso; apply (H x); [now left | exact E]].
    rewrite (write_ram_module_ok x e tr O E).
    rewrite IH by (try exact N; intros y I; apply H; now right).
    unfold ram_writes. cbn [flat_map]. rewrite E.
    now rewrite <- app_assoc.
Qed.

Lemma main_trace (axi_list : list AXI) (tb : str) :
  parse_m_axi_interfaces fs (top_path_of config) = Ok axi_list ->
  testbench_of w config fs axi_list = Ok tb ->
  (forall tr p, opens w tr p = true) ->
  (forall axi, In axi axi_list -> ram_write w args config axi <> None) ->
  main w args config fs []
  = (testbench_events args tb ++ ram_writes w args config axi_list
     ++ run_events w args config, Ok tt).
Proof.
  intros P T O R. rewrite main_unfold.
  unfold bind_prog at 1, lift at 1. rewrite P.
  unfold bind_prog at 1, lift at 1. rewrite T.
  unfold bind_prog at 1, emit at 1. unfold bind_prog at 1, write_file at 1.
  rewrite O. unfold bind_prog at 1. rewrite (ram_loop_ok _ _ O R).
  unfold bind_prog at 1, emit at 1. unfold bind_prog at 1, emit at 1.
  unfold bind_prog at 1, write_file at 1. rewrite O.
  unfold testbench_events, run_events.
  destruct (launch_simulation args); unfold emit, ret; cbn [app];
    rewrite <- !app_assoc; cbn [app]; try rewrite app_nil_r; reflexivity.
Qed.

(** X16: when every data bus of the top-level file has an address bus of
    its name, all bounds are decimal literals and no parameter name
    occurs in them, so that every text given to [eval] is a decimal
    literal, and when the testbench is assembled, the configuration has
    a data file and a size for every interface and every file opens,
    the script ends without exception, having made the output
    directory, written the testbench, one memory model for each
    interface in the order of the data buses, made the run directory,
    given the waveform warning, written the run script and, if asked
    to, started the simulator, in this order and nothing else. *)
Theorem main_success (text tb : str) :
  fs (top_path_of config) = Some text ->
  (forall d n, In (d, n) (findall re_wdata text) ->
     is_decimal_literal d = true /\
     exists a, dict_get n (name_to_addr_width text) = Some a /\
               is_decimal_literal a = true /\
               forall p v, In (p, v) (param_to_value text) ->
                           contains p d = false /\ contains p a = false) ->
  testbench_of w config fs (literal_interfaces text) = Ok tb ->
  (forall tr p, opens w tr p = true) ->
  (forall axi, In axi (literal_interfaces text) ->
               ram_write w args config axi <> None) ->
  main w args config fs []
  = (testbench_events args tb
     ++ ram_writes w args config (literal_interfaces text)
     ++ run_events w args config, Ok tt).
Proof.
  intros F L T O R. apply main_trace; try assumption.
  rewrite (parse_m_axi_interfaces_unfold fs _ text F).
  now rewrite (interfaces_literal _ _ _ [] L).
Qed.

(** X17: when the configuration lacks the data file or the size of an
    interface, the script ends in the lookup failure for its name after
    it has written the testbench and the memory models of the interfaces
    before it; the run script is not written. *)
Theorem main_partial_output (before after : list AXI) (axi : AXI) (tb : str) :
  parse_m_axi_interfaces fs (top_path_of config)
  = Ok (before ++ axi :: after) ->
  testbench_of w config fs (before ++ axi :: after) = Ok tb ->
  (forall tr p, opens w tr p = true) ->
  (forall x, In x before -> ram_write w args config x <> None) ->
  ram_write w args config axi = None ->
  main w args config fs []
  = (testbench_events args tb ++ ram_writes w args config before,
     Raise (KeyError (name axi))).
Proof.
  intros P T O R N. rewrite main_unfold.
  unfold bind_prog at 1, lift at 1. rewrite P.
  unfold bind_prog at 1, lift at 1. rewrite T.
  unfold bind_prog at 1, emit at 1. unfold bind_prog at 1, write_file at 1.
  rewrite O. unfold bind_prog at 1.
  now rewrite (ram_loop_missing before after axi _ O R N).
Qed.

End ScriptProperties.

Lemma main_success_witness :
  main demo_world demo_args demo_config fs_project []
  = ([ System (txt "mkdir -p out");
       WriteFile (txt "out/tb.v")
         (file_of_lines
            [ "begin"; "ram a"; "ram b"; "control"; "dut top";
              "a 'h10 'h14"; "n 'h1c"; "end" ]%string);
       WriteFile (txt "out/axi_ram_a.v") (txt "ram a a.bin");
       WriteFile (txt "out/axi_ram_b.v") (txt "ram b b.bin");
       System (txt "mkdir -p out/run");
       Warning (txt "Waveform is not saved. "
                ++ txt "Use --save_waveform to save the simulation waveform.");
       WriteFile (txt "out/run/run_cosim.tcl")
                 (txt "open" ++ newline ++ txt "run") ],
     Ok tt).
Proof.
  rewrite (main_success demo_world demo_args demo_config fs_project top_two
             (file_of_lines
                [ "begin"; "ram a"; "ram b"; "control"; "dut top";
                  "a 'h10 'h14"; "n 'h1c"; "end" ]%string)).
  - vm_compute. reflexivity.
  - vm_compute. reflexivity.
  - intros d n I. vm_compute in I.
    destruct I as [E|[E|[]]]; injection E as <- <-;
      (split; [vm_compute; reflexivity|]); eexists;
      (split; [vm_compute; reflexivity|]);
      (split; [vm_compute; reflexivity|]);
      intros p v J; vm_compute in J; destruct J as [J|[]];
      injection J as <- <-; split; vm_compute; reflexivity.
  - vm_compute. reflexivity.
  - reflexivity.
  - intros axi I. vm_compute in I.
    destruct I as [<-|[<-|[]]]; vm_compute; discriminate.
Defined.

Lemma main_partial_output_witness :
  main demo_world demo_args demo_config_no_b fs_project []
  = ([ System (txt "mkdir -p out");
       WriteFile (txt "out/tb.v")
         (file_of_lines
            [ "begin"; "ram a"; "ram b"; "control"; "dut top";
              "a 'h10 'h14"; "n 'h1c"; "end" ]%string);
       WriteFile (txt "out/axi_ram_a.v") (txt "ram a a.bin") ],
     Raise (KeyError (txt "b"))).
Proof.
  rewrite (main_partial_output demo_world demo_args demo_config_no_b
             fs_project [mkAXI (txt "a") 512 32] [] (mkAXI (txt "b") 256 64)
             (file_of_lines
                [ "begin"; "ram a"; "ram b"; "control"; "dut top";
                  "a 'h10 'h14"; "n 'h1c"; "end" ]%string)).
  - vm_compute. reflexivity.
  - vm_compute. reflexivity.
  - vm_compute. reflexivity.
  - reflexivity.
  - intros x [<-|[]]. vm_compute. discriminate.
  - vm_compute. reflexivity.
Defined.

(** ** Lines that are not comments *)

Local Open Scope nat_scope.

Lemma readlines_from_line (cur l rest : str) :
  one_line l = true ->
  readlines_from cur (l ++ newline ++ rest)
  = (rev cur ++ l ++ newline) :: readlines_from [] rest.
Proof.
  revert cur. induction l as [|c l IH]; intros cur H.
  - reflexivity.
  - cbn [one_line forallb] in H. apply andb_prop in H. destruct H as [Hc Hl].
    apply negb_true_iff in Hc. cbn [app readlines_from]. rewrite Hc.
    rewrite (IH (c :: cur) Hl). cbn [rev]. now rewrite <- app_assoc.
Qed.

(** Reading back the lines of a text made of lines. *)
Lemma readlines_text_of_lines (ls : list str) :
  forallb one_line ls = true ->
  readlines (text_of_lines ls) = map (fun l => l ++ newline) ls.
Proof.
  unfold readlines. induction ls as [|l ls IH]; intros H; [reflexivity|].
  cbn [forallb] in H. apply andb_prop in H. destruct H as [Hl Hls].
  change (text_of_lines (l :: ls)) with ((l ++ newline) ++ text_of_lines ls).
  rewrite <- app_assoc, (readlines_from_line [] l _ Hl). cbn [rev app map].
  now rewrite (IH Hls).
Qed.

Lemma comment_lines_text_of_lines (ls : list str) :
  forallb one_line ls = true ->
  comment_lines (readlines (text_of_lines ls))
  = map (fun l => l ++ newline) (filter is_comment ls).
Proof.
  intros H. rewrite (readlines_text_of_lines ls H). unfold comment_lines.
  clear H. induction ls as [|l ls IH]; [reflexivity|].
  cbn [map filter]. fold (is_comment l).
  destruct (is_comment l); cbn [map]; now rewrite IH.
Qed.

Lemma filter_one_line (f : str -> bool) (ls : list str) :
  forallb one_line ls = true -> forallb one_line (filter f ls) = true.
Proof.
  intros H. rewrite forallb_forall in *. intros l I.
  apply filter_In in I. now apply H.
Qed.

Lemma filter_twice {A} (f : A -> bool) (xs : list A) :
  filter f (filter f xs) = filter f xs.
Proof.
  induction xs as [|x xs IH]; [reflexivity|].
  cbn [filter]. destruct (f x) eqn:E; [|exact IH].
  cbn [filter]. now rewrite E, IH.
Qed.

(** X19: only the comment lines of the control file matter: the file
    left when every line whose stripped text does not start with [//]
    is taken out gives the same register map, or the same exception. *)
Theorem only_comment_lines_matter (fs1 fs2 : filesystem) (p1 p2 : str)
        (ls : list str) :
  forallb one_line ls = true ->
  fs1 p1 = Some (text_of_lines ls) ->
  fs2 p2 = Some (text_of_lines (filter is_comment ls)) ->
  parse_register_addr fs1 p1 = parse_register_addr fs2 p2.
Proof.
  intros H F1 F2. unfold parse_register_addr, read_file.
  rewrite F1, F2. cbn [bind].
  rewrite (comment_lines_text_of_lines ls H).
  rewrite (comment_lines_text_of_lines _ (filter_one_line is_comment ls H)).
  now rewrite filter_twice.
Qed.

Lemma only_comment_lines_matter_witness :
  parse_register_addr
    (one_file (txt "ctrl.v")
       (text_of_lines [txt "// 0x10 : Data signal of a";
                       txt "assign x = 1; // 0x14 : Data signal of a"]))
    (txt "ctrl.v")
  = parse_register_addr
      (one_file (txt "ctrl.v")
         (text_of_lines [txt "// 0x10 : Data signal of a"]))
      (txt "ctrl.v").
Proof.
  apply (only_comment_lines_matter _ _ _ _
           [txt "// 0x10 : Data signal of a";
            txt "assign x = 1; // 0x14 : Data signal of a"]);
    vm_compute; reflexivity.
Defined.

(** * The register map and the lines of the file *)

(** ** Leading and trailing white space *)

Lemma lstrip_suffix (t : str) :
  exists ws, t = ws ++ lstrip t.
Proof.
  induction t as [|c t [ws IH]]; [now exists []|].
  cbn [lstrip]. destruct (isspace c).
  - exists (c :: ws). cbn [app]. now rewrite <- IH.
  - now exists [].
Qed.

Lemma lstrip_keeps (x : str) (c : ascii) (y : str) :
  isspace c = false -> exists x', lstrip (x ++ c :: y) = x' ++ c :: y.
Proof.
  intros C. induction x as [|d x [x' IH]].
  - exists []. cbn. now rewrite C.
  - cbn [app lstrip]. destruct (isspace d).
    + now exists x'.
    + now exists (d :: x).
Qed.

Lemma startswith_prefix (p a b : str) :
  startswith p a = true -> startswith p (a ++ b) = true.
Proof.
  revert a. induction p as [|c p IH]; intros a H; [reflexivity|].
  destruct a as [|d a]; [discriminate|].
  cbn [startswith app] in *. apply andb_prop in H. destruct H as [E H].
  now rewrite E, (IH a H).
Qed.

(** The test of line 47 looks at what follows the leading white space:
    the trailing white space that [strip] takes away comes after the
    comment mark. *)
Lemma startswith_comment_strip (line : str) :
  startswith (txt "//") (strip line) = starts_comment line.
Proof.
  unfold strip, starts_comment. generalize (lstrip line) as y. intros y.
  destruct (lstrip_suffix (rev y)) as [ws E].
  assert (P : y = rev (lstrip (rev y)) ++ rev ws).
  { rewrite <- rev_app_distr, <- E. symmetry. apply rev_involutive. }
  destruct (startswith (txt "//") y) eqn:S.
  - destruct y as [|c1 [|c2 y]]; [discriminate S | |].
    { cbn in S. rewrite andb_false_r in S. discriminate S. }
    cbn [txt list_ascii_of_string startswith] in S.
    apply andb_prop in S. destruct S as [E1 S].
    apply andb_prop in S. destruct S as [E2 _].
    apply Ascii.eqb_eq in E1, E2. subst c1 c2.
    cbn [rev]. rewrite <- app_assoc. cbn [app].
    destruct (lstrip_keeps (rev y) "/" ["/"%char] eq_refl) as [x' ->].
    rewrite rev_app_distr. reflexivity.
  - destruct (startswith (txt "//") (rev (lstrip (rev y)))) eqn:S2;
      [|reflexivity].
    apply (startswith_prefix _ _ (rev ws)) in S2. rewrite <- P in S2.
    congruence.
Qed.

(** ** The longest name *)

(** When the rest of the pattern accepts whatever follows, a repetition
    takes all the characters of its class. *)
Lemma star_total {R} (p : ascii -> bool) (t : str) (k : str -> option R) :
  (forall b, k b <> None) ->
  exists a b, t = a ++ b /\ forallb p a = true /\ stops p b = true /\
              star p t k = k b.
Proof.
  intros K. induction t as [|c t (a & b & -> & A & B & S)].
  - now exists [], [].
  - cbn [star]. destruct (p c) eqn:P.
    + exists (c :: a), b. cbn [forallb app]. rewrite P, A, S.
      repeat split; try assumption.
      destruct (k b) eqn:E; [reflexivity | now apply K in E].
    + exists [], (c :: a ++ b). cbn [stops forallb app]. rewrite P.
      now repeat split.
Qed.

(** A match of the pattern of line 53 at the start of a text: the name
    it captures is followed by no word character. *)
Lemma match_here_data_signal (t g1 g2 : str) (n : nat) :
  match_here re_data_signal t = Some (g1, g2, n) ->
  exists post,
    t = g1 ++ txt " : Data signal of " ++ g2 ++ post /\
    stops isword post = true.
Proof.
  unfold match_here, re_data_signal, Seq. cbn [fold_right].
  set (kf := fun (t' : str) (g : groups) =>
               Some (g 1, g 2, length t - length t')).
  change (rmatch (Cat (Group 1 (Cat (Str "0x") (Plus isword)))
                      (Cat (Str " : Data signal of ")
                           (Cat (Group 2 (Plus isword)) Eps)))
                 t no_groups kf)
    with (rmatch (Cat (Group 1 (Cat (Str "0x") (Plus isword)))
                      (Str " : Data signal of "))
                 t no_groups
                 (fun t' g' => rmatch (Cat (Group 2 (Plus isword)) Eps)
                                      t' g' kf)).
  intros H. apply rmatch_sound in H.
  destruct H as (a & b & g' & -> & M & H).
  invert_matches.
  match goal with
  | W : run_of isword ?w |- _ =>
      set (addr := txt "0x" ++ w) in *;
      set (g := set_group 1 addr no_groups) in *
  end.
  cbn [rmatch Plus] in H. destruct b as [|c b]; [discriminate H|].
  destruct (isword c) eqn:C; [|discriminate H].
  destruct (star_total isword b
              (fun t' => kf t' (set_group 2
                                  (firstn (length (c :: b) - length t')
                                          (c :: b)) g)))
    as (a2 & post & -> & A2 & B & S); [intros b0; discriminate|].
  rewrite S in H. unfold kf in H.
  change (c :: a2 ++ post) with ((c :: a2) ++ post) in H.
  rewrite firstn_matched in H. injection H as <- <- _.
  exists post. split; [|exact B].
  change (set_group 2 (c :: a2) g 1) with addr.
  change (set_group 2 (c :: a2) g 2) with (c :: a2).
  rewrite <- !app_assoc. reflexivity.
Qed.

Lemma re_search_data_signal (line g1 g2 : str) :
  re_search re_data_signal line = Some (g1, g2) ->
  exists pre post,
    line = pre ++ g1 ++ txt " : Data signal of " ++ g2 ++ post /\
    stops isword post = true.
Proof.
  induction line as [|c line IH]; cbn [re_search];
    destruct (match_here re_data_signal _) as [[[h1 h2] n]|] eqn:M;
    intros H; try discriminate.
  - injection H as <- <-. apply match_here_data_signal in M.
    destruct M as (post & E & B). now exists [], post.
  - destruct (IH H) as (pre & post & -> & B). now exists (c :: pre), post.
Qed.

Lemma skipn_length_app {A} (a b : list A) : skipn (length a) (a ++ b) = b.
Proof. induction a as [|x a IH]; [reflexivity | exact IH]. Qed.

Lemma occurs_as_word_app (key pre post : str) :
  stops isword post = true -> occurs_as_word key (pre ++ key ++ post) = true.
Proof.
  intros B. induction pre as [|c pre IH].
  - cbn [app]. destruct (key ++ post) eqn:E; cbn [occurs_as_word];
      rewrite <- E, startswith_app, skipn_length_app, B; reflexivity.
  - cbn [app occurs_as_word]. rewrite IH. apply orb_true_r.
Qed.

(** A line whose name, as the pattern captures it, is [arg] mentions
    [arg]. *)
Lemma names_arg_mentions (arg line : str) :
  names_arg arg line = true -> mentions arg line = true.
Proof.
  unfold names_arg, mentions.
  destruct (re_search re_data_signal line) as [[g1 g2]|] eqn:S;
    [|discriminate].
  intros E. apply str_eqb_eq in E. subst g2.
  apply re_search_data_signal in S. destruct S as (pre & post & -> & B).
  rewrite (app_assoc (txt " : Data signal of ") arg post).
  rewrite (app_assoc pre g1 _).
  now apply occurs_as_word_app.
Qed.

(** ** The lines that count *)

Lemma filter_and {A} (f g : A -> bool) (xs : list A) :
  filter f (filter g xs) = filter (fun x => g x && f x) xs.
Proof.
  induction xs as [|x xs IH]; [reflexivity|].
  cbn [filter]. destruct (g x); cbn [andb filter]; now rewrite IH.
Qed.

Lemma line_of_data_signal (arg : str) (l : upstream_line) :
  contains (txt "Data signal") (line_of arg l) = true.
Proof.
  unfold line_of.
  change (txt " : Data signal of ")
    with (txt " : " ++ txt "Data signal" ++ txt " of ").
  rewrite <- !app_assoc.
  rewrite (app_assoc (line_pre l)), (app_assoc (_ ++ _) (line_digits l)).
  rewrite (app_assoc (_ ++ _) (txt " : ")).
  apply contains_app.
Qed.

(** The retained lines that add an address to the list of [arg] are the
    lines that count for [arg], when those have the upstream form. *)
Lemma adding_lines (arg : str) (lines : list upstream_line) (file : list str) :
  arg <> [] -> forallb isword arg = true ->
  forallb well_formed lines = true ->
  filter (counts_for arg) file = map (line_of arg) lines ->
  filter (adds_to arg) (comment_lines file) = map (line_of arg) lines.
Proof.
  intros N A W E. rewrite <- E. unfold comment_lines. rewrite filter_and.
  apply filter_ext_in. intros line I.
  rewrite startswith_comment_strip. unfold counts_for.
  destruct (starts_comment line) eqn:C; cbn [andb]; [|reflexivity].
  unfold adds_to, is_data_signal_line.
  destruct (mentions arg line && contains (txt " 0x") line) eqn:G.
  - apply andb_prop in G. destruct G as [M X].
    assert (J : In line (filter (counts_for arg) file)).
    { apply filter_In. split; [exact I|]. unfold counts_for.
      now rewrite C, M, X. }
    rewrite E in J. apply in_map_iff in J. destruct J as (l & <- & J).
    rewrite forallb_forall in W. specialize (W l J).
    rewrite X, line_of_data_signal. cbn [andb]. unfold names_arg.
    rewrite (re_search_line_of arg l W N A). apply str_eqb_refl.
  - destruct (contains (txt " 0x") line) eqn:X; cbn [andb]; [|reflexivity].
    rewrite andb_true_r in G.
    destruct (names_arg arg line) eqn:NA; [|apply andb_false_r].
    apply names_arg_mentions in NA. congruence.
Qed.

(** C3, as the code has it: when the extraction returns a map, and the
    lines of the file that count for the argument [arg] (lines that
    start with [//] after their leading white space, say
    [ : Data signal of arg] and hold a blank followed by [0x]) are [N]
    lines of the upstream form, an address [0x] and hexadecimal digits
    with no digit zero before it, followed by [ : Data signal of arg],
    then the map binds [arg] to exactly the [N] addresses, in the order
    of the file, each with its [0x] rewritten into ['h]; when there is no
    such line, [arg] is no key of the map. Lines that are not comments,
    and comment lines without a blank before [0x], add nothing. *)
Theorem register_map_of_upstream_lines (fs : filesystem)
        (path text arg : str) (m : RegisterMap) (lines : list upstream_line) :
  fs path = Some text ->
  parse_register_addr fs path = Ok m ->
  arg <> [] -> forallb isword arg = true ->
  forallb well_formed lines = true ->
  filter (counts_for arg) (readlines text) = map (line_of arg) lines ->
  dict_get arg m = match lines with
                   | [] => None
                   | _ :: _ => Some (map literal_of lines)
                   end.
Proof.
  intros F H N A W E. apply parse_register_addr_ok_inv in H.
  destruct H as (text' & F' & _ & L). rewrite F in F'. injection F' as <-.
  destruct (record_loop_get _ [] (record_loop_ok_match _ _ _ L))
    as (m' & L' & G).
  rewrite L in L'. injection L' as <-.
  rewrite G, (adding_lines arg lines (readlines text) N A W E), map_map.
  cbn [dict_get extend].
  rewrite (map_ext_in (fun l => address_token (line_of arg l)) literal_of).
  - destruct lines; reflexivity.
  - intros l I. rewrite forallb_forall in W.
    now apply address_token_line_of; [apply W | |].
Qed.

Lemma register_map_of_upstream_lines_witness :
  readlines ctrl_mixed
  = readlines (file_of_lines ctrl_header)
    ++ [ txt "// 0x10 : Data signal of a" ++ newline;
         txt "assign x = 1; // 0x18 : Data signal of a" ++ newline;
         txt "//0x1c : Data signal of a" ++ newline;
         txt "// 0x20 : Data signal of ab" ++ newline;
         txt "   // 0x14 : Data signal of a" ++ newline ] /\
  dict_get (txt "a") [(txt "a", [txt "'h10"; txt "'h14"]);
                      (txt "ab", [txt "'h20"])]
  = Some [txt "'h10"; txt "'h14"].
Proof.
  split; [vm_compute; reflexivity|].
  apply (register_map_of_upstream_lines
           (one_file (txt "ctrl.v") ctrl_mixed) (txt "ctrl.v") ctrl_mixed
           (txt "a") _
           [ mkLine (txt "// ") (txt "10") newline;
             mkLine (txt "   // ") (txt "14") newline ]).
  - reflexivity.
  - vm_compute. reflexivity.
  - discriminate.
  - vm_compute. reflexivity.
  - vm_compute. reflexivity.
  - vm_compute. reflexivity.
Defined.

(** C3, refuted as stated: two comment lines of the form
    [<addr> : Data signal of a], at the ascending addresses [0x10] and
    [0x14], in a file that passes the format check; the pattern of line
    53 matches both, but the first has no blank before its address and
    does not pass the test of line 52: the map binds [a] to ['h14]
    alone. *)
Lemma address_without_blank_is_skipped :
  comment_lines (readlines ctrl_no_blank)
  = comment_lines (readlines (file_of_lines ctrl_header))
    ++ [line_no_blank; txt "// 0x14 : Data signal of a" ++ newline] /\
  re_search re_data_signal line_no_blank = Some (txt "0x10", txt "a") /\
  parse_register_addr (one_file (txt "ctrl.v") ctrl_no_blank) (txt "ctrl.v")
  = Ok [(txt "a", [txt "'h14"])].
Proof. repeat (split; [vm_compute; reflexivity|]). vm_compute. reflexivity. Qed.

(** * Declarations found line by line *)

Local Open Scope nat_scope.

(** ** Texts split at a character *)

Lemma split_le {A} (u v x y : list A) (c c' : A) :
  u ++ c :: x = v ++ c' :: y -> ~ In c' u ->
  (u = v /\ c = c' /\ x = y) \/
  (exists l, v = u ++ c :: l /\ x = l ++ c' :: y).
Proof.
  revert v. induction u as [|a u IH]; intros v E N.
  - destruct v as [|b v]; cbn in E.
    + injection E as -> ->. now left.
    + injection E as -> ->. right. now exists v.
  - destruct v as [|b v]; cbn in E.
    + injection E as -> _. exfalso. apply N. now left.
    + injection E as -> E.
      destruct (IH v E) as [(-> & -> & ->)|(l & -> & ->)].
      * intros I. apply N. now right.
      * now left.
      * right. now exists l.
Qed.

Lemma split_first {A} (u v x y : list A) (c c' : A) :
  u ++ c :: x = v ++ c' :: y -> ~ In c' u -> ~ In c v ->
  u = v /\ c = c' /\ x = y.
Proof.
  intros E N N'.
  destruct (split_le _ _ _ _ _ _ E N) as [H|(l & -> & _)]; [exact H|].
  exfalso. apply N'. apply in_or_app. right. now left.
Qed.

Lemma not_in_class (p : ascii -> bool) (c : ascii) (l : str) :
  forallb p l = true -> p c = false -> ~ In c l.
Proof.
  intros A C I. rewrite forallb_forall in A. rewrite (A c I) in C.
  discriminate.
Qed.

(** Two runs of a class, each followed by a character outside it. *)
Lemma run_split (p : ascii -> bool) (u v x y : str) (c c' : ascii) :
  forallb p u = true -> forallb p v = true -> p c = false -> p c' = false ->
  u ++ c :: x = v ++ c' :: y -> u = v /\ c = c' /\ x = y.
Proof.
  intros U V C C' E. apply (split_first _ _ _ _ _ _ E).
  - now apply (not_in_class p).
  - now apply (not_in_class p).
Qed.

(** ** The matcher finds what matches *)

Lemma star_complete {R} (p : ascii -> bool) (a b : str) (k : str -> option R) :
  forallb p a = true -> k b <> None -> star p (a ++ b) k <> None.
Proof.
  intros A K. induction a as [|c a IH].
  - destruct b as [|c b]; [exact K|].
    cbn [app star]. destruct (p c); [|exact K].
    destruct (star p b k); [discriminate | exact K].
  - cbn [forallb] in A. apply andb_prop in A. destruct A as [Hc Ha].
    cbn [app star]. rewrite Hc.
    destruct (star p (a ++ b) k) eqn:E; [discriminate|].
    destruct (IH Ha eq_refl).
Qed.

Lemma rmatch_complete {R} (r : regex) (a : str) (g g' : groups) :
  matches r a g g' ->
  forall (b : str) (k : str -> groups -> option R),
    k b g' <> None -> rmatch r (a ++ b) g k <> None.
Proof.
  induction 1 as [g|c g|p c g P|p a g A|r1 r2 a1 a2 g g1 g2 _ IH1 _ IH2
                  |i r a g g1 _ IH]; intros b k K; cbn [rmatch app].
  - exact K.
  - now rewrite Ascii.eqb_refl.
  - now rewrite P.
  - now apply star_complete.
  - rewrite <- app_assoc. apply IH1. now apply IH2.
  - apply IH. now rewrite firstn_matched.
Qed.

Lemma match_here_complete (r : regex) (a b : str) (g' : groups) :
  matches r a no_groups g' -> match_here r (a ++ b) <> None.
Proof.
  intros M. unfold match_here. apply (rmatch_complete r a _ g' M).
  discriminate.
Qed.

Lemma match_here_sound_len (r : regex) (t g1 g2 : str) (n : nat) :
  match_here r t = Some (g1, g2, n) ->
  exists a b g', t = a ++ b /\ matches r a no_groups g' /\
                 g1 = g' 1 /\ g2 = g' 2 /\ n = length a.
Proof.
  unfold match_here. intros H. apply rmatch_sound in H.
  destruct H as (a & b & g' & -> & M & K). injection K as <- <- <-.
  exists a, b, g'. repeat split; try assumption.
  rewrite length_app. lia.
Qed.

(** ** What the patterns of the top-level file match *)

Lemma matches_m_axi_inv (suffix : string) (a : str) (g' : groups) :
  matches (re_m_axi suffix) a no_groups g' ->
  exists ws1 bound ws2 ws3 ws4 bname ws5 c,
    a = txt "output" ++ ws1 ++ txt "[" ++ bound ++ txt ":" ++ ws2
        ++ txt "0" ++ ws3 ++ txt "]" ++ ws4 ++ txt "m_axi_" ++ bname
        ++ txt suffix ++ ws5 ++ [c] /\
    run_of isspace ws1 /\ forallb dot bound = true /\
    forallb isspace ws2 = true /\ forallb isspace ws3 = true /\
    run_of isspace ws4 /\ run_of isword bname /\
    forallb isspace ws5 = true /\ one_of ";," c = true /\
    g' 1 = bound /\ g' 2 = bname.
Proof.
  intros M. unfold re_m_axi, Seq in M. cbn [fold_right] in M.
  invert_matches.
  match goal with
  | W1 : run_of isspace ?ws1, B : forallb dot ?bound = true,
    W2 : forallb isspace ?ws2 = true, W3 : forallb isspace ?ws3 = true,
    W4 : run_of isspace ?ws4, N : run_of isword ?bname,
    W5 : forallb isspace ?ws5 = true, C : one_of ";," ?c = true
    |- context [txt "output" ++ ?ws1 ++ txt "[" ++ ?bound ++ txt ":" ++ ?ws2
                ++ txt "0" ++ ?ws3 ++ txt "]" ++ ?ws4 ++ txt "m_axi_"
                ++ ?bname ++ txt suffix ++ ?ws5 ++ [?c] ++ []] =>
      exists ws1, bound, ws2, ws3, ws4, bname, ws5, c
  end.
  repeat match goal with |- _ /\ _ => split end; assumption || reflexivity.
Qed.

Lemma matches_parameter_inv (a : str) (g' : groups) :
  matches re_parameter a no_groups g' ->
  exists ws rest, a = txt "parameter" ++ ws ++ rest /\ run_of isspace ws.
Proof.
  intros M. unfold re_parameter, Seq in M. cbn [fold_right] in M.
  apply matches_Cat_inv in M. destruct M as (a1 & a2 & g1 & -> & M1 & M).
  apply matches_Cat_inv in M. destruct M as (a3 & a4 & g2 & -> & M2 & M).
  apply matches_Str_inv in M1. destruct M1 as [-> _].
  apply matches_Plus_inv in M2. destruct M2 as [W _].
  now exists a3, a4.
Qed.

(** ** Characters *)

Lemma space_not_word (c : ascii) : isspace c = true -> isword c = false.
Proof.
  destruct c as [[] [] [] [] [] [] [] []]; vm_compute; intros H;
    first [reflexivity | discriminate H].
Qed.

Lemma digit_word (c : ascii) : isdigit c = true -> isword c = true.
Proof.
  destruct c as [[] [] [] [] [] [] [] []]; vm_compute; intros H;
    first [reflexivity | discriminate H].
Qed.

Lemma separator_not_word (c : ascii) :
  one_of ";," c = true -> isword c = false /\ isspace c = false.
Proof.
  destruct c as [[] [] [] [] [] [] [] []]; vm_compute; intros H;
    first [now split | discriminate H].
Qed.

Lemma digits_are_words (d : str) :
  forallb isdigit d = true -> forallb isword d = true.
Proof.
  intros H. rewrite forallb_forall in *. intros c I.
  now apply digit_word, H.
Qed.

Lemma words_without_space (n : str) :
  forallb isword n = true -> forallb notspace n = true.
Proof.
  intros H. rewrite forallb_forall in *. intros c I. unfold notspace.
  destruct (isspace c) eqn:S; [|reflexivity].
  apply space_not_word in S. rewrite (H c I) in S. discriminate.
Qed.

Lemma suffix_is_word (b : bus) : forallb isword (txt (bus_suffix b)) = true.
Proof. destruct b; reflexivity. Qed.

(** ** A declaration and the bus patterns *)

Lemma no_colon_after_bound (b : bus) (n : str) :
  forallb isword n = true ->
  ~ In ":"%char (txt "0] m_axi_" ++ n ++ txt (bus_suffix b) ++ txt ";").
Proof.
  intros N I. apply in_app_or in I. destruct I as [I|I].
  { cbn in I. intuition discriminate. }
  apply in_app_or in I. destruct I as [I|I].
  { revert I. now apply (not_in_class isword). }
  destruct b; cbn in I; intuition discriminate.
Qed.

Lemma declaration_match (b b' : bus) (d n rest a b0 : str) (g' : groups) :
  forallb isdigit d = true -> forallb isword n = true ->
  declaration b d n ++ newline ++ rest = a ++ b0 ->
  matches (re_m_axi (bus_suffix b')) a no_groups g' ->
  b' = b /\ a = declaration b d n /\ g' 1 = d /\ g' 2 = n.
Proof.
  intros D N E M. apply matches_m_axi_inv in M.
  destruct M as (ws1 & bound & ws2 & ws3 & ws4 & bname & ws5 & c & -> & W1
                 & B & W2 & W3 & W4 & Nb & W5 & C & -> & ->).
  unfold declaration in E. rewrite <- !app_assoc in E.
  change (txt "output [" ++ d ++ txt ":0] m_axi_" ++ n ++ txt (bus_suffix b)
          ++ txt ";" ++ newline ++ rest)
    with (txt "output" ++ [" "%char] ++ "["%char :: d ++ ":"%char :: []
          ++ "0"%char :: [] ++ "]"%char :: [" "%char]
          ++ "m"%char :: txt "_axi_" ++ n ++ txt (bus_suffix b)
          ++ ";"%char :: newline ++ rest) in E.
  apply app_inv_head in E.
  apply (run_split isspace [" "%char] ws1 _ _ "["%char "["%char) in E;
    [| reflexivity | apply W1 | reflexivity | reflexivity].
  destruct E as (<- & _ & E).
  assert (Eb : bound = d /\
               [] ++ "0"%char :: [] ++ "]"%char :: [" "%char]
               ++ "m"%char :: txt "_axi_" ++ n ++ txt (bus_suffix b)
               ++ ";"%char :: newline ++ rest
               = ws2 ++ txt "0" ++ ws3 ++ txt "]" ++ ws4 ++ txt "m_axi_"
                 ++ bname ++ txt (bus_suffix b') ++ ws5 ++ [c] ++ b0).
  { apply split_le in E; [|now apply (not_in_class isdigit)].
    destruct E as [(-> & _ & E)|(l & -> & E)]; [now split|].
    exfalso. rewrite forallb_app in B. apply andb_prop in B.
    destruct B as [_ B]. cbn [forallb] in B. apply andb_prop in B.
    destruct B as [_ B].
    change ([] ++ "0"%char :: [] ++ "]"%char :: [" "%char]
            ++ "m"%char :: txt "_axi_" ++ n ++ txt (bus_suffix b)
            ++ ";"%char :: newline ++ rest)
      with (txt "0] m_axi_" ++ n ++ txt (bus_suffix b)
            ++ txt ";" ++ newline ++ rest) in E.
    symmetry in E.
    replace (txt "0] m_axi_" ++ n ++ txt (bus_suffix b) ++ txt ";"
             ++ newline ++ rest)
      with ((txt "0] m_axi_" ++ n ++ txt (bus_suffix b) ++ txt ";")
            ++ ascii_of_nat 10 :: rest) in E
      by (now rewrite <- !app_assoc).
    apply split_le in E; [|now apply (not_in_class dot)].
    destruct E as [(_ & E & _)|(l' & E & _)]; [discriminate E|].
    apply (no_colon_after_bound b n N). rewrite E.
    apply in_or_app. right. now left. }
  clear E. destruct Eb as [-> E].
  apply (run_split isspace [] ws2 _ _ "0"%char "0"%char) in E;
    [| reflexivity | exact W2 | reflexivity | reflexivity].
  destruct E as (<- & _ & E).
  apply (run_split isspace [] ws3 _ _ "]"%char "]"%char) in E;
    [| reflexivity | exact W3 | reflexivity | reflexivity].
  destruct E as (<- & _ & E).
  apply (run_split isspace [" "%char] ws4 _ _ "m"%char "m"%char) in E;
    [| reflexivity | apply W4 | reflexivity | reflexivity].
  destruct E as (<- & _ & E).
  apply (app_inv_head (txt "_axi_")) in E.
  destruct (separator_not_word c C) as [Cw Cs].
  assert (Ew : n ++ txt (bus_suffix b) = bname ++ txt (bus_suffix b') /\
               ws5 = [] /\ c = ";"%char).
  { assert (Wn : forallb isword (n ++ txt (bus_suffix b)) = true)
      by (rewrite forallb_app, N; apply suffix_is_word).
    assert (Wb : forallb isword (bname ++ txt (bus_suffix b')) = true)
      by (rewrite forallb_app, (proj2 Nb); apply suffix_is_word).
    destruct ws5 as [|c5 ws5].
    - assert (E' : (n ++ txt (bus_suffix b)) ++ ";"%char :: newline ++ rest
                   = (bname ++ txt (bus_suffix b')) ++ c :: b0)
        by (rewrite <- !app_assoc; exact E).
      apply (run_split isword) in E'; try assumption; try reflexivity.
      destruct E' as (E' & <- & _). now repeat split.
    - exfalso. cbn [forallb] in W5. apply andb_prop in W5.
      destruct W5 as [S5 _].
      assert (E' : (n ++ txt (bus_suffix b)) ++ ";"%char :: newline ++ rest
                   = (bname ++ txt (bus_suffix b'))
                     ++ c5 :: ws5 ++ [c] ++ b0)
        by (rewrite <- !app_assoc; exact E).
      apply (run_split isword) in E'; try assumption; try reflexivity.
      + destruct E' as (_ & <- & _). discriminate S5.
      + now apply space_not_word. }
  destruct Ew as (Ew & -> & ->).
  assert (Eq : b' = b /\ bname = n).
  { destruct b, b'.
    - apply app_inv_tail in Ew. now split.
    - apply (f_equal (@rev ascii)) in Ew. rewrite !rev_app_distr in Ew.
      discriminate Ew.
    - apply (f_equal (@rev ascii)) in Ew. rewrite !rev_app_distr in Ew.
      discriminate Ew.
    - apply app_inv_tail in Ew. now split. }
  destruct Eq as [-> ->]. repeat split.
Qed.

(** Appends nested to the right. *)
Ltac flatten := repeat first [progress cbn [app] | rewrite <- app_assoc].
Ltac flatten_in H :=
  repeat first [progress cbn [app] in H | rewrite <- app_assoc in H].

Lemma matches_chars (l : str) (g : groups) :
  matches (fold_right (fun c r => Cat (Chr c) r) Eps l) l g g.
Proof.
  induction l as [|c l IH]; cbn [fold_right]; [constructor|].
  change (c :: l) with ([c] ++ l).
  apply (M_Cat _ _ _ _ _ g); [constructor | exact IH].
Qed.

Lemma matches_Str (lit : string) (g : groups) :
  matches (Str lit) (txt lit) g g.
Proof. apply matches_chars. Qed.

Lemma matches_Plus (p : ascii -> bool) (a : str) (g : groups) :
  a <> [] -> forallb p a = true -> matches (Plus p) a g g.
Proof.
  intros N A. destruct a as [|c a]; [congruence|].
  cbn [forallb] in A. apply andb_prop in A. destruct A as [Hc Ha].
  change (c :: a) with ([c] ++ a).
  apply (M_Cat _ _ _ _ _ g); now constructor.
Qed.

(** The pattern of a bus matches the declaration of that bus. *)
Lemma declaration_matches (b : bus) (d n : str) :
  forallb isdigit d = true -> n <> [] -> forallb isword n = true ->
  exists g', matches (re_m_axi (bus_suffix b)) (declaration b d n)
                     no_groups g'.
Proof.
  intros D Nn N. eexists. unfold re_m_axi, Seq. cbn [fold_right].
  change (declaration b d n)
    with (txt "output" ++ [" "%char] ++ txt "[" ++ d ++ txt ":" ++ []
          ++ txt "0" ++ [] ++ txt "]" ++ [" "%char] ++ txt "m_axi_" ++ n
          ++ txt (bus_suffix b) ++ [] ++ [";"%char] ++ []).
  eapply M_Cat; [apply matches_Str|].
  eapply M_Cat; [apply matches_Plus; [discriminate | reflexivity]|].
  eapply M_Cat; [apply matches_Str|].
  eapply M_Cat.
  { apply M_Group. apply M_Star. rewrite forallb_forall in *.
    intros c I. specialize (D c I). unfold dot.
    destruct (Nat.eqb_spec (code c) 10) as [E|]; [|reflexivity].
    unfold isdigit, in_range in D. rewrite E in D. discriminate D. }
  eapply M_Cat; [apply matches_Str|].
  eapply M_Cat; [now apply M_Star|].
  eapply M_Cat; [apply matches_Str|].
  eapply M_Cat; [now apply M_Star|].
  eapply M_Cat; [apply matches_Str|].
  eapply M_Cat; [apply matches_Plus; [discriminate | reflexivity]|].
  eapply M_Cat; [apply matches_Str|].
  eapply M_Cat; [apply M_Group; now apply matches_Plus|].
  eapply M_Cat; [apply matches_Str|].
  eapply M_Cat; [now apply M_Star|].
  eapply M_Cat; [now apply M_Cls | apply M_Eps].
Qed.

(** At the start of the declaration of a bus, the pattern of that bus
    matches the declaration and no more, with its bound and its name;
    the pattern of the other bus does not match. *)
Lemma match_here_declaration (b b' : bus) (d n rest : str) :
  forallb isdigit d = true -> n <> [] -> forallb isword n = true ->
  match_here (re_m_axi (bus_suffix b')) (declaration b d n ++ newline ++ rest)
  = if bus_eqb b' b then Some (d, n, length (declaration b d n)) else None.
Proof.
  intros D Nn N.
  destruct (match_here _ _) as [[[g1 g2] m]|] eqn:H.
  - apply match_here_sound_len in H.
    destruct H as (a & b0 & g' & E & M & -> & -> & ->).
    destruct (declaration_match b b' d n rest a b0 g' D N E M)
      as (-> & -> & -> & ->).
    now destruct b.
  - destruct (bus_eqb b' b) eqn:B; [|reflexivity]. exfalso.
    assert (b' = b) as -> by (now destruct b, b').
    destruct (declaration_matches b d n D Nn N) as [g' M].
    exact (match_here_complete _ _ (newline ++ rest) g' M H).
Qed.

(** ** Key words inside a declaration *)

Lemma match_here_m_axi_start (suffix : string) (t : str)
      (r : str * str * nat) :
  match_here (re_m_axi suffix) t = Some r ->
  exists c y, t = txt "output" ++ c :: y /\ isspace c = true.
Proof.
  destruct r as [[g1 g2] m]. intros H. apply match_here_sound in H.
  destruct H as (a & b0 & g' & -> & M & _). apply matches_m_axi_inv in M.
  destruct M as (ws1 & bound & ws2 & ws3 & ws4 & bname & ws5 & c & -> & W1
                 & _).
  destruct W1 as [W1 S1]. destruct ws1 as [|c1 ws1]; [congruence|].
  cbn [forallb] in S1. apply andb_prop in S1. destruct S1 as [S1 _].
  eexists c1, _. split; [|exact S1].
  rewrite <- !app_assoc. reflexivity.
Qed.

Lemma match_here_parameter_start (t : str) (r : str * str * nat) :
  match_here re_parameter t = Some r ->
  exists c y, t = txt "parameter" ++ c :: y /\ isspace c = true.
Proof.
  destruct r as [[g1 g2] m]. intros H. apply match_here_sound in H.
  destruct H as (a & b0 & g' & -> & M & _). apply matches_parameter_inv in M.
  destruct M as (ws & rest & -> & W1).
  destruct W1 as [W1 S1]. destruct ws as [|c1 ws]; [congruence|].
  cbn [forallb] in S1. apply andb_prop in S1. destruct S1 as [S1 _].
  eexists c1, _. split; [|exact S1].
  rewrite <- !app_assoc. reflexivity.
Qed.

Lemma space_not_in (c : ascii) (l : str) :
  isspace c = true -> forallb notspace l = true -> ~ In c l.
Proof.
  intros S L. apply (not_in_class notspace); [exact L|].
  unfold notspace. now rewrite S.
Qed.

(** A key word followed by white space stands in a declaration, or
    starts in it, only as its first word. *)
Lemma keyword_in_declaration (key : str) (k : ascii) (b : bus)
      (d n rest x1 x2 y : str) (c : ascii) :
  forallb isdigit d = true -> forallb isword n = true ->
  declaration b d n = x1 ++ x2 ->
  x2 ++ newline ++ rest = (key ++ [k]) ++ c :: y ->
  isspace c = true -> forallb notspace (key ++ [k]) = true ->
  k <> "]"%char -> k <> ";"%char ->
  x1 ++ key ++ [k] = txt "output".
Proof.
  intros D N E1 E2 S K K1 K2.
  assert (Nd : forallb notspace (txt "[" ++ d ++ txt ":0") = true).
  { rewrite !forallb_app.
    rewrite (words_without_space d (digits_are_words d D)). reflexivity. }
  assert (Nn : forallb notspace (txt "m_axi_" ++ n ++ txt (bus_suffix b))
               = true).
  { rewrite !forallb_app, (words_without_space n N). now destruct b. }
  assert (E : txt "output" ++ " "%char
                :: ((txt "[" ++ d ++ txt ":0") ++ ["]"%char]) ++ " "%char
                :: ((txt "m_axi_" ++ n ++ txt (bus_suffix b)) ++ [";"%char])
                   ++ ascii_of_nat 10 :: rest
              = (x1 ++ key ++ [k]) ++ c :: y).
  { transitivity (declaration b d n ++ newline ++ rest).
    - unfold declaration. rewrite <- !app_assoc. reflexivity.
    - rewrite E1, <- app_assoc, E2, <- !app_assoc. reflexivity. }
  apply split_le in E; [|now apply space_not_in].
  destruct E as [(E & _)|(l & E & F)]; [now symmetry|]. exfalso.
  apply split_le in F;
    [|apply space_not_in; [exact S|]; rewrite forallb_app, Nd; reflexivity].
  destruct F as [(F & _)|(l2 & F & G)].
  - subst l.
    change (txt "output" ++ " "%char :: (txt "[" ++ d ++ txt ":0") ++ ["]"%char])
      with ((txt "output" ++ " "%char :: txt "[" ++ d ++ txt ":0")
            ++ ["]"%char]) in E.
    rewrite (app_assoc x1 key [k]) in E.
    apply app_inj_tail in E. now destruct E.
  - apply split_le in G;
      [|apply space_not_in; [exact S|]; rewrite forallb_app, Nn; reflexivity].
    destruct G as [(G & _)|(l3 & G & _)].
    + subst l l2.
      assert (E' : (x1 ++ key) ++ [k]
                   = (txt "output" ++ " "%char
                      :: ((txt "[" ++ d ++ txt ":0") ++ ["]"%char]) ++ " "%char
                      :: txt "m_axi_" ++ n ++ txt (bus_suffix b))
                     ++ [";"%char]).
      { flatten. flatten_in E. exact E. }
      apply app_inj_tail in E'. now destruct E'.
    + subst l l2.
      assert (E' : x1 ++ key ++ [k]
                   = declaration b d n ++ ascii_of_nat 10 :: l3).
      { rewrite E. unfold declaration. rewrite <- !app_assoc. reflexivity. }
      rewrite E1, <- app_assoc in E'. apply app_inv_head in E'.
      apply (space_not_in (ascii_of_nat 10) (key ++ [k]) eq_refl K).
      rewrite E'. apply in_or_app. right. now left.
Qed.

(** Inside a declaration, and at the newline that ends it, no bus
    pattern matches, and the parameter pattern matches nowhere. *)
Lemma match_here_inside_bus (suffix : string) (b : bus)
      (d n rest x1 x2 : str) :
  forallb isdigit d = true -> forallb isword n = true ->
  declaration b d n = x1 ++ x2 -> x1 <> [] ->
  match_here (re_m_axi suffix) (x2 ++ newline ++ rest) = None.
Proof.
  intros D N E X. destruct (match_here _ _) as [r|] eqn:H; [|reflexivity].
  exfalso. apply match_here_m_axi_start in H. destruct H as (c & y & H & S).
  apply (keyword_in_declaration (txt "outpu") "t" b d n rest x1 x2 y c D N E)
    in H; try assumption; try reflexivity; try discriminate.
  apply (f_equal (@length ascii)) in H. rewrite length_app in H.
  destruct x1; [congruence | cbn in H; lia].
Qed.

Lemma match_here_inside_parameter (b : bus) (d n rest x1 x2 : str) :
  forallb isdigit d = true -> forallb isword n = true ->
  declaration b d n = x1 ++ x2 ->
  match_here re_parameter (x2 ++ newline ++ rest) = None.
Proof.
  intros D N E. destruct (match_here _ _) as [r|] eqn:H; [|reflexivity].
  exfalso. apply match_here_parameter_start in H.
  destruct H as (c & y & H & S).
  apply (keyword_in_declaration (txt "paramete") "r" b d n rest x1 x2 y c
           D N E) in H; try assumption; try reflexivity; try discriminate.
  apply (f_equal (@length ascii)) in H. rewrite length_app in H.
  cbn in H. lia.
Qed.

(** ** Lines without key words *)

Lemma startswith_before (key x y : str) (c : ascii) :
  ~ In c key -> startswith key (x ++ c :: y) = true ->
  startswith key x = true.
Proof.
  revert x. induction key as [|k key IH]; intros x N H; [reflexivity|].
  destruct x as [|a x]; cbn [app startswith] in *.
  - apply andb_prop in H. destruct H as [E _]. apply Ascii.eqb_eq in E.
    exfalso. apply N. now left.
  - apply andb_prop in H. destruct H as [E H]. rewrite E. cbn [andb].
    apply IH; [|exact H]. intros I. apply N. now right.
Qed.

Lemma keyword_in_line (key l rest x1 x2 y : str) :
  ~ In (ascii_of_nat 10) key ->
  contains key l = false -> l = x1 ++ x2 ->
  x2 ++ newline ++ rest <> key ++ y.
Proof.
  intros N C -> E.
  assert (S : startswith key (x2 ++ ascii_of_nat 10 :: rest) = true).
  { change (x2 ++ ascii_of_nat 10 :: rest) with (x2 ++ newline ++ rest).
    rewrite E. apply startswith_app. }
  apply startswith_before in S; [|exact N].
  apply contains_here in S. apply (contains_app_l key x1) in S. congruence.
Qed.

Lemma match_here_other_bus (suffix : string) (l rest x1 x2 : str) :
  contains (txt "output") l = false -> l = x1 ++ x2 ->
  match_here (re_m_axi suffix) (x2 ++ newline ++ rest) = None.
Proof.
  intros C E. destruct (match_here _ _) as [r|] eqn:H; [|reflexivity].
  exfalso. apply match_here_m_axi_start in H. destruct H as (c & y & H & _).
  apply (keyword_in_line (txt "output") l rest x1 x2 (c :: y)) in H;
    try assumption.
  cbn. intuition discriminate.
Qed.

Lemma match_here_other_parameter (l rest x1 x2 : str) :
  contains (txt "parameter") l = false -> l = x1 ++ x2 ->
  match_here re_parameter (x2 ++ newline ++ rest) = None.
Proof.
  intros C E. destruct (match_here _ _) as [r|] eqn:H; [|reflexivity].
  exfalso. apply match_here_parameter_start in H.
  destruct H as (c & y & H & _).
  apply (keyword_in_line (txt "parameter") l rest x1 x2 (c :: y)) in H;
    try assumption.
  cbn. intuition discriminate.
Qed.

(** ** All the matches of a text, line by line *)

Lemma findall_from_skip (r : regex) (x y : str) :
  findall_from r (x ++ y) (length x) = findall_from r y 0.
Proof. induction x as [|c x IH]; [reflexivity | exact IH]. Qed.

(** A stretch of text in which the pattern matches nowhere. *)
Lemma findall_from_none (r : regex) (x y : str) :
  (forall x1 x2, x = x1 ++ x2 -> x2 <> [] -> match_here r (x2 ++ y) = None) ->
  findall_from r (x ++ y) 0 = findall_from r y 0.
Proof.
  induction x as [|c x IH]; intros H; [reflexivity|].
  assert (M : match_here r (c :: x ++ y) = None)
    by (apply (H [] (c :: x) eq_refl); discriminate).
  cbn [app findall_from]. rewrite M.
  apply IH. intros x1 x2 -> X. now apply (H (c :: x1) x2).
Qed.

(** A line that the pattern matches from its start to its end. *)
Lemma findall_from_line (r : regex) (l rest g1 g2 : str) :
  l <> [] ->
  match_here r (l ++ newline ++ rest) = Some (g1, g2, length l) ->
  match_here r (newline ++ rest) = None ->
  findall_from r ((l ++ newline) ++ rest) 0
  = (g1, g2) :: findall_from r rest 0.
Proof.
  intros L M E. rewrite <- app_assoc. destruct l as [|c l]; [congruence|].
  cbn [app findall_from]. cbn [app] in M. rewrite M. f_equal.
  cbn [length]. rewrite Nat.sub_succ, Nat.sub_0_r, findall_from_skip.
  cbn [newline app findall_from]. cbn [newline app] in E. now rewrite E.
Qed.

(** A line in which the pattern matches nowhere, nor at the newline
    that ends it. *)
Lemma findall_from_line_none (r : regex) (l rest : str) :
  (forall x1 x2, l = x1 ++ x2 ->
                 match_here r (x2 ++ newline ++ rest) = None) ->
  findall_from r ((l ++ newline) ++ rest) 0 = findall_from r rest 0.
Proof.
  intros H. apply findall_from_none. intros x1 x2 X X2.
  destruct (exists_last X2) as (x2' & e & ->).
  rewrite app_assoc in X. apply app_inj_tail in X. destruct X as [-> <-].
  rewrite <- app_assoc. now apply (H x1 x2').
Qed.

Lemma declaration_not_empty (b : bus) (d n : str) : declaration b d n <> [].
Proof. discriminate. Qed.

Lemma rtl_line_ok_decl (b : bus) (d n : str) :
  rtl_line_ok (Decl b d n) = true ->
  is_decimal_literal d = true /\ forallb isdigit d = true /\
  n <> [] /\ forallb isword n = true.
Proof.
  cbn [rtl_line_ok]. intros H.
  apply andb_prop in H. destruct H as [H W].
  apply andb_prop in H. destruct H as [L Nn].
  split; [exact L|]. split.
  - unfold is_decimal_literal in L. apply andb_prop in L. destruct L as [L _].
    apply andb_prop in L. now destruct L.
  - split; [|exact W]. destruct n; [discriminate Nn | discriminate].
Qed.

Lemma rtl_line_ok_other (l : str) :
  rtl_line_ok (Other l) = true ->
  contains (txt "output") l = false /\ contains (txt "parameter") l = false.
Proof.
  cbn [rtl_line_ok]. intros H.
  apply andb_prop in H. destruct H as [H P].
  apply andb_prop in H. destruct H as [_ O].
  apply negb_true_iff in P, O. now split.
Qed.

(** The bus patterns find the declarations of their bus, and nothing
    else. *)
Lemma findall_declared (b : bus) (ls : list rtl_line) :
  forallb rtl_line_ok ls = true ->
  findall (re_m_axi (bus_suffix b)) (rtl_text ls) = declared b ls.
Proof.
  unfold findall. induction ls as [|x ls IH]; intros H.
  - now destruct b.
  - cbn [forallb] in H. apply andb_prop in H. destruct H as [Hx Hls].
    cbn [rtl_text flat_map declared]. fold (rtl_text ls). fold (declared b ls).
    destruct x as [b' d n|l]; cbn [render].
    + apply rtl_line_ok_decl in Hx. destruct Hx as (_ & D & Nn & N).
      pose proof (match_here_declaration b' b d n (rtl_text ls) D Nn N) as M.
      destruct (bus_eqb b b') eqn:B.
      * rewrite (findall_from_line _ _ _ d n (declaration_not_empty _ _ _) M).
        -- cbn [app]. now rewrite (IH Hls).
        -- apply (match_here_inside_bus _ b' d n _ (declaration b' d n) []);
             try assumption; [now rewrite app_nil_r | discriminate].
      * rewrite findall_from_line_none; [now rewrite (IH Hls)|].
        intros x1 x2 X. destruct x1 as [|c x1].
        -- cbn [app] in X. now subst x2.
        -- now apply (match_here_inside_bus _ b' d n _ (c :: x1) x2).
    + apply rtl_line_ok_other in Hx. destruct Hx as [O _].
      rewrite findall_from_line_none; [now rewrite (IH Hls)|].
      intros x1 x2 X. now apply (match_here_other_bus _ l _ x1 x2).
Qed.

(** The parameter pattern finds nothing. *)
Lemma findall_no_parameter (ls : list rtl_line) :
  forallb rtl_line_ok ls = true ->
  findall re_parameter (rtl_text ls) = [].
Proof.
  unfold findall. induction ls as [|x ls IH]; intros H; [reflexivity|].
  cbn [forallb] in H. apply andb_prop in H. destruct H as [Hx Hls].
  cbn [rtl_text flat_map]. fold (rtl_text ls).
  rewrite findall_from_line_none; [now apply IH|].
  intros x1 x2 X. destruct x as [b d n|l]; cbn [render] in X.
  - apply rtl_line_ok_decl in Hx. destruct Hx as (_ & D & _ & N).
    now apply (match_here_inside_parameter b d n _ x1 x2).
  - apply rtl_line_ok_other in Hx. destruct Hx as [_ P].
    now apply (match_here_other_parameter l _ x1 x2).
Qed.

(** ** The bound of the last declaration *)

Local Open Scope Z_scope.

Lemma last_bound_none (n : str) (decls : list (str * str)) :
  last_bound n decls = None -> ~ In n (map snd decls).
Proof.
  induction decls as [|[a' n'] decls IH]; cbn [last_bound map snd];
    [tauto|].
  destruct (last_bound n decls); [discriminate|].
  destruct (str_eqb n n') eqn:E; [discriminate|]. intros _ [I|I].
  - apply str_eqb_neq in E. congruence.
  - now apply IH.
Qed.

Lemma last_bound_some (n a : str) (decls : list (str * str)) :
  last_bound n decls = Some a ->
  exists before after,
    decls = before ++ (a, n) :: after /\ ~ In n (map snd after).
Proof.
  induction decls as [|[a' n'] decls IH]; cbn [last_bound]; [discriminate|].
  destruct (last_bound n decls) as [later|] eqn:L.
  - intros H. injection H as ->.
    destruct (IH eq_refl) as (before & after & -> & N).
    now exists ((a', n') :: before), after.
  - destruct (str_eqb n n') eqn:E; [|discriminate].
    intros H. injection H as ->. apply str_eqb_eq in E. subst n'.
    exists [], decls. split; [reflexivity | now apply last_bound_none].
Qed.

(** The dictionary of line 75 binds a name to the bound of its last
    declaration. *)
Lemma dict_get_last_bound (n : str) (decls : list (str * str)) :
  dict_get n (dict_of (map (fun m : str * str => (snd m, fst m)) decls))
  = last_bound n decls.
Proof.
  destruct (last_bound n decls) as [a|] eqn:L.
  - apply last_bound_some in L. destruct L as (before & after & -> & N).
    rewrite map_app. cbn [map fst snd]. apply dict_of_last.
    now rewrite map_map.
  - apply last_bound_none in L. apply dict_of_absent. now rewrite map_map.
Qed.

Lemma declared_literal (b : bus) (ls : list rtl_line) (d n : str) :
  forallb rtl_line_ok ls = true -> In (d, n) (declared b ls) ->
  is_decimal_literal d = true.
Proof.
  intros H I. unfold declared in I. apply in_flat_map in I.
  destruct I as (x & Ix & I). rewrite forallb_forall in H.
  specialize (H x Ix). destruct x as [b' d' n'|l]; [|contradiction].
  destruct (bus_eqb b b'); [|contradiction].
  destruct I as [E|[]]. injection E as <- <-.
  now apply rtl_line_ok_decl in H.
Qed.





(** * Data buses without an address bus *)

Lemma last_bound_absent (n : str) (decls : list (str * str)) :
  ~ In n (map snd decls) -> last_bound n decls = None.
Proof.
  intros N. destruct (last_bound n decls) as [a|] eqn:L; [|reflexivity].
  apply last_bound_some in L. destruct L as (before & after & -> & _).
  exfalso. apply N. rewrite map_app. apply in_or_app. right. now left.
Qed.

(** In a file given by its lines, the first data bus without an address
    bus stops the extraction. *)
Lemma first_missing_of_lines (fs : filesystem) (path : str)
      (ls : list rtl_line) (before after : list (str * str)) (d n : str) :
  forallb rtl_line_ok ls = true ->
  fs path = Some (rtl_text ls) ->
  declared WDATA ls = before ++ (d, n) :: after ->
  (forall d' n', In (d', n') before ->
                 In n' (map snd (declared ARADDR ls))) ->
  ~ In n (map snd (declared ARADDR ls)) ->
  parse_m_axi_interfaces fs path = Raise (KeyError n).
Proof.
  intros H F E P N.
  rewrite (parse_m_axi_interfaces_unfold fs path _ F).
  unfold name_to_addr_width, param_to_value.
  change (findall re_wdata (rtl_text ls))
    with (findall (re_m_axi (bus_suffix WDATA)) (rtl_text ls)).
  change (findall re_araddr (rtl_text ls))
    with (findall (re_m_axi (bus_suffix ARADDR)) (rtl_text ls)).
  rewrite (findall_declared WDATA ls H), (findall_declared ARADDR ls H).
  rewrite (findall_no_parameter ls H), E.
  apply (interfaces_first_missing _ _ before after (d, n)).
  - intros [d' n'] I. cbn [fst snd]. rewrite dict_get_last_bound.
    destruct (last_bound n' (declared ARADDR ls)) as [a|] eqn:L.
    + exists a, (decimal_value d'), (decimal_value a).
      split; [reflexivity|]. split.
      * apply py_eval_decimal. apply (declared_literal WDATA ls d' n' H).
        rewrite E. apply in_or_app. now left.
      * apply py_eval_decimal.
        apply last_bound_some in L. destruct L as (b0 & a0 & E0 & _).
        apply (declared_literal ARADDR ls a n' H). rewrite E0.
        apply in_or_app. right. now left.
    + apply last_bound_none in L. exfalso. apply L. now apply (P d' n').
  - cbn [snd]. rewrite dict_get_last_bound. now apply last_bound_absent.
Qed.

(** C1, as the code has it: the first name declared in a WDATA data bus
    with no ARADDR address bus stops the extraction with the lookup
    failure [KeyError] for that name, when the data buses before it can
    be built: each has an address bus of its name, and width texts that
    are integer arithmetic after the substitution. A name declared in
    ARADDR buses only raises nothing: when every data bus can be built
    the extraction returns one interface for each data bus, in order,
    and none for a name that no data bus has. So, in a file whose lines
    are declarations with decimal bounds and lines without [output] and
    [parameter], the extraction raises [KeyError] for the first data bus
    that has no address bus. *)
Theorem missing_address_bus_raises :
  (forall fs path top_rtl before w n after,
      fs path = Some top_rtl ->
      findall re_wdata top_rtl = before ++ (w, n) :: after ->
      (forall m, In m before -> builds top_rtl m) ->
      ~ In n (map snd (findall re_araddr top_rtl)) ->
      parse_m_axi_interfaces fs path = Raise (KeyError n)) /\
  (forall fs path top_rtl,
      fs path = Some top_rtl ->
      (forall m, In m (findall re_wdata top_rtl) -> builds top_rtl m) ->
      exists l,
        parse_m_axi_interfaces fs path = Ok l /\
        map name l = map snd (findall re_wdata top_rtl) /\
        forall n, ~ In n (map snd (findall re_wdata top_rtl)) ->
                  ~ In n (map name l)) /\
  (forall fs path ls before d n after,
      forallb rtl_line_ok ls = true ->
      fs path = Some (rtl_text ls) ->
      declared WDATA ls = before ++ (d, n) :: after ->
      (forall d' n', In (d', n') before ->
                     In n' (map snd (declared ARADDR ls))) ->
      ~ In n (map snd (declared ARADDR ls)) ->
      parse_m_axi_interfaces fs path = Raise (KeyError n)).
Proof.
  split; [|split].
  - intros fs path top_rtl before w n after F E B N.
    rewrite (parse_m_axi_interfaces_unfold fs path _ F), E.
    apply name_to_addr_width_none in N.
    exact (interfaces_first_missing _ _ before after (w, n) [] B N).
  - intros fs path top_rtl F B.
    rewrite (parse_m_axi_interfaces_unfold fs path _ F).
    destruct (interfaces_built (name_to_addr_width top_rtl)
                (param_to_value top_rtl) (findall re_wdata top_rtl) [] B)
      as (l & R & N).
    exists l. split; [exact R|]. split; [exact N|].
    intros n I. now rewrite N.
  - intros fs path ls before d n after. apply first_missing_of_lines.
Qed.

Lemma missing_address_bus_raises_witness :
  parse_m_axi_interfaces (one_file (txt "top.v") top_bar_foo_baz) (txt "top.v")
  = Raise (KeyError (txt "foo")) /\
  (exists l,
     parse_m_axi_interfaces (one_file (txt "top.v") top_bar_baz) (txt "top.v")
     = Ok l /\
     map name l = map snd (findall re_wdata top_bar_baz) /\
     forall n, ~ In n (map snd (findall re_wdata top_bar_baz)) ->
               ~ In n (map name l)) /\
  rtl_text lines_bar_foo_baz = top_bar_foo_baz /\
  parse_m_axi_interfaces (one_file (txt "top.v") (rtl_text lines_bar_foo_baz))
                         (txt "top.v")
  = Raise (KeyError (txt "foo")).
Proof.
  split; [|split].
  - apply (proj1 missing_address_bus_raises
             (one_file (txt "top.v") top_bar_foo_baz) (txt "top.v")
             top_bar_foo_baz [(txt "31", txt "bar")] (txt "63") (txt "foo")
             []).
    + reflexivity.
    + vm_compute. reflexivity.
    + intros m [<-|[]]. exists (txt "63"), 31, 63.
      repeat split; vm_compute; reflexivity.
    + vm_compute. intros [E|[E|[]]]; discriminate E.
  - apply (proj1 (proj2 missing_address_bus_raises)
             (one_file (txt "top.v") top_bar_baz) (txt "top.v") top_bar_baz).
    + reflexivity.
    + intros m I. vm_compute in I. destruct I as [<-|[]].
      exists (txt "63"), 31, 63. repeat split; vm_compute; reflexivity.
  - split; [vm_compute; reflexivity|].
    apply (proj2 (proj2 missing_address_bus_raises)
             (one_file (txt "top.v") (rtl_text lines_bar_foo_baz))
             (txt "top.v") lines_bar_foo_baz
             [(txt "31", txt "bar")] (txt "63") (txt "foo") []).
    + vm_compute. reflexivity.
    + vm_compute. reflexivity.
    + vm_compute. reflexivity.
    + intros d' n' [E|[]]. injection E as <- <-. vm_compute. tauto.
    + vm_compute. intros [E|[E|[]]]; discriminate E.
Defined.

(** * What the patterns find in a file of declarations *)

(** X20: in a file each of whose lines is the declaration of a bus, with
    a decimal bound and a word as its name, or a line that holds neither
    [output] nor [parameter], the pattern of line 67 finds the
    declarations of the address buses and the pattern of line 68 those
    of the data buses, each with its bound and its name and in the
    order of the lines, and the pattern of line 71 finds nothing. *)
Theorem patterns_find_declarations (ls : list rtl_line) :
  forallb rtl_line_ok ls = true ->
  findall re_araddr (rtl_text ls) = declared ARADDR ls /\
  findall re_wdata (rtl_text ls) = declared WDATA ls /\
  findall re_parameter (rtl_text ls) = [].
Proof.
  intros H. split; [|split].
  - exact (findall_declared ARADDR ls H).
  - exact (findall_declared WDATA ls H).
  - exact (findall_no_parameter ls H).
Qed.

Lemma patterns_find_declarations_witness :
  findall re_araddr (rtl_text lines_two)
  = [(txt "63", txt "a"); (txt "31", txt "a"); (txt "63", txt "b")] /\
  findall re_wdata (rtl_text lines_two)
  = [(txt "511", txt "a"); (txt "255", txt "b")] /\
  findall re_parameter (rtl_text lines_two) = [].
Proof.
  apply (patterns_find_declarations lines_two). vm_compute. reflexivity.
Defined.
